(** * Granular access control: bundle lifecycle, row and column censorship

    A shallow embedding of [GranularAccess], [Ruler], [CensorshipInfo] and the
    helpers around them (app/server/lib/GranularAccess.ts), with the
    theorems that settle the properties stated about them.

    Conventions.
    - A DocAction is a JavaScript array [[name, tableId, ...]]; it is an
      inductive type here with one constructor per action name, and
      [actionName] gives back element 0.
    - A JavaScript object used as a record of columns is an association list
      in insertion order ([Object.keys] order).
    - Objects that the code mutates in place (the doc actions handed to the
      outgoing filter, the Rulers) live in a store and are passed by
      reference.
    - An [async] method is a computation in the monad [M]: it threads the
      store and the engine state and may throw. *)

From Stdlib Require Import ZArith Bool.
From stdpp Require Import base option list strings gmap.
From Equations Require Import Equations.

Set Default Proof Using "Type".
Set Warnings "-register-all".
Open Scope Z_scope.
Open Scope string_scope.

(** ** Errors and results *)

Inductive Error :=
| ErrorWithCode (code : string) (message : string)
| ApiError (message : string) (status : Z)
| PlainError (message : string)
| TypeError (message : string).

Inductive Result (A : Type) :=
| Ok (a : A)
| Throw (e : Error).
Arguments Ok {A} a.
Arguments Throw {A} e.

Definition isOk {A} (r : Result A) : bool :=
  match r with Ok _ => true | Throw _ => false end.

(** ** Cell values and column objects *)

Inductive CellValue :=
| CUndefined
| CNull
| CBool (b : bool)
| CNum (z : Z)
| CStr (s : string).

#[global] Instance CellValue_eq_dec : EqDecision CellValue.
Proof. solve_decision. Defined.

(** A JavaScript object with string keys, in insertion order. *)
Definition Obj (V : Type) : Type := list (string * V).

Definition ColValues : Type := Obj CellValue.
Definition BulkColValues : Type := Obj (list CellValue).

Fixpoint objGet {V} (o : Obj V) (k : string) : option V :=
  match o with
  | [] => None
  | (k', v) :: rest => if String.eqb k' k then Some v else objGet rest k
  end.

Definition objHas {V} (o : Obj V) (k : string) : bool :=
  match objGet o k with Some _ => true | None => false end.

Definition objKeys {V} (o : Obj V) : list string := map fst o.

(** [o[k] = v]: overwrite in place when the key exists, append otherwise. *)
Fixpoint objSet {V} (o : Obj V) (k : string) (v : V) : Obj V :=
  match o with
  | [] => [(k, v)]
  | (k', v') :: rest =>
      if String.eqb k' k then (k', v) :: rest else (k', v') :: objSet rest k v
  end.

(** [delete o[k]]. *)
Definition objDelete {V} (o : Obj V) (k : string) : Obj V :=
  List.filter (fun kv => negb (String.eqb (fst kv) k)) o.

(** ** Doc actions and user actions *)

Definition ColInfo : Type := Obj CellValue.

Inductive DocAction :=
| AddRecord (tableId : string) (rowId : Z) (colValues : ColValues)
| BulkAddRecord (tableId : string) (rowIds : list Z) (colValues : BulkColValues)
| UpdateRecord (tableId : string) (rowId : Z) (colValues : ColValues)
| BulkUpdateRecord (tableId : string) (rowIds : list Z) (colValues : BulkColValues)
| RemoveRecord (tableId : string) (rowId : Z)
| BulkRemoveRecord (tableId : string) (rowIds : list Z)
| ReplaceTableData (tableId : string) (rowIds : list Z) (colValues : BulkColValues)
| TableData (tableId : string) (rowIds : list Z) (colValues : BulkColValues)
| AddTable (tableId : string) (columns : list ColInfo)
| RemoveTable (tableId : string)
| RenameTable (tableId : string) (newTableId : string)
| AddColumn (tableId : string) (colId : string) (colInfo : ColInfo)
| RemoveColumn (tableId : string) (colId : string)
| RenameColumn (tableId : string) (colId : string) (newColId : string)
| ModifyColumn (tableId : string) (colId : string) (colInfo : ColInfo).

#[global] Instance DocAction_eq_dec : EqDecision DocAction.
Proof. solve_decision. Defined.

(** The columnar snapshot of a table: [["TableData", tableId, rowIds, columns]]. *)
Record TableDataAction := mkTableData {
  td_tableId : string;
  td_rowIds : list Z;
  td_columns : BulkColValues;
}.

#[global] Instance TableDataAction_eq_dec : EqDecision TableDataAction.
Proof. solve_decision. Defined.

Definition tableDataToAction (d : TableDataAction) : DocAction :=
  TableData (td_tableId d) (td_rowIds d) (td_columns d).

(** A user action is [[name, arg1, ...]].  The two containers carry a nested
    action list as [arg1]; every other action is kept as its name and
    [String(a[1])]. *)
Inductive UserAction :=
| ApplyUndoActions (payload : list UserAction)
| ApplyDocActions (payload : list UserAction)
| Act (name : string) (arg1 : string).

(** Element 0 of the array. *)
Definition actionName (a : DocAction) : string :=
  match a with
  | AddRecord _ _ _ => "AddRecord"
  | BulkAddRecord _ _ _ => "BulkAddRecord"
  | UpdateRecord _ _ _ => "UpdateRecord"
  | BulkUpdateRecord _ _ _ => "BulkUpdateRecord"
  | RemoveRecord _ _ => "RemoveRecord"
  | BulkRemoveRecord _ _ => "BulkRemoveRecord"
  | ReplaceTableData _ _ _ => "ReplaceTableData"
  | TableData _ _ _ => "TableData"
  | AddTable _ _ => "AddTable"
  | RemoveTable _ => "RemoveTable"
  | RenameTable _ _ => "RenameTable"
  | AddColumn _ _ _ => "AddColumn"
  | RemoveColumn _ _ => "RemoveColumn"
  | RenameColumn _ _ _ => "RenameColumn"
  | ModifyColumn _ _ _ => "ModifyColumn"
  end.

Definition userActionName (a : UserAction) : string :=
  match a with
  | ApplyUndoActions _ => "ApplyUndoActions"
  | ApplyDocActions _ => "ApplyDocActions"
  | Act name _ => name
  end.

(** [String(a[1])] of a user action that is not a container. *)
Definition userActionArg1 (a : UserAction) : string :=
  match a with
  | Act _ arg1 => arg1
  | _ => ""
  end.

Definition setHas (s : list string) (x : string) : bool :=
  existsb (String.eqb x) s.

Definition idsHas (s : list Z) (x : Z) : bool :=
  existsb (Z.eqb x) s.

(** [new Set(xs)]: first occurrences, in order. *)
Fixpoint newSet (xs : list Z) : list Z :=
  match xs with
  | [] => []
  | x :: rest => x :: List.filter (fun y => negb (Z.eqb y x)) (newSet rest)
  end.

(** [s.add(x)]. *)
Definition setAdd (s : list Z) (x : Z) : list Z :=
  if idsHas s x then s else s ++ [x].

(** *** Constants of the module *)

Definition ACTION_WITH_TABLE_ID : list string :=
  ["AddRecord"; "BulkAddRecord"; "UpdateRecord"; "BulkUpdateRecord";
   "RemoveRecord"; "BulkRemoveRecord"; "ReplaceTableData"; "TableData"].

Definition isDataAction (a : DocAction) : bool :=
  setHas ACTION_WITH_TABLE_ID (actionName a).

Definition isDataUserAction (a : UserAction) : bool :=
  setHas ACTION_WITH_TABLE_ID (userActionName a).

Definition isAclTable (tableId : string) : bool :=
  setHas ["_grist_ACLRules"; "_grist_ACLResources"] tableId.

Definition STRUCTURAL_TABLES : list string :=
  ["_grist_Tables"; "_grist_Tables_column"; "_grist_Views";
   "_grist_Views_section"; "_grist_Views_section_field";
   "_grist_ACLResources"; "_grist_ACLRules"].

Definition SPECIAL_ACTIONS : list string :=
  ["InitNewDoc"; "EvalCode"; "SetDisplayFormula"; "UpdateSummaryViewSection";
   "DetachSummaryViewSection"; "GenImporterView"; "TransformAndFinishImport";
   "AddView"; "CopyFromColumn"; "AddHiddenColumn"].

Definition SURPRISING_ACTIONS : list string := ["RemoveView"; "AddViewSection"].

Definition OK_ACTIONS : list string := ["Calculate"].

(** *** Helpers imported from app/common and app/server/lib *)

(** Modelled from the spec: [getTableId] of app/common/DocActions ("every
    action carries a tableId recoverable by a pure function"): element 1. *)
Definition getTableId (a : DocAction) : string :=
  match a with
  | AddRecord t _ _ | BulkAddRecord t _ _ | UpdateRecord t _ _
  | BulkUpdateRecord t _ _ | RemoveRecord t _ | BulkRemoveRecord t _
  | ReplaceTableData t _ _ | TableData t _ _ | AddTable t _ | RemoveTable t
  | RenameTable t _ | AddColumn t _ _ | RemoveColumn t _ | RenameColumn t _ _
  | ModifyColumn t _ _ => t
  end.

(** Modelled from the spec: [isSchemaAction] of app/common/DocActions: the
    schema ops [{AddTable, RemoveTable, RenameTable, AddColumn, RemoveColumn,
    RenameColumn, ModifyColumn}]. *)
Definition isSchemaAction (a : DocAction) : bool :=
  setHas ["AddTable"; "RemoveTable"; "RenameTable"; "AddColumn";
          "RemoveColumn"; "RenameColumn"; "ModifyColumn"] (actionName a).

(** Modelled from the spec: [getRowIdsFromDocAction] of
    app/server/lib/RowAccess: element 2 of a row op, a single id taken as a
    one-element list. *)
Definition getRowIdsFromDocAction (a : DocAction) : list Z :=
  match a with
  | AddRecord _ id _ | UpdateRecord _ id _ | RemoveRecord _ id => [id]
  | BulkAddRecord _ ids _ | BulkUpdateRecord _ ids _ | BulkRemoveRecord _ ids
  | ReplaceTableData _ ids _ | TableData _ ids _ => ids
  | _ => []
  end.

(** Modelled from the spec: [pruneArray] of app/common/gutil ("remove indices
    from rowIds and from each column's value array in lockstep"): drops the
    elements at the given (sorted) indices. *)
Fixpoint pruneArrayFrom {A} (i : nat) (arr : list A) (indices : list nat) : list A :=
  match arr with
  | [] => []
  | x :: rest =>
      if existsb (Nat.eqb i) indices
      then pruneArrayFrom (S i) rest indices
      else x :: pruneArrayFrom (S i) rest indices
  end.

Definition pruneArray {A} (arr : list A) (indices : list nat) : list A :=
  pruneArrayFrom 0%nat arr indices.

(** [xs.filter(isObject)] over values that are an action or [null]. *)
Definition filterIsObject {A} (xs : list (option A)) : list A :=
  omap id xs.

(** ** Scanning user actions *)

Fixpoint userActionSize (a : UserAction) : nat :=
  match a with
  | ApplyUndoActions p | ApplyDocActions p =>
      S ((fix go (l : list UserAction) : nat :=
            match l with [] => 0 | x :: r => userActionSize x + go r end) p)%nat
  | Act _ _ => 1%nat
  end.

Fixpoint userActionsSize (l : list UserAction) : nat :=
  match l with
  | [] => 0
  | x :: r => userActionSize x + userActionsSize r
  end%nat.

Equations? scanActionsRecursively (actions : list UserAction)
    (check : UserAction -> bool) : bool by wf (userActionsSize actions) lt :=
scanActionsRecursively [] check := false;
scanActionsRecursively (ApplyUndoActions payload :: rest) check :=
  scanActionsRecursively payload check;
scanActionsRecursively (ApplyDocActions payload :: rest) check :=
  scanActionsRecursively payload check;
scanActionsRecursively (a :: rest) check :=
  if check a then true else scanActionsRecursively rest check.
Proof.
  all: simpl; try lia.
  all: change ((fix go (l : list UserAction) : nat :=
                  match l with [] => 0 | x :: r => userActionSize x + go r end%nat) payload)
         with (userActionsSize payload); lia.
Qed.

(** ** Permissions *)

Inductive PermissionValue := allow | deny | mixed | mixedColumns.

#[global] Instance PermissionValue_eq_dec : EqDecision PermissionValue.
Proof. solve_decision. Defined.

(** [ALL_PERMISSION_PROPS]. *)
Inductive PermissionProp := PRead | PCreate | PUpdate | PDelete | PSchemaEdit.

Record PermissionSet := mkPermissionSet {
  perm_read : PermissionValue;
  perm_create : PermissionValue;
  perm_update : PermissionValue;
  perm_delete : PermissionValue;
  perm_schemaEdit : PermissionValue;
}.

(** [perms[prop]]. *)
Definition permAt (ps : PermissionSet) (p : PermissionProp) : PermissionValue :=
  match p with
  | PRead => perm_read ps
  | PCreate => perm_create ps
  | PUpdate => perm_update ps
  | PDelete => perm_delete ps
  | PSchemaEdit => perm_schemaEdit ps
  end.

Record PermissionSetWithContext := mkPSC {
  perms : PermissionSet;
  ruleType : string;
  getMemos : PermissionProp -> list string;
}.

(** ** Sessions, users and record views *)

Inductive Role := owners | editors | viewers.

#[global] Instance Role_eq_dec : EqDecision Role.
Proof. solve_decision. Defined.

(** Modelled from the spec: [canView] of app/common/roles: every role can
    view; [null] (no access) cannot. *)
Definition canView (access : option Role) : bool :=
  match access with Some _ => true | None => false end.

Record FullUser := mkFullUser {
  fu_id : Z;
  fu_email : string;
  fu_name : string;
}.

(** [RecordView] and [EmptyRecordView]: the two implementations of
    [InfoView]. *)
Inductive InfoView :=
| RecordView (data : TableDataAction) (index : option nat)
| EmptyRecordView.

Definition arrayAt (xs : list CellValue) (i : nat) : CellValue :=
  match xs !! i with Some v => v | None => CUndefined end.

Definition InfoView_get (v : InfoView) (colId : string) : CellValue :=
  match v with
  | EmptyRecordView => CNull
  | RecordView data None => CNull
  | RecordView data (Some index) =>
      if String.eqb colId "id"
      then match td_rowIds data !! index with Some id => CNum id | None => CUndefined end
      else match objGet (td_columns data) colId with
           | Some vals => arrayAt vals index
           | None => CUndefined
           end
  end.

Definition InfoView_toJSON (v : InfoView) : Obj CellValue :=
  match v with
  | EmptyRecordView => []
  | RecordView data None => []
  | RecordView data (Some index) =>
      map (fun kv => (fst kv, arrayAt (snd kv) index)) (td_columns data)
  end.

(** Link parameters of the session's authorizer, [{[key]: string}]. *)
Definition LinkParameters : Type := Obj string.

(** JavaScript truthiness of [linkParameters.key]. *)
Definition linkParam (lp : LinkParameters) (k : string) : option string :=
  match objGet lp k with
  | Some "" => None
  | r => r
  end.

(** A session.  [sessionKey] is the object's identity (the key of the
    WeakMaps); the other fields are what [getDocSessionAccess],
    [getDocSessionUser], [authorizer?.getLinkParameters()] and
    [req?.get('origin')] read from it. *)
Record OptDocSession := mkSession {
  sessionKey : nat;
  getLinkParameters : option LinkParameters;
  getDocSessionAccess : option Role;
  getDocSessionUser : option FullUser;
  reqOrigin : option string;
}.

Definition sessionLinkParameters (s : OptDocSession) : LinkParameters :=
  match getLinkParameters s with Some lp => lp | None => [] end.

Record UserInfo := mkUserInfo {
  Access : option Role;
  UserID : option Z;
  Email : option string;
  Name : option string;
  LinkKey : LinkParameters;
  Origin : option string;
  (** the fields added by user-attribute rules, [user[clause.name]] *)
  userAttrs : Obj InfoView;
}.

(** [name in user]. *)
Definition userHasKey (u : UserInfo) (name : string) : bool :=
  setHas ["Access"; "UserID"; "Email"; "Name"; "LinkKey"; "Origin"] name
  || objHas (userAttrs u) name.

Record UserOverride := mkOverride {
  ov_access : option Role;
  ov_user : option FullUser;
}.

Record UserAttributes := mkUserAttributes {
  rows : Obj InfoView;
  override : option UserOverride;
}.

Definition newUserAttributes : UserAttributes :=
  {| rows := []; override := None |}.

(** ** Rules (external: ACLRuleCollection and PermissionInfo) *)

Record UserAttributeRule := mkUARule {
  ua_name : string;
  ua_tableId : string;
  ua_lookupColId : string;
  ua_charId : string;
}.

Record AclMatchInput := mkInput {
  user : UserInfo;
  rec : option InfoView;
  newRec : option InfoView;
}.

(** Modelled from the spec: [ACLRuleCollection] (app/common) with the
    evaluation that [PermissionInfo] (app/server/lib) performs over it:
    "given (user, optional rec, optional newRec), yields a PermissionSet per
    (table) or (table,column)", "getFullAccess() for document-wide
    summaries", "haveRules, getUserAttributeRules, ... a ruleError if
    malformed".  The rule language itself is out of scope, so a collection
    is its observable answers. *)
Record ACLRuleCollection := mkRules {
  rc_haveRules : bool;
  rc_ruleError : option Error;
  rc_getUserAttributeRules : list UserAttributeRule;
  rc_tableAccess : AclMatchInput -> string -> PermissionSetWithContext;
  rc_columnAccess : AclMatchInput -> string -> string -> PermissionSetWithContext;
  rc_fullAccess : AclMatchInput -> PermissionSetWithContext;
}.

(** [new PermissionInfo(ruleCollection, input)]. *)
Record PermissionInfo := mkPermissionInfo {
  pi_ruleCollection : ACLRuleCollection;
  pi_input : AclMatchInput;
}.

Definition PermissionInfo_getTableAccess (p : PermissionInfo) (tableId : string) : PermissionSetWithContext :=
  rc_tableAccess (pi_ruleCollection p) (pi_input p) tableId.

Definition PermissionInfo_getColumnAccess (p : PermissionInfo) (tableId colId : string) : PermissionSetWithContext :=
  rc_columnAccess (pi_ruleCollection p) (pi_input p) tableId colId.

Definition PermissionInfo_getFullAccess (p : PermissionInfo) : PermissionSetWithContext :=
  rc_fullAccess (pi_ruleCollection p) (pi_input p).

(** [SPECIAL_RULES_TABLE_ID] of app/common/ACLRuleCollection. *)
Definition SPECIAL_RULES_TABLE_ID : string := "*SPECIAL".

Definition getReadPermission (ps : PermissionSetWithContext) : PermissionValue :=
  perm_read (perms ps).

(** ** AccessCheck *)

Inductive Severity := check | fatal.

Record AccessCheck := mkAccessCheck {
  access : PermissionProp;
  severity : Severity;
}.

Definition AccessCheck_throwIfDenied (c : AccessCheck) (ps : PermissionSetWithContext) : Result unit :=
  match permAt (perms ps) (access c) with
  | deny =>
      Throw (ErrorWithCode "ACL_DENY"
               ("Blocked by " ++ ruleType ps ++ " access rules"))
  | _ => Ok tt
  end.

Definition AccessCheck_get (c : AccessCheck) (ps : PermissionSetWithContext) : Result PermissionValue :=
  let result := permAt (perms ps) (access c) in
  match result, severity c with
  | deny, fatal =>
      match AccessCheck_throwIfDenied c ps with
      | Throw e => Throw e
      | Ok _ => Ok result
      end
  | _, _ => Ok result
  end.

Definition accessChecks (sev : Severity) (p : PermissionProp) : AccessCheck :=
  {| access := p; severity := sev |}.

Definition readAccessCheck : AccessCheck := accessChecks check PRead.

Definition getAccessForActionType (name tableId : string) (sev : Severity) : AccessCheck :=
  if setHas STRUCTURAL_TABLES tableId then accessChecks sev PSchemaEdit
  else if String.eqb name "UpdateRecord" || String.eqb name "BulkUpdateRecord"
  then accessChecks sev PUpdate
  else if String.eqb name "RemoveRecord" || String.eqb name "BulkRemoveRecord"
  then accessChecks sev PDelete
  else if String.eqb name "AddRecord" || String.eqb name "BulkAddRecord"
  then accessChecks sev PCreate
  else accessChecks sev PSchemaEdit.

(** ** The engine's state *)

(** The document snapshot, "addressable by tableId". *)
Definition DocData : Type := gmap string TableDataAction.

Record Query := mkQuery {
  q_tableId : string;
  q_filters : Obj (list CellValue);
}.

(** The home database, as the four calls [_getUser] makes on it. *)
Record HomeDBManager := mkHomeDB {
  db_getUser : Z -> option FullUser;
  db_getUserByLogin : string -> option FullUser;
  (** [getDocAuthCached({urlId, userId})?.access] *)
  db_getDocAuthCached : string -> Z -> option Role;
  db_makeFullUser : FullUser -> FullUser;
}.

(** References into the store. *)
Definition ActionRef : Type := nat.
Definition RulerRef : Type := nat.

Record Ruler := mkRuler {
  ruleCollection : ACLRuleCollection;
  (** a WeakMap from session to a settled [Promise<PermissionInfo>] *)
  _permissionInfoMap : gmap nat (Result PermissionInfo);
}.

Record ActionStep := mkStep {
  step_action : DocAction;
  rowsBefore : option TableDataAction;
  rowsAfter : option TableDataAction;
  rowsLast : option TableDataAction;
  metaBefore : option (gmap string TableDataAction);
  metaAfter : option (gmap string TableDataAction);
  step_ruler : option RulerRef;
}.

Record ActiveBundle := mkBundle {
  docSession : OptDocSession;
  userActions : list UserAction;
  docActions : list DocAction;
  undo : list DocAction;
  applied : bool;
  hasDeliberateRuleChange : bool;
}.

Record GranularAccess := mkGranularAccess {
  _ruler : RulerRef;
  _userAttributesMap : gmap nat UserAttributes;
  _prevUserAttributesMap : option (gmap nat UserAttributes);
  (** the memoized promise of the steps, once settled *)
  _steps : option (Result (list ActionStep));
  _activeBundle : option ActiveBundle;
  _docData : DocData;
  _fetchQueryFromDB : Query -> Result TableDataAction;
  _recoveryMode : bool;
  _homeDbManager : option HomeDBManager;
  _docId : string;
}.

(** The store: the doc actions and the Rulers that are passed by reference,
    and the engine object itself. *)
Record World := mkWorld {
  actions : gmap ActionRef DocAction;
  nextAction : ActionRef;
  rulers : gmap RulerRef Ruler;
  nextRuler : RulerRef;
  this : GranularAccess;
}.

Definition setThis (g : GranularAccess) (w : World) : World :=
  {| actions := actions w; nextAction := nextAction w;
     rulers := rulers w; nextRuler := nextRuler w; this := g |}.

Definition setActions (h : gmap ActionRef DocAction) (n : ActionRef) (w : World) : World :=
  {| actions := h; nextAction := n;
     rulers := rulers w; nextRuler := nextRuler w; this := this w |}.

Definition setRulers (h : gmap RulerRef Ruler) (n : RulerRef) (w : World) : World :=
  {| actions := actions w; nextAction := nextAction w;
     rulers := h; nextRuler := n; this := this w |}.

Definition set_ruler (r : RulerRef) (g : GranularAccess) : GranularAccess :=
  {| _ruler := r; _userAttributesMap := _userAttributesMap g;
     _prevUserAttributesMap := _prevUserAttributesMap g; _steps := _steps g;
     _activeBundle := _activeBundle g; _docData := _docData g;
     _fetchQueryFromDB := _fetchQueryFromDB g; _recoveryMode := _recoveryMode g;
     _homeDbManager := _homeDbManager g; _docId := _docId g |}.

Definition set_userAttributesMap (m : gmap nat UserAttributes) (g : GranularAccess) : GranularAccess :=
  {| _ruler := _ruler g; _userAttributesMap := m;
     _prevUserAttributesMap := _prevUserAttributesMap g; _steps := _steps g;
     _activeBundle := _activeBundle g; _docData := _docData g;
     _fetchQueryFromDB := _fetchQueryFromDB g; _recoveryMode := _recoveryMode g;
     _homeDbManager := _homeDbManager g; _docId := _docId g |}.

Definition set_prevUserAttributesMap (m : option (gmap nat UserAttributes)) (g : GranularAccess) : GranularAccess :=
  {| _ruler := _ruler g; _userAttributesMap := _userAttributesMap g;
     _prevUserAttributesMap := m; _steps := _steps g;
     _activeBundle := _activeBundle g; _docData := _docData g;
     _fetchQueryFromDB := _fetchQueryFromDB g; _recoveryMode := _recoveryMode g;
     _homeDbManager := _homeDbManager g; _docId := _docId g |}.

Definition set_steps (s : option (Result (list ActionStep))) (g : GranularAccess) : GranularAccess :=
  {| _ruler := _ruler g; _userAttributesMap := _userAttributesMap g;
     _prevUserAttributesMap := _prevUserAttributesMap g; _steps := s;
     _activeBundle := _activeBundle g; _docData := _docData g;
     _fetchQueryFromDB := _fetchQueryFromDB g; _recoveryMode := _recoveryMode g;
     _homeDbManager := _homeDbManager g; _docId := _docId g |}.

Definition set_activeBundle (b : option ActiveBundle) (g : GranularAccess) : GranularAccess :=
  {| _ruler := _ruler g; _userAttributesMap := _userAttributesMap g;
     _prevUserAttributesMap := _prevUserAttributesMap g; _steps := _steps g;
     _activeBundle := b; _docData := _docData g;
     _fetchQueryFromDB := _fetchQueryFromDB g; _recoveryMode := _recoveryMode g;
     _homeDbManager := _homeDbManager g; _docId := _docId g |}.

Definition set_applied (v : bool) (b : ActiveBundle) : ActiveBundle :=
  {| docSession := docSession b; userActions := userActions b;
     docActions := docActions b; undo := undo b; applied := v;
     hasDeliberateRuleChange := hasDeliberateRuleChange b |}.

Definition set_hasDeliberateRuleChange (v : bool) (b : ActiveBundle) : ActiveBundle :=
  {| docSession := docSession b; userActions := userActions b;
     docActions := docActions b; undo := undo b; applied := applied b;
     hasDeliberateRuleChange := v |}.

(** ** The monad of the engine's methods

    A computation runs in a world and leaves a world behind, also when it
    throws: what it mutated before the throw stays mutated. *)

Definition M (A : Type) : Type := World -> Result A * World.

Definition ret {A} (a : A) : M A := fun w => (Ok a, w).

Definition throw {A} (e : Error) : M A := fun w => (Throw e, w).

Definition bind {A B} (m : M A) (k : A -> M B) : M B :=
  fun w => match m w with
           | (Ok a, w') => k a w'
           | (Throw e, w') => (Throw e, w')
           end.

#[global] Instance M_ret : MRet M := @ret.
#[global] Instance M_bind : MBind M := fun A B k m => bind m k.

(** A computation given by its effect on the world. *)
Definition mkM {A} (f : World -> Result A * World) : M A := f.

Definition liftResult {A} (r : Result A) : M A :=
  match r with Ok a => ret a | Throw e => throw e end.

Definition getThis : M GranularAccess := fun w => (Ok (this w), w).

Definition modifyThis (f : GranularAccess -> GranularAccess) : M unit :=
  fun w => (Ok tt, setThis (f (this w)) w).

(** [for (const x of xs) { ... }] with an accumulator. *)
Fixpoint forEach {A S} (xs : list A) (s : S) (body : S -> A -> M S) : M S :=
  match xs with
  | [] => ret s
  | x :: rest => s' ← body s x; forEach rest s' body
  end.

(** [Promise.all(xs.map(f))], the calls taken in list order. *)
Fixpoint mapM {A B} (f : A -> M B) (xs : list A) : M (list B) :=
  match xs with
  | [] => ret []
  | x :: rest => y ← f x; ys ← mapM f rest; ret (y :: ys)
  end.

(** *** The store *)

Definition readAction (l : ActionRef) : M DocAction :=
  fun w => match actions w !! l with
           | Some a => (Ok a, w)
           | None => (Throw (TypeError "dangling action reference"), w)
           end.

Definition writeAction (l : ActionRef) (a : DocAction) : M unit :=
  fun w => (Ok tt, setActions (<[l := a]> (actions w)) (nextAction w) w).

Definition allocAction (a : DocAction) : M ActionRef :=
  fun w => (Ok (nextAction w),
            setActions (<[nextAction w := a]> (actions w)) (S (nextAction w)) w).

(** [cloneDeep(a)] of an action held by reference. *)
Definition cloneDeep (l : ActionRef) : M ActionRef :=
  a ← readAction l; allocAction a.

Definition readRuler (r : RulerRef) : M Ruler :=
  fun w => match rulers w !! r with
           | Some x => (Ok x, w)
           | None => (Throw (TypeError "dangling ruler reference"), w)
           end.

Definition writeRuler (r : RulerRef) (x : Ruler) : M unit :=
  fun w => (Ok tt, setRulers (<[r := x]> (rulers w)) (nextRuler w) w).

(** ** Collaborators outside the file *)

Record Externals := mkExternals {
  (** [ACLRuleCollection.update(docData, {log, compile})]: the collection
      read and compiled from the ACL tables of a snapshot. *)
  readAclRules : DocData -> ACLRuleCollection;
  (** The body of [_getUncachedSteps] over [DocData]: the steps of a
      bundle, built from the engine's fields; it may create Rulers. *)
  buildSteps : GranularAccess -> ActiveBundle -> gmap RulerRef Ruler -> RulerRef ->
               Result (list ActionStep) * (gmap RulerRef Ruler * RulerRef);
  (** lodash [get(user, path)]. *)
  lodashGet : UserInfo -> string -> CellValue;
  (** [JSON.stringify] of a [toJSON()] object. *)
  jsonStringify : Obj CellValue -> string;
  (** [integerParam] of app/server/lib/requestUtils. *)
  integerParam : string -> Result Z;
}.

Section Engine.

Context (ext : Externals).

(** ** Ruler *)

Definition Ruler_haveRules (r : RulerRef) : M bool :=
  x ← readRuler r; ret (rc_haveRules (ruleCollection x)).

Definition Ruler_clearCache (r : RulerRef) : M unit :=
  x ← readRuler r;
  writeRuler r {| ruleCollection := ruleCollection x; _permissionInfoMap := ∅ |}.

Definition Ruler_update (r : RulerRef) (docData : DocData) : M unit :=
  x ← readRuler r;
  writeRuler r {| ruleCollection := readAclRules ext docData;
                  _permissionInfoMap := _permissionInfoMap x |};;
  (* Also clear the per-docSession cache of rule evaluations. *)
  Ruler_clearCache r.

(** ** User attributes and the user of a session *)

(** [getSetMapValue(this._userAttributesMap, docSession, () => new UserAttributes())] *)
Definition _getUserAttributes (docSession : OptDocSession) : M UserAttributes :=
  g ← getThis;
  match _userAttributesMap g !! sessionKey docSession with
  | Some attrs => ret attrs
  | None =>
      modifyThis (set_userAttributesMap
                    (<[sessionKey docSession := newUserAttributes]> (_userAttributesMap g)));;
      ret newUserAttributes
  end.

(** A write to a field of the [UserAttributes] object of a session: the
    object is the one held by [_userAttributesMap]. *)
Definition storeUserAttributes (docSession : OptDocSession) (attrs : UserAttributes) : M unit :=
  modifyThis (fun g => set_userAttributesMap
                         (<[sessionKey docSession := attrs]> (_userAttributesMap g)) g).

Definition isSome {A} (o : option A) : bool :=
  match o with Some _ => true | None => false end.

Definition truthyZ (z : Z) : option Z := if Z.eqb z 0 then None else Some z.
Definition truthyString (s : string) : option string :=
  if String.eqb s "" then None else Some s.

(** One turn of the loop over the user-attribute rules in [_getUser]. *)
Definition userAttributeStep (fetch : Query -> Result TableDataAction)
    (st : UserInfo * UserAttributes) (clause : UserAttributeRule) : UserInfo * UserAttributes :=
  let '(u, attrs) := st in
  let setUser (v : InfoView) :=
    {| Access := Access u; UserID := UserID u; Email := Email u; Name := Name u;
       LinkKey := LinkKey u; Origin := Origin u;
       userAttrs := objSet (userAttrs u) (ua_name clause) v |} in
  if userHasKey u (ua_name clause) then st
  else match objGet (rows attrs) (ua_name clause) with
       | Some v => (setUser v, attrs)
       | None =>
           let fetched :=
             match fetch {| q_tableId := ua_tableId clause;
                            q_filters := [(ua_lookupColId clause,
                                           [lodashGet ext u (ua_charId clause)])] |} with
             | Ok d => Some d
             | Throw _ => None
             end in
           let r :=
             match fetched with
             | Some d => if (0 <? length (td_rowIds d))%nat
                         then RecordView d (Some 0%nat) else EmptyRecordView
             | None => EmptyRecordView
             end in
           (setUser r,
            {| rows := objSet (rows attrs) (ua_name clause) r;
               override := override attrs |})
       end.

Definition _getUser (docSession : OptDocSession) : M UserInfo :=
  let linkParameters := sessionLinkParameters docSession in
  attrs ← _getUserAttributes docSession;
  let access := getDocSessionAccess docSession in
  (* If aclAsUserId/aclAsUser is set, then override user for acl purposes. *)
  resolved ←
    (if isSome (linkParam linkParameters "aclAsUserId")
        || isSome (linkParam linkParameters "aclAsUser")
     then
       if negb (bool_decide (access = Some owners))
       then throw (PlainError "only an owner can override user")
       else match override attrs with
            | Some ov => ret (ov_access ov, ov_user ov, attrs)
            | None =>
                g ← getThis;
                match _homeDbManager g with
                | None => throw (PlainError "database required")
                | Some db =>
                    dbUser ←
                      match linkParam linkParameters "aclAsUserId" with
                      | Some s => n ← liftResult (integerParam ext s);
                                  ret (db_getUser db n)
                      | None =>
                          ret (db_getUserByLogin db
                                 (default "" (objGet linkParameters "aclAsUser")))
                      end;
                    let access' :=
                      match dbUser with
                      | Some u => db_getDocAuthCached db (_docId g) (fu_id u)
                      | None => None
                      end in
                    let fullUser := db_makeFullUser db <$> dbUser in
                    let attrs' :=
                      {| rows := rows attrs;
                         override := Some {| ov_access := access'; ov_user := fullUser |} |} in
                    storeUserAttributes docSession attrs';;
                    ret (access', fullUser, attrs')
                end
            end
     else ret (access, getDocSessionUser docSession, attrs));
  let '(access, fullUser, attrs) := resolved in
  let u := {| Access := access;
              UserID := fullUser ≫= (fun f => truthyZ (fu_id f));
              Email := fullUser ≫= (fun f => truthyString (fu_email f));
              Name := fullUser ≫= (fun f => truthyString (fu_name f));
              LinkKey := linkParameters;
              Origin := reqOrigin docSession ≫= truthyString;
              userAttrs := [] |} in
  g ← getThis;
  r ← readRuler (_ruler g);
  match rc_ruleError (ruleCollection r), _recoveryMode g with
  | Some e, false => throw e
  | _, _ =>
      let '(u', attrs') :=
        fold_left (userAttributeStep (_fetchQueryFromDB g))
                  (rc_getUserAttributeRules (ruleCollection r)) (u, attrs) in
      storeUserAttributes docSession attrs';;
      ret u'
  end.

(** [getSetMapValue(this._permissionInfoMap, docSession, async () =>
    new PermissionInfo(this.ruleCollection, {user: await this._owner.getUser(docSession)}))]:
    the promise is cached whether it resolves or rejects. *)
Definition Ruler_getAccess (r : RulerRef) (docSession : OptDocSession) : M PermissionInfo :=
  x ← readRuler r;
  match _permissionInfoMap x !! sessionKey docSession with
  | Some cached => liftResult cached
  | None =>
      mkM (fun w =>
        let '(res, w1) := _getUser docSession w in
        let settle (p : Result PermissionInfo) : M PermissionInfo :=
          (x' ← readRuler r;
           writeRuler r {| ruleCollection := ruleCollection x';
                           _permissionInfoMap :=
                             <[sessionKey docSession := p]> (_permissionInfoMap x') |};;
           liftResult p) in
        match res with
        | Ok u =>
            match rulers w1 !! r with
            | Some x' =>
                settle (Ok {| pi_ruleCollection := ruleCollection x';
                              pi_input := {| user := u; rec := None; newRec := None |} |}) w1
            | None => (Throw (TypeError "dangling ruler reference"), w1)
            end
        | Throw e => settle (Throw e) w1
        end)
  end.

(** ** GranularAccess: access queries *)

(** [this._ruler.haveRules()] *)
Definition haveRules : M bool :=
  g ← getThis; Ruler_haveRules (_ruler g).

Definition _getAccess (docSession : OptDocSession) : M PermissionInfo :=
  g ← getThis; Ruler_getAccess (_ruler g) docSession.

Definition _getNominalAccess (docSession : OptDocSession) : M (option Role) :=
  let linkParameters := sessionLinkParameters docSession in
  if isSome (linkParam linkParameters "aclAsUserId")
     || isSome (linkParam linkParameters "aclAsUser")
  then info ← _getUser docSession; ret (Access info)
  else ret (getDocSessionAccess docSession).

Definition isOwner (docSession : OptDocSession) : M bool :=
  access ← _getNominalAccess docSession;
  ret (bool_decide (access = Some owners)).

Definition hasFullAccess (docSession : OptDocSession) : M bool :=
  isOwner docSession.

Definition hasNuancedAccess (docSession : OptDocSession) : M bool :=
  h ← haveRules;
  if negb h then ret false
  else full ← hasFullAccess docSession; ret (negb full).

Definition hasFullCopiesPermission (docSession : OptDocSession) : M bool :=
  permInfo ← _getAccess docSession;
  ret (bool_decide
         (perm_read (perms (PermissionInfo_getColumnAccess permInfo
                              SPECIAL_RULES_TABLE_ID "FullCopies")) = allow)).

Definition hasAccessRulesPermission (docSession : OptDocSession) : M bool :=
  permInfo ← _getAccess docSession;
  ret (bool_decide
         (perm_read (perms (PermissionInfo_getColumnAccess permInfo
                              SPECIAL_RULES_TABLE_ID "AccessRules")) = allow)).

Definition canReadEverything (docSession : OptDocSession) : M bool :=
  access ← _getNominalAccess docSession;
  if negb (canView access) then ret false
  else permInfo ← _getAccess docSession;
       ret (bool_decide (getReadPermission (PermissionInfo_getFullAccess permInfo) = allow)).

Definition getTableAccess (docSession : OptDocSession) (tableId : string)
  : M PermissionSetWithContext :=
  permInfo ← _getAccess docSession;
  ret (PermissionInfo_getTableAccess permInfo tableId).

Definition hasTableAccess (docSession : OptDocSession) (tableId : string) : M bool :=
  pset ← getTableAccess docSession tableId;
  ret (negb (bool_decide (getReadPermission pset = deny))).

(** ** GranularAccess: the ingress check on user actions *)

Definition aclDeny (message : string) : Error := ErrorWithCode "ACL_DENY" message.

Fixpoint assertCanMaybeApplyUserAction (docSession : OptDocSession) (a : UserAction)
  {struct a} : M bool :=
  let name := userActionName a in
  if setHas OK_ACTIONS name then ret true
  else if setHas SPECIAL_ACTIONS name then
    nuanced ← hasNuancedAccess docSession;
    if (nuanced : bool)
    then throw (aclDeny ("Blocked by access rules: '" ++ name
                         ++ "' actions need uncomplicated access"))
    else ret true
  else if setHas SURPRISING_ACTIONS name then
    full ← hasFullAccess docSession;
    if negb full
    then throw (aclDeny ("Blocked by access rules: '" ++ name
                         ++ "' actions need full access"))
    else ret true
  else
    let assertAll :=
      fix assertAll (actions : list UserAction) : M bool :=
        match actions with
        | [] => ret true
        | x :: rest =>
            ok ← assertCanMaybeApplyUserAction docSession x;
            if negb ok then ret false else assertAll rest
        end in
    match a with
    | ApplyUndoActions payload => assertAll payload
    | ApplyDocActions payload => assertAll payload
    | Act _ arg1 =>
        if isDataUserAction a then
          let tableId := arg1 in
          if String.prefix "_grist_" tableId
          then ret false  (* have to look closely *)
          else
            tableAccess ← getTableAccess docSession tableId;
            let accessCheck := getAccessForActionType name tableId fatal in
            (* will throw if access denied. *)
            liftResult (AccessCheck_get accessCheck tableAccess);;
            ret true
        else ret false  (* have to look closely *)
    end.

Fixpoint assertCanMaybeApplyUserActions (docSession : OptDocSession)
    (actions : list UserAction) : M bool :=
  match actions with
  | [] => ret true
  | a :: rest =>
      ok ← assertCanMaybeApplyUserAction docSession a;
      if negb ok then ret false
      else assertCanMaybeApplyUserActions docSession rest
  end.

(** ** GranularAccess: the bundle lifecycle *)

Definition getGranularAccessForBundle (docSession : OptDocSession)
    (docActions undo : list DocAction) (userActions : list UserAction) : M unit :=
  g ← getThis;
  if isSome (_activeBundle g)
  then throw (PlainError "Cannot start a bundle while one is already in progress")
  else
    let bundle :=
      {| docSession := docSession; docActions := docActions; undo := undo;
         userActions := userActions;
         applied := false; hasDeliberateRuleChange := false |} in
    modifyThis (set_activeBundle (Some bundle));;
    modifyThis (set_activeBundle
                  (Some (set_hasDeliberateRuleChange
                           (scanActionsRecursively userActions
                              (fun a => isAclTable (userActionArg1 a)))
                           bundle))).

Definition update : M unit :=
  g ← getThis;
  Ruler_update (_ruler g) (_docData g);;
  (* Also clear the per-docSession cache of user attributes. *)
  modifyThis (set_userAttributesMap ∅).

Definition appliedBundle : M unit :=
  g ← getThis;
  match _activeBundle g with
  | None => throw (PlainError "no active bundle")
  | Some bundle =>
      let docActions := docActions bundle in
      modifyThis (set_activeBundle (Some (set_applied true bundle)));;
      h ← haveRules;
      if negb h then ret tt
      else
        r ← readRuler (_ruler g);
        let attrs := map ua_tableId (rc_getUserAttributeRules (ruleCollection r)) in
        let attrChange := existsb (fun docAction => setHas attrs (getTableId docAction)) docActions in
        (if attrChange
         then modifyThis (fun g => set_userAttributesMap ∅
                                     (set_prevUserAttributesMap (Some (_userAttributesMap g)) g))
         else ret tt);;
        (* If there's a schema change, zap permission cache. *)
        let schemaChange := existsb isSchemaAction docActions in
        if attrChange || schemaChange
        then Ruler_clearCache (_ruler g)
        else ret tt
  end.

Definition _updateRules (docActions : list DocAction) : M unit :=
  if existsb (fun docAction => isAclTable (getTableId docAction)) docActions
  then update
  else
    h ← haveRules;
    if negb h then ret tt
    else if existsb isSchemaAction docActions then update else ret tt.

Definition finishedBundle : M unit :=
  g ← getThis;
  match _activeBundle g with
  | None => ret tt
  | Some bundle =>
      (if applied bundle then _updateRules (docActions bundle) else ret tt);;
      modifyThis (set_steps None);;
      modifyThis (set_prevUserAttributesMap None);;
      modifyThis (set_activeBundle None)
  end.

(** ** GranularAccess: the steps of the active bundle *)

Definition _getUncachedSteps : M (list ActionStep) :=
  g ← getThis;
  match _activeBundle g with
  | None => throw (PlainError "no active bundle")
  | Some bundle =>
      mkM (fun w =>
        let '(res, (rs, n)) := buildSteps ext (this w) bundle (rulers w) (nextRuler w) in
        (res, setRulers rs n w))
  end.

(** The promise is stored before it settles, and stays stored when it
    rejects. *)
Definition _getSteps : M (list ActionStep) :=
  g ← getThis;
  match _steps g with
  | Some settled => liftResult settled
  | None =>
      mkM (fun w =>
        let '(res, w') := _getUncachedSteps w in
        (res, setThis (set_steps (Some res) (this w')) w'))
  end.

(** A pointer to a particular step within a bundle for a particular session. *)
Record ActionCursor := mkCursor {
  action : ActionRef;
  cursorSession : OptDocSession;
  actionIdx : option nat;
}.

(** [steps[cursor.actionIdx]], which is [undefined] past the end. *)
Definition _getStep (cursor : ActionCursor) : M (option ActionStep) :=
  match actionIdx cursor with
  | None => throw (PlainError "No step available")
  | Some idx => steps ← _getSteps; ret (steps !! idx)
  end.

(** Reading a property of the step. *)
Definition stepOrTypeError (s : option ActionStep) : M ActionStep :=
  match s with
  | Some step => ret step
  | None => throw (TypeError "Cannot read properties of undefined")
  end.

Definition _getRuler (cursor : ActionCursor) : M RulerRef :=
  g ← getThis;
  match actionIdx cursor with
  | None => ret (_ruler g)
  | Some _ =>
      if negb (isSome (_steps g)) then throw (PlainError "No steps available")
      else
        s ← _getStep cursor;
        step ← stepOrTypeError s;
        ret (default (_ruler g) (step_ruler step))
  end.

Definition _getStepAccess (cursor : ActionCursor) : M PermissionInfo :=
  s ← _getStep cursor;
  step ← stepOrTypeError s;
  match step_ruler step with
  | Some r => Ruler_getAccess r (cursorSession cursor)
  | None => _getAccess (cursorSession cursor)  (* No rule changes! *)
  end.

(** ** Stripping rows and columns *)

(** [arr[i] = v], which extends the array when [i] is past its end. *)
Fixpoint arraySet (xs : list CellValue) (i : nat) (v : CellValue) : list CellValue :=
  match i, xs with
  | O, [] => [v]
  | O, _ :: rest => v :: rest
  | S i', [] => CUndefined :: arraySet [] i' v
  | S i', x :: rest => x :: arraySet rest i' v
  end.

(** [colValues[colId][idx] = v] on a bulk column object. *)
Definition bulkSet (o : BulkColValues) (colId : string) (idx : nat) (v : CellValue)
  : BulkColValues :=
  map (fun kv => if String.eqb (fst kv) colId
                 then (fst kv, arraySet (snd kv) idx v) else kv) o.

(** [Object.keys(a[3])] of a cell-carrying action; [None] when the action
    has no column values. *)
Definition actionColIds (a : DocAction) : option (list string) :=
  match a with
  | AddRecord _ _ cv | UpdateRecord _ _ cv => Some (objKeys cv)
  | BulkAddRecord _ _ cv | BulkUpdateRecord _ _ cv
  | ReplaceTableData _ _ cv | TableData _ _ cv => Some (objKeys cv)
  | _ => None
  end.

(** Removes the toRemove rows (indexes, not row ids) from the rowIds list
    and from the colValues structure. *)
Definition _removeRowsAt (toRemove : list nat) (rowIds : list Z)
    (colValues : option BulkColValues) : list Z * option BulkColValues :=
  if (0 <? length toRemove)%nat
  then (pruneArray rowIds toRemove,
        (fun cv => map (fun kv => (fst kv, pruneArray (snd kv) toRemove)) cv) <$> colValues)
  else (rowIds, colValues).

(** Remove columns from a ColumnValues parameter of certain DocActions,
    using a predicate for which columns to keep.  Will retain manualSort
    columns regardless of wildcards.  The predicate may throw. *)
Fixpoint _filterColumns {V} (data : Obj V) (shouldInclude : string -> Result bool)
  : Result (Obj V) :=
  match data with
  | [] => Ok []
  | (colId, v) :: rest =>
      if String.eqb colId "manualSort"
      then match _filterColumns rest shouldInclude with
           | Ok rest' => Ok ((colId, v) :: rest')
           | Throw e => Throw e
           end
      else match shouldInclude colId with
           | Throw e => Throw e
           | Ok keep =>
               match _filterColumns rest shouldInclude with
               | Ok rest' => Ok (if keep then (colId, v) :: rest' else rest')
               | Throw e => Throw e
               end
           end
  end.

(** [_filterColumns(a[3], shouldInclude)] on a cell-carrying action. *)
Definition filterActionColumns (a : DocAction) (shouldInclude : string -> Result bool)
  : Result DocAction :=
  let bulk (mk : BulkColValues -> DocAction) (cv : BulkColValues) :=
    match _filterColumns cv shouldInclude with
    | Ok cv' => Ok (mk cv') | Throw e => Throw e end in
  let single (mk : ColValues -> DocAction) (cv : ColValues) :=
    match _filterColumns cv shouldInclude with
    | Ok cv' => Ok (mk cv') | Throw e => Throw e end in
  match a with
  | AddRecord t id cv => single (AddRecord t id) cv
  | UpdateRecord t id cv => single (UpdateRecord t id) cv
  | BulkAddRecord t ids cv => bulk (BulkAddRecord t ids) cv
  | BulkUpdateRecord t ids cv => bulk (BulkUpdateRecord t ids) cv
  | ReplaceTableData t ids cv => bulk (ReplaceTableData t ids) cv
  | TableData t ids cv => bulk (TableData t ids) cv
  | _ => Ok a
  end.

(** The outcome of [_removeRows] on the value of an action: the action
    itself is returned untouched, or [null], or the action was copied, the
    copy stripped, and the copy is returned unless it ended up empty. *)
Inductive RowsRemoved :=
| SameAction
| NoAction
| CopiedAction (copy : DocAction) (returned : bool).

Definition maskOf (oldIds : list Z) (rowIds : list Z) : list nat :=
  omap id (imap (fun idx id => if idsHas rowIds id then Some idx else None) oldIds).

Definition removeRowsValue (a : DocAction) (rowIds : list Z) : RowsRemoved :=
  if isSchemaAction a then SameAction
  else
    let bulk (mk : list Z -> option BulkColValues -> DocAction)
             (oldIds : list Z) (bulkColValues : option BulkColValues) :=
      let mask := maskOf oldIds rowIds in
      let '(ids', cv') := _removeRowsAt mask oldIds bulkColValues in
      CopiedAction (mk ids' cv') (negb (length ids' =? 0)%nat) in
    match a with
    | AddRecord _ id _ | UpdateRecord _ id _ | RemoveRecord _ id =>
        if idsHas rowIds id then NoAction else SameAction
    | BulkAddRecord t ids cv =>
        bulk (fun i c => BulkAddRecord t i (default [] c)) ids (Some cv)
    | BulkUpdateRecord t ids cv =>
        bulk (fun i c => BulkUpdateRecord t i (default [] c)) ids (Some cv)
    | ReplaceTableData t ids cv =>
        bulk (fun i c => ReplaceTableData t i (default [] c)) ids (Some cv)
    | TableData t ids cv =>
        bulk (fun i c => TableData t i (default [] c)) ids (Some cv)
    | BulkRemoveRecord t ids =>
        bulk (fun i _ => BulkRemoveRecord t i) ids None
    | _ => SameAction
    end.

(** Remove a set of rows from a DocAction.  If the DocAction ends up empty,
    null is returned.  If the DocAction needs modification, it is copied
    first. *)
Definition _removeRows (a : ActionRef) (rowIds : list Z) : M (option ActionRef) :=
  v ← readAction a;
  match removeRowsValue v rowIds with
  | SameAction => ret (Some a)
  | NoAction => ret None
  | CopiedAction copy returned =>
      na ← cloneDeep a;
      writeAction na copy;;
      ret (if returned then Some na else None)
  end.

(** Make a BulkAddRecord for a set of rows.  [data] is a snapshot of a
    step; the copy that [_removeRows] makes of it is only read from. *)
Definition _makeAdditions (data : TableDataAction) (rowIds : list Z) : M (option ActionRef) :=
  if (length rowIds =? 0)%nat then ret None
  else
    let notAdded := List.filter (fun id => negb (idsHas rowIds id)) (td_rowIds data) in
    match removeRowsValue (tableDataToAction data) (newSet notAdded) with
    | CopiedAction (TableData t ids cv) true =>
        na ← allocAction (BulkAddRecord t ids cv); ret (Some na)
    | _ => ret None
    end.

(** Make a BulkRemoveRecord for a set of rows. *)
Definition _makeRemovals (data : TableDataAction) (rowIds : list Z) : M (option ActionRef) :=
  if (length rowIds =? 0)%nat then ret None
  else na ← allocAction (BulkRemoveRecord (td_tableId data) rowIds); ret (Some na).

Definition isCellAction (name : string) : bool :=
  setHas ["AddRecord"; "BulkAddRecord"; "UpdateRecord"; "BulkUpdateRecord";
          "ReplaceTableData"; "TableData"] name.

Definition isColumnAction (name : string) : bool :=
  setHas ["AddColumn"; "RemoveColumn"; "RenameColumn"; "ModifyColumn"] name.

(** [a[2]] of a column-schema action. *)
Definition actionColId (a : DocAction) : string :=
  match a with
  | AddColumn _ c _ | RemoveColumn _ c | RenameColumn _ c _ | ModifyColumn _ c _ => c
  | _ => ""
  end.

(** Strip out any denied columns from an action.  Returns null if nothing is
    left.  accessCheck may throw if denials are fatal. *)
Definition _pruneColumns (a : ActionRef) (permInfo : PermissionInfo) (tableId : string)
    (accessCheck : AccessCheck) : M (option ActionRef) :=
  v ← readAction a;
  let name := actionName v in
  let columnDenied (colId : string) : Result bool :=
    match AccessCheck_get accessCheck (PermissionInfo_getColumnAccess permInfo tableId colId) with
    | Ok r => Ok (bool_decide (r = deny))
    | Throw e => Throw e
    end in
  if String.eqb name "RemoveRecord" || String.eqb name "BulkRemoveRecord" then ret (Some a)
  else if isCellAction name then
    na ← cloneDeep a;
    nv ← readAction na;
    nv' ← liftResult (filterActionColumns nv
                        (fun colId => match columnDenied colId with
                                      | Ok d => Ok (negb d) | Throw e => Throw e end));
    writeAction na nv';;
    if (length (default [] (actionColIds nv')) =? 0)%nat then ret None else ret (Some na)
  else if isColumnAction name then
    denied ← liftResult (columnDenied (actionColId v));
    if (denied : bool) then ret None else ret (Some a)
  else
    (* Remaining cases of AddTable, RemoveTable, RenameTable should have
       been handled at the table level. *)
    ret (Some a).

(** ** Scrubbing rows and cells *)

(** The table handed to [_filterRowsAndCells] as [rowsBefore] or
    [rowsAfter]: either the very object that is the cursor's action
    ([filterData] passes its data three times), or a snapshot of a step. *)
Inductive TableArg :=
| TheAction
| Snap (d : TableDataAction).

(** An action of the TableData shape read as a table. *)
Definition actionAsTable (v : DocAction) : TableDataAction :=
  match v with
  | BulkAddRecord t ids cv | BulkUpdateRecord t ids cv
  | ReplaceTableData t ids cv | TableData t ids cv =>
      {| td_tableId := t; td_rowIds := ids; td_columns := cv |}
  | _ => {| td_tableId := getTableId v; td_rowIds := getRowIdsFromDocAction v;
            td_columns := [] |}
  end.

Definition tableOf (arg : TableArg) (v : DocAction) : TableDataAction :=
  match arg with TheAction => actionAsTable v | Snap d => d end.

(** [new Map(ids.map((rowId, idx) => [rowId, idx])).get(x)], the indices
    counted from [i]: a later row with the same id wins. *)
Fixpoint indexMapGet (ids : list Z) (i : nat) (x : Z) : option nat :=
  match ids with
  | [] => None
  | y :: rest =>
      match indexMapGet rest (S i) x with
      | Some j => Some j
      | None => if Z.eqb y x then Some i else None
      end
  end.

(** [censorAt(colId, idx)]: a no-op without column values, a bulk write
    when [action[2]] is an array, a write of the single value otherwise. *)
Definition censorAt (v : DocAction) (colId : string) (idx : nat) : DocAction :=
  match v with
  | AddRecord t id cv => AddRecord t id (objSet cv colId (CStr "CENSORED"))
  | UpdateRecord t id cv => UpdateRecord t id (objSet cv colId (CStr "CENSORED"))
  | BulkAddRecord t ids cv => BulkAddRecord t ids (bulkSet cv colId idx (CStr "CENSORED"))
  | BulkUpdateRecord t ids cv => BulkUpdateRecord t ids (bulkSet cv colId idx (CStr "CENSORED"))
  | ReplaceTableData t ids cv => ReplaceTableData t ids (bulkSet cv colId idx (CStr "CENSORED"))
  | TableData t ids cv => TableData t ids (bulkSet cv colId idx (CStr "CENSORED"))
  | _ => v
  end.

(** The column loop of one row: censor the cells whose column is denied. *)
Fixpoint censorColumns (rc : ACLRuleCollection) (input : DocAction -> AclMatchInput)
    (accessCheck : AccessCheck) (tableId : string) (idx : nat)
    (colIds : list string) (v : DocAction) : Result DocAction :=
  match colIds with
  | [] => Ok v
  | colId :: rest =>
      match AccessCheck_get accessCheck (rc_columnAccess rc (input v) tableId colId) with
      | Throw e => Throw e
      | Ok colAccess =>
          censorColumns rc input accessCheck tableId idx rest
            (if bool_decide (colAccess = deny) then censorAt v colId idx else v)
      end
  end.

(** The row loop: the indices to remove and the action with its censored
    cells. *)
Fixpoint censorRows (rc : ACLRuleCollection) (u : UserInfo) (accessCheck : AccessCheck)
    (rowsBefore rowsAfter : TableArg) (tableId : string) (rowIds : list Z)
    (idxs : list nat) (toRemove : list nat) (v : DocAction)
  : Result (list nat * DocAction) :=
  match idxs with
  | [] => Ok (toRemove, v)
  | idx :: rest =>
      let getIndex (t : TableArg) : option nat :=
        match rowsBefore with
        | TheAction => Some idx
        | Snap _ =>
            match rowIds !! idx with
            | Some id => indexMapGet (td_rowIds (tableOf t v)) 0 id
            | None => None
            end
        end in
      let input (cur : DocAction) : AclMatchInput :=
        {| user := u;
           rec := Some (RecordView (tableOf rowsBefore cur) (getIndex rowsBefore));
           newRec := Some (RecordView (tableOf rowsAfter cur) (getIndex rowsAfter)) |} in
      (* getTableAccess() evaluates all column rules for THIS record. *)
      match AccessCheck_get accessCheck (rc_tableAccess rc (input v) tableId) with
      | Throw e => Throw e
      | Ok acc =>
          if bool_decide (acc = deny)
          then censorRows rc u accessCheck rowsBefore rowsAfter tableId rowIds rest
                 (toRemove ++ [idx]) v
          else if negb (bool_decide (acc = allow)) then
            match actionColIds v with
            | Some colIds =>
                match censorColumns rc input accessCheck tableId idx colIds v with
                | Throw e => Throw e
                | Ok v' => censorRows rc u accessCheck rowsBefore rowsAfter tableId rowIds
                             rest toRemove v'
                end
            | None => censorRows rc u accessCheck rowsBefore rowsAfter tableId rowIds
                        rest toRemove v
            end
          else censorRows rc u accessCheck rowsBefore rowsAfter tableId rowIds
                 rest toRemove v
      end
  end.

(** [_removeRowsAt(toRemove, a[2], a[3])] on an action of the TableData
    shape. *)
Definition removeRowsAtAction (toRemove : list nat) (v : DocAction) : DocAction :=
  let strip (ids : list Z) (cv : BulkColValues) :=
    let '(ids', cv') := _removeRowsAt toRemove ids (Some cv) in (ids', default [] cv') in
  match v with
  | BulkAddRecord t ids cv => let '(i, c) := strip ids cv in BulkAddRecord t i c
  | BulkUpdateRecord t ids cv => let '(i, c) := strip ids cv in BulkUpdateRecord t i c
  | ReplaceTableData t ids cv => let '(i, c) := strip ids cv in ReplaceTableData t i c
  | TableData t ids cv => let '(i, c) := strip ids cv in TableData t i c
  | BulkRemoveRecord t ids => BulkRemoveRecord t (fst (_removeRowsAt toRemove ids None))
  | _ => v
  end.

(** Modify action in place, scrubbing any rows and cells to which access is
    not granted. *)
Definition _filterRowsAndCells (cursor : ActionCursor) (rowsBefore rowsAfter : TableArg)
    (accessCheck : AccessCheck) : M unit :=
  ruler ← _getRuler cursor;
  v ← readAction (action cursor);
  if isSchemaAction v then ret tt
  else
    u ← _getUser (cursorSession cursor);
    rl ← readRuler ruler;
    let tableId := getTableId v in
    let rowIds := getRowIdsFromDocAction v in
    loop ← liftResult (censorRows (ruleCollection rl) u accessCheck rowsBefore rowsAfter
                         tableId rowIds (seq 0 (length rowIds)) [] v);
    let '(toRemove, v') := loop in
    writeAction (action cursor) v';;
    if (0 <? length toRemove)%nat then
      match rowsBefore with
      | TheAction => writeAction (action cursor) (removeRowsAtAction toRemove v')
      | Snap _ =>
          (* Artificially introduced removals are ok, otherwise this is suspect. *)
          if negb (String.eqb (actionName v) "RemoveRecord")
             && negb (String.eqb (actionName v) "BulkRemoveRecord")
          then throw (PlainError "Unexpected row removal")
          else ret tt
      end
    else ret tt.

(** The rows of [data], among [ids], that the session may not read. *)
Fixpoint forbiddenRows (rc : ACLRuleCollection) (u : UserInfo) (data : TableDataAction)
    (ids : list Z) (idx : nat) (rowIds : list Z) : list Z :=
  match rowIds with
  | [] => []
  | rowId :: rest =>
      let tail := forbiddenRows rc u data ids (S idx) rest in
      if negb (idsHas ids rowId) then tail
      else
        let input := {| user := u; rec := Some (RecordView data (Some idx)); newRec := None |} in
        let rowAccess := rc_tableAccess rc input (td_tableId data) in
        if bool_decide (getReadPermission rowAccess = deny) then rowId :: tail else tail
  end.

(** Compute which of the row ids supplied are for rows forbidden for this
    session. *)
Definition _getForbiddenRows (cursor : ActionCursor) (data : TableDataAction)
    (ids : list Z) : M (list Z) :=
  ruler ← _getRuler cursor;
  u ← _getUser (cursorSession cursor);
  rl ← readRuler ruler;
  ret (forbiddenRows (ruleCollection rl) u data ids 0 (td_rowIds data)).

Definition _getRowsBeforeAndAfter (cursor : ActionCursor)
  : M (TableDataAction * TableDataAction) :=
  s ← _getStep cursor;
  step ← stepOrTypeError s;
  match rowsBefore step, rowsAfter step with
  | Some before, Some after => ret (before, after)
  | _, _ => throw (PlainError "Logic error: no rows available")
  end.

(** ** Row pruning *)

Record RowPlan := mkPlan {
  removals : list Z;      (* rows to remove from current action. *)
  forceAdds : list Z;     (* rows to add, that were previously stripped. *)
  forceRemoves : list Z;  (* rows to remove, that have become forbidden. *)
}.

Definition isAddLike (name : string) : bool :=
  String.eqb name "AddRecord" || String.eqb name "BulkAddRecord"
  || String.eqb name "ReplaceTableData" || String.eqb name "TableData".

Definition isUpdate (name : string) : bool :=
  String.eqb name "UpdateRecord" || String.eqb name "BulkUpdateRecord".

Definition isRemove (name : string) : bool :=
  String.eqb name "RemoveRecord" || String.eqb name "BulkRemoveRecord".

(** The body of the loop over the ids of the action in [_pruneRows]. *)
Definition planRow (name : string) (forbiddenBefores forbiddenAfters : list Z)
    (p : RowPlan) (id : Z) : RowPlan :=
  let forbiddenBefore := idsHas forbiddenBefores id in
  let forbiddenAfter := idsHas forbiddenAfters id in
  let strip (q : RowPlan) :=
    {| removals := setAdd (removals q) id; forceAdds := forceAdds q;
       forceRemoves := forceRemoves q |} in
  if negb forbiddenBefore && negb forbiddenAfter then p
  else if forbiddenBefore && forbiddenAfter then strip p
  else if forbiddenBefore then
    (* The row was forbidden and now is allowed. *)
    if isAddLike name then p
    else
      let q := strip p in
      if isUpdate name
      then {| removals := removals q; forceAdds := setAdd (forceAdds q) id;
              forceRemoves := forceRemoves q |}
      else q  (* Remaining cases are [Bulk]RemoveRecord. *)
  else
    (* The row was allowed and now is forbidden. *)
    if isRemove name then p
    else
      let q := strip p in
      if isUpdate name
      then {| removals := removals q; forceAdds := forceAdds q;
              forceRemoves := setAdd (forceRemoves q) id |}
      else q.  (* Remaining cases are add-like actions. *)

Definition planRows (name : string) (forbiddenBefores forbiddenAfters ids : list Z) : RowPlan :=
  fold_left (planRow name forbiddenBefores forbiddenAfters) ids
            {| removals := []; forceAdds := []; forceRemoves := [] |}.

Definition withAction (cursor : ActionCursor) (a : ActionRef) : ActionCursor :=
  {| action := a; cursorSession := cursorSession cursor; actionIdx := actionIdx cursor |}.

(** Strip out any denied rows from an action.  The action may be rewritten
    if rows become allowed or denied during the action.  The result is a
    list rather than a single action.  It may be the empty list. *)
Definition _pruneRows (cursor : ActionCursor) : M (list ActionRef) :=
  v ← readAction (action cursor);
  (* This only deals with Record-related actions. *)
  if negb (isDataAction v) then ret [action cursor]
  else
    rows ← _getRowsBeforeAndAfter cursor;
    let '(rowsBefore, rowsAfter) := rows in
    let ids := newSet (getRowIdsFromDocAction v) in
    fb ← _getForbiddenRows cursor rowsBefore ids;
    let forbiddenBefores := newSet fb in
    fa ← _getForbiddenRows cursor rowsAfter ids;
    let forbiddenAfters := newSet fa in
    let plan := planRows (actionName v) forbiddenBefores forbiddenAfters ids in
    (* Execute our cunning plans for DocAction revisions. *)
    additions ← _makeAdditions rowsAfter (forceAdds plan);
    pruned ← _removeRows (action cursor) (removals plan);
    removed ← _makeRemovals rowsAfter (forceRemoves plan);
    let revisedDocActions := filterIsObject [additions; pruned; removed] in
    (* Return the results, also applying any cell-level access control. *)
    forEach revisedDocActions tt
      (fun _ a => _filterRowsAndCells (withAction cursor a) (Snap rowsAfter) (Snap rowsAfter)
                    readAccessCheck);;
    ret revisedDocActions.

(** ** CensorshipInfo: censoring metadata *)

Record CensorshipInfo := mkCensorshipInfo {
  censoredTables : list Z;
  censoredSections : list Z;
  censoredViews : list Z;
  censoredColumns : list Z;
  censoredFields : list Z;
  _canViewACLs : bool;
}.

(** [this.censored[tableId]], defined for five of the structural tables. *)
Definition censored (c : CensorshipInfo) (tableId : string) : option (list Z) :=
  if String.eqb tableId "_grist_Tables" then Some (censoredTables c)
  else if String.eqb tableId "_grist_Tables_column" then Some (censoredColumns c)
  else if String.eqb tableId "_grist_Views" then Some (censoredViews c)
  else if String.eqb tableId "_grist_Views_section" then Some (censoredSections c)
  else if String.eqb tableId "_grist_Views_section_field" then Some (censoredFields c)
  else None.

(** [rec.get(colId) as string] and [as number] on well-typed metadata. *)
Definition cellString (c : CellValue) : string :=
  match c with CStr s => s | _ => "" end.

(** [set.has(rec.get(colId) as number)]. *)
Definition cellIn (s : list Z) (c : CellValue) : bool :=
  match c with CNum z => idsHas s z | _ => false end.

(** [tables[tableId]]; reading a missing table is a TypeError. *)
Definition metaTable (tables : gmap string TableDataAction) (tableId : string)
  : Result TableDataAction :=
  match tables !! tableId with
  | Some d => Ok d
  | None => Throw (TypeError "Cannot read properties of undefined")
  end.

Definition rowView (d : TableDataAction) (idx : nat) : InfoView :=
  RecordView d (Some idx).

Definition rowIndices (d : TableDataAction) : list (nat * Z) :=
  imap (fun idx id => (idx, id)) (td_rowIds d).

(** [map.get(key)] of a Map filled by [set] calls, the latest first. *)
Fixpoint refGet (m : list (Z * string)) (c : CellValue) : option string :=
  match m, c with
  | (k, v) :: rest, CNum z => if Z.eqb k z then Some v else refGet rest c
  | _, _ => None
  end.

(** The column codes ["<tableRef> <colId>"], kept as pairs. *)
Definition codeIn (codes : list (CellValue * string)) (tableRef : CellValue) (colId : string) : bool :=
  existsb (fun code => bool_decide (fst code = tableRef) && String.eqb (snd code) colId) codes.

(** The second scan of the constructor: the codes of the forbidden columns.
    It throws when a column's table is unknown. *)
Fixpoint scanColumnCodes (permInfo : PermissionInfo) (columns : TableDataAction)
    (censoredTables uncensoredTables : list Z) (tableRefToTableId : list (Z * string))
    (rows : list (nat * Z)) (codes : list (CellValue * string))
  : Result (list (CellValue * string)) :=
  match rows with
  | [] => Ok codes
  | (idx, _) :: rest =>
      let r := rowView columns idx in
      let tableRef := InfoView_get r "parentId" in
      if cellIn uncensoredTables tableRef
      then scanColumnCodes permInfo columns censoredTables uncensoredTables
             tableRefToTableId rest codes
      else
        match refGet tableRefToTableId tableRef ≫= truthyString with
        | None => Throw (PlainError "table not found")
        | Some tableId =>
            let colId := cellString (InfoView_get r "colId") in
            if cellIn censoredTables tableRef
               || (negb (String.eqb colId "manualSort")
                   && bool_decide (perm_read (perms (PermissionInfo_getColumnAccess
                                                       permInfo tableId colId)) = deny))
            then scanColumnCodes permInfo columns censoredTables uncensoredTables
                   tableRefToTableId rest (codes ++ [(tableRef, colId)])
            else scanColumnCodes permInfo columns censoredTables uncensoredTables
                   tableRefToTableId rest codes
        end
  end.

Definition numberOf (c : CellValue) : option Z :=
  match c with CNum z => truthyZ z | _ => None end.

(** [new CensorshipInfo(permInfo, ruleCollection, tables, canViewACLs)] *)
Definition newCensorshipInfo (permInfo : PermissionInfo) (rules : ACLRuleCollection)
    (tables : gmap string TableDataAction) (canViewACLs : bool) : Result CensorshipInfo :=
  match metaTable tables "_grist_Tables" with
  | Throw e => Throw e
  | Ok tTables =>
  (* Scan for forbidden tables. *)
  let '(tableRefToTableId, cTables, uTables) :=
    fold_left
      (fun (st : list (Z * string) * list Z * list Z) (row : nat * Z) =>
         let '(refs, cens, uncens) := st in
         let tableId := cellString (InfoView_get (rowView tTables (fst row)) "tableId") in
         let tableRef := snd row in
         let tableAccess := PermissionInfo_getTableAccess permInfo tableId in
         let refs' := (tableRef, tableId) :: refs in
         if bool_decide (perm_read (perms tableAccess) = deny)
         then (refs', setAdd cens tableRef, uncens)
         else if bool_decide (perm_read (perms tableAccess) = allow)
         then (refs', cens, setAdd uncens tableRef)
         else (refs', cens, uncens))
      (rowIndices tTables) ([], [], []) in
  match metaTable tables "_grist_Tables_column" with
  | Throw e => Throw e
  | Ok tColumns =>
  (* Scan for forbidden columns. *)
  match scanColumnCodes permInfo tColumns cTables uTables tableRefToTableId
          (rowIndices tColumns) [] with
  | Throw e => Throw e
  | Ok censoredColumnCodes =>
  match metaTable tables "_grist_Views_section" with
  | Throw e => Throw e
  | Ok tSections =>
  (* Collect a list of all sections and views containing a table to which
     the user has no access. *)
  let '(cViews, cSections) :=
    fold_left
      (fun (st : list Z * list Z) (row : nat * Z) =>
         let '(views, sections) := st in
         let r := rowView tSections (fst row) in
         if negb (cellIn cTables (InfoView_get r "tableRef")) then st
         else
           (match numberOf (InfoView_get r "parentId") with
            | Some parentId => setAdd views parentId
            | None => views
            end,
            setAdd sections (snd row)))
      (rowIndices tSections) ([], []) in
  (* Collect a list of all columns from tables to which the user has no access. *)
  let cColumns :=
    fold_left
      (fun (cols : list Z) (row : nat * Z) =>
         let r := rowView tColumns (fst row) in
         let parentId := InfoView_get r "parentId" in
         if cellIn cTables parentId
            || codeIn censoredColumnCodes parentId (cellString (InfoView_get r "colId"))
         then setAdd cols (snd row) else cols)
      (rowIndices tColumns) [] in
  match metaTable tables "_grist_Views_section_field" with
  | Throw e => Throw e
  | Ok tFields =>
  (* Collect a list of all fields from sections to which the user has no access. *)
  let cFields :=
    fold_left
      (fun (fields : list Z) (row : nat * Z) =>
         let r := rowView tFields (fst row) in
         if negb (cellIn cSections (InfoView_get r "parentId"))
            && negb (cellIn cColumns (InfoView_get r "colRef"))
         then fields else setAdd fields (snd row))
      (rowIndices tFields) [] in
  Ok {| censoredTables := cTables; censoredSections := cSections;
        censoredViews := cViews; censoredColumns := cColumns;
        censoredFields := cFields; _canViewACLs := canViewACLs |}
  end end end end end.

(** [RecordEditor.set(colId, val)] with the editor's index at [index]: a
    read-write view of a DataAction, for use in censorship. *)
Definition RecordEditor_set (optional : bool) (index : nat) (a : DocAction)
    (colId : string) (val : CellValue) : Result DocAction :=
  if String.eqb colId "id" then Throw (PlainError "cannot change id")
  else
    let single (mk : ColValues -> DocAction) (cv : ColValues) :=
      if optional && negb (objHas cv colId) then Ok a
      else Ok (mk (objSet cv colId val)) in
    let bulk (mk : BulkColValues -> DocAction) (cv : BulkColValues) :=
      if optional && negb (objHas cv colId) then Ok a
      else if objHas cv colId then Ok (mk (bulkSet cv colId index val))
      else Throw (TypeError "Cannot set properties of undefined") in
    match a with
    | AddRecord t id cv => single (AddRecord t id) cv
    | UpdateRecord t id cv => single (UpdateRecord t id) cv
    | BulkAddRecord t ids cv => bulk (BulkAddRecord t ids) cv
    | BulkUpdateRecord t ids cv => bulk (BulkUpdateRecord t ids) cv
    | ReplaceTableData t ids cv => bulk (ReplaceTableData t ids) cv
    | TableData t ids cv => bulk (TableData t ids) cv
    | _ =>
        (* [data[3] || {}]: the writes land in a throw-away object. *)
        Ok a
    end.

(** The chain of [set] calls of the censor method of a table. *)
Definition getCensorMethod (tableId : string) : Result (list (string * CellValue)) :=
  if String.eqb tableId "_grist_Tables" then Ok [("tableId", CStr "")]
  else if String.eqb tableId "_grist_Views" then Ok [("name", CStr "")]
  else if String.eqb tableId "_grist_Views_section"
  then Ok [("title", CStr ""); ("tableRef", CNum 0)]
  else if String.eqb tableId "_grist_Tables_column"
  then Ok [("label", CStr ""); ("colId", CStr ""); ("widgetOptions", CStr "");
           ("formula", CStr ""); ("type", CStr "Any"); ("parentId", CNum 0)]
  else if String.eqb tableId "_grist_Views_section_field"
  then Ok [("widgetOptions", CStr ""); ("filter", CStr ""); ("parentId", CNum 0)]
  else if String.eqb tableId "_grist_ACLResources" then Ok []
  else if String.eqb tableId "_grist_ACLRules" then Ok []
  else Throw (PlainError ("cannot censor " ++ tableId)).

Fixpoint runCensorMethod (sets : list (string * CellValue)) (index : nat) (a : DocAction)
  : Result DocAction :=
  match sets with
  | [] => Ok a
  | (colId, val) :: rest =>
      match RecordEditor_set true index a colId val with
      | Ok a' => runCensorMethod rest index a'
      | Throw e => Throw e
      end
  end.

Fixpoint censorEntries (sets : list (string * CellValue)) (censoredRows : list Z)
    (entries : list (nat * Z)) (a : DocAction) : Result DocAction :=
  match entries with
  | [] => Ok a
  | (index, id) :: rest =>
      if idsHas censoredRows id
      then match runCensorMethod sets index a with
           | Ok a' => censorEntries sets censoredRows rest a'
           | Throw e => Throw e
           end
      else censorEntries sets censoredRows rest a
  end.

(** [censor.apply(a)]: the returned flag, and [a] as the call leaves it. *)
Definition CensorshipInfo_apply (c : CensorshipInfo) (a : DocAction) : Result (bool * DocAction) :=
  let tableId := getTableId a in
  let ids := getRowIdsFromDocAction a in
  if negb (setHas STRUCTURAL_TABLES tableId) then Ok (true, a)
  else match censored c tableId with
       | None =>
           Ok (_canViewACLs c,
               if negb (_canViewACLs c) && String.eqb (actionName a) "TableData"
               then TableData tableId [] []
               else a)
       | Some censoredRows =>
           match getCensorMethod tableId with
           | Throw e => Throw e
           | Ok method =>
               match censorEntries method censoredRows (imap (fun i id => (i, id)) ids) a with
               | Ok a' => Ok (true, a')
               | Throw e => Throw e
               end
           end
       end.

(** ** Filtering outgoing doc actions *)

Definition needReload (message : string) : Error := ErrorWithCode "NEED_RELOAD" message.

(** [table[2].indexOf(v)] *)
Fixpoint indexOf (ids : list Z) (v : Z) (i : nat) : option nat :=
  match ids with
  | [] => None
  | y :: rest => if Z.eqb y v then Some i else indexOf rest v (S i)
  end.

(** [if (censor.apply(act)) { results.push(act); }]: the apply call works
    on [act] in place; the list is what gets pushed. *)
Definition applyAndPush (censor : CensorshipInfo) (act : ActionRef) : M (list ActionRef) :=
  v ← readAction act;
  res ← liftResult (CensorshipInfo_apply censor v);
  let flag : bool := fst res in
  writeAction act (snd res);;
  ret (if flag then [act] else []).

Definition _filterOutgoingStructuralTables (cursor : ActionCursor) (act : ActionRef)
  : M (list ActionRef) :=
  (* Filter out sensitive columns from tables. *)
  permissionInfo ← _getStepAccess cursor;
  s ← _getStep cursor;
  step ← stepOrTypeError s;
  match metaAfter step with
  | None => throw (PlainError "missing metadata")
  | Some after =>
      act' ← cloneDeep act;  (* Don't change original action. *)
      ruler ← _getRuler cursor;
      canViewACLs ← hasAccessRulesPermission (cursorSession cursor);
      rl ← readRuler ruler;
      censor ← liftResult (newCensorshipInfo permissionInfo (ruleCollection rl) after canViewACLs);
      results ← applyAndPush censor act';
      (* If we just added or removed a section, we need to reconsider
         whether the view containing it is visible. *)
      v' ← readAction act';
      if String.eqb (getTableId v') "_grist_Views_section" then
        match metaBefore step with
        | None => throw (PlainError "missing prior metadata")
        | Some before =>
            canViewACLs' ← hasAccessRulesPermission (cursorSession cursor);
            rl' ← readRuler ruler;
            censorBefore ← liftResult (newCensorshipInfo permissionInfo (ruleCollection rl')
                                         before canViewACLs');
            (* For all views previously censored, if they are now uncensored,
               add an UpdateRecord to expose them. *)
            exposed ←
              forEach (censoredViews censorBefore) []
                (fun acc v =>
                   if negb (idsHas (censoredViews censor) v) then
                     table ← liftResult (metaTable after "_grist_Views");
                     names ← match objGet (td_columns table) "name" with
                             | Some ns => ret ns
                             | None => throw (TypeError "Cannot read properties of undefined")
                             end;
                     let name := match indexOf (td_rowIds table) v 0 with
                                 | Some idx => arrayAt names idx
                                 | None => CUndefined
                                 end in
                     r ← allocAction (UpdateRecord "_grist_Views" v [("name", name)]);
                     ret (acc ++ [r])%list
                   else ret acc);
            (* For all views currently censored, if they were previously
               uncensored, add an UpdateRecord to censor them. *)
            hidden ←
              forEach (censoredViews censor) []
                (fun acc v =>
                   if negb (idsHas (censoredViews censorBefore) v) then
                     r ← allocAction (UpdateRecord "_grist_Views" v [("name", CStr "")]);
                     ret (acc ++ [r])%list
                   else ret acc);
            ret (results ++ exposed ++ hidden)%list
        end
      else ret results
  end.

(** Tailor the information about a change reported to a given client. *)
Definition _filterOutgoingDocAction (cursor : ActionCursor) : M (list ActionRef) :=
  v ← readAction (action cursor);
  let tableId := getTableId v in
  permInfo ← _getStepAccess cursor;
  let tableAccess := PermissionInfo_getTableAccess permInfo tableId in
  let access := getReadPermission tableAccess in
  results ←
    match access with
    | deny => ret []  (* filter out this data. *)
    | allow => ret [action cursor]
    | mixedColumns =>
        act ← _pruneColumns (action cursor) permInfo tableId readAccessCheck;
        ret (match act with Some a => [a] | None => [] end)
    | mixed =>
        (* The remainder is the mixed condition. *)
        acts ← _pruneRows cursor;
        forEach acts []
          (fun acc act =>
             prunedAct ← _pruneColumns act permInfo tableId readAccessCheck;
             ret (match prunedAct with Some a => (acc ++ [a])%list | None => acc end))
    end;
  forEach results []
    (fun secondPass act =>
       av ← readAction act;
       if setHas STRUCTURAL_TABLES (getTableId av) && isDataAction av
       then pushed ← _filterOutgoingStructuralTables cursor act; ret (secondPass ++ pushed)%list
       else ret (secondPass ++ [act])%list).

(** Check whether user attributes have changed.  If so, prompt client to
    reload the document. *)
Definition _checkUserAttributes (docSession : OptDocSession) : M unit :=
  g ← getThis;
  match _prevUserAttributesMap g with
  | None => ret tt
  | Some prevMap =>
      match prevMap !! sessionKey docSession with
      | None => ret tt
      | Some userAttrBefore =>
          (* Makes sure user attrs have actually been computed. *)
          _getAccess docSession;;
          userAttrAfter ← _getUserAttributes docSession;
          forEach (rows userAttrAfter) tt
            (fun _ entry =>
               let '(tableId, r) := entry in
               match objGet (rows userAttrBefore) tableId with
               | None => throw (needReload "document needs reload, user attributes changed")
               | Some prev =>
                   if negb (String.eqb (jsonStringify ext (InfoView_toJSON prev))
                                       (jsonStringify ext (InfoView_toJSON r)))
                   then throw (needReload "document needs reload, user attributes changed")
                   else ret tt
               end)
      end
  end.

(** Filter DocActions to be sent to a client. *)
Definition filterOutgoingDocActions (docSession : OptDocSession) (docActions : list ActionRef)
  : M (list ActionRef) :=
  g ← getThis;
  (* If the user requested a rule change, trigger a reload. *)
  if match _activeBundle g with
     | Some bundle => hasDeliberateRuleChange bundle
     | None => false
     end
  then throw (needReload "document needs reload, access rules changed")
  else
    (* Optimize case where there are no rules to enforce. *)
    h ← haveRules;
    if negb h then ret docActions
    else
      (* If user attributes have changed, trigger a reload. *)
      _checkUserAttributes docSession;;
      actions ←
        mapM (fun entry : nat * ActionRef =>
                _filterOutgoingDocAction
                  {| cursorSession := docSession; action := snd entry;
                     actionIdx := Some (fst entry) |})
             (imap (fun idx a => (idx, a)) docActions);
      ret (concat actions).

(** ** Action groups and per-client messages *)

(** [ActionSummary] of app/common: only its empty value matters here. *)
Definition ActionSummary : Type := list string.
Definition createEmptyActionSummary : ActionSummary := [].

Record ActionGroup := mkActionGroup {
  actionSummary : ActionSummary;
  desc : string;
  actionNum : Z;
}.

Definition allowActionGroup (docSession : OptDocSession) (actionGroup : ActionGroup) : M bool :=
  canReadEverything docSession.

Definition filterActionGroup (docSession : OptDocSession) (actionGroup : ActionGroup)
  : M ActionGroup :=
  ok ← allowActionGroup docSession actionGroup;
  if (ok : bool) then ret actionGroup
  else ret {| actionSummary := createEmptyActionSummary; desc := "";
              actionNum := actionNum actionGroup |}.

Record DocMessage := mkMessage {
  msg_actionGroup : ActionGroup;
  msg_docActions : list ActionRef;
}.

(** This filters a message being broadcast to all clients to be appropriate
    for one particular client; [None] is [null]. *)
Definition _filterDocUpdate (docSession : OptDocSession) (message : DocMessage)
  : M (option DocMessage) :=
  g ← getThis;
  match _activeBundle g with
  | None => throw (PlainError "no active bundle")
  | Some bundle =>
      h ← haveRules;
      if negb h && negb (hasDeliberateRuleChange bundle) then ret (Some message)
      else
        ag ← filterActionGroup docSession (msg_actionGroup message);
        das ← filterOutgoingDocActions docSession (msg_docActions message);
        if (length das =? 0)%nat then ret None
        else ret (Some {| msg_actionGroup := ag; msg_docActions := das |})
  end.

(** ** Filtering data on the way to a client *)

(** Modify table data in place, removing any rows or columns to which
    access is not granted. *)
Definition filterData (docSession : OptDocSession) (data : ActionRef) : M unit :=
  permInfo ← _getAccess docSession;
  let cursor := {| cursorSession := docSession; action := data; actionIdx := None |} in
  v ← readAction data;
  let tableId := getTableId v in
  (if bool_decide (getReadPermission (PermissionInfo_getTableAccess permInfo tableId) = mixed)
   then _filterRowsAndCells cursor TheAction TheAction readAccessCheck
   else ret tt);;
  (* Filter columns, omitting any to which the user has no access,
     regardless of rows. *)
  v' ← readAction data;
  v'' ← liftResult
          (filterActionColumns v'
             (fun colId => Ok (negb (bool_decide
                (getReadPermission (PermissionInfo_getColumnAccess permInfo tableId colId)
                 = deny)))));
  writeAction data v''.



(** ** GranularAccess: the remaining access queries *)

(** Check whether user can carry out query. *)
Definition hasQueryAccess (docSession : OptDocSession) (query : Query) : M bool :=
  hasTableAccess docSession (q_tableId query).

Definition getUser (docSession : OptDocSession) : M UserInfo :=
  _getUser docSession.

(** An odd little right for findColFromValues and autocomplete.  Allow if
    user can read all data, or is an owner. *)
Definition canScanData (docSession : OptDocSession) : M bool :=
  o ← isOwner docSession;
  if (o : bool) then ret true else canReadEverything docSession.

(** Check whether user can copy everything in document. *)
Definition canCopyEverything (docSession : OptDocSession) : M bool :=
  f ← hasFullCopiesPermission docSession;
  if (f : bool) then ret true else canReadEverything docSession.

Definition getUserOverride (docSession : OptDocSession) : M (option UserOverride) :=
  _getUser docSession;;
  attrs ← _getUserAttributes docSession;
  ret (override attrs).

Definition assertCanRead (ps : PermissionSetWithContext) : Result unit :=
  AccessCheck_throwIfDenied readAccessCheck ps.

(** ** RecordEditor: reading *)

(** [RecordEditor.get(colId)]; [index] is [None] while the editor's index is
    [undefined].  The editor is built on a DataAction; an action of another
    kind has no columns to read. *)
Definition RecordEditor_get (index : option nat) (a : DocAction) (colId : string)
  : Result CellValue :=
  match index with
  | None => Ok CNull
  | Some i =>
      if String.eqb colId "id"
      then Ok (match getRowIdsFromDocAction a !! i with
               | Some id => CNum id
               | None => CUndefined
               end)
      else
        let single (cv : ColValues) := Ok (default CUndefined (objGet cv colId)) in
        let bulk (cv : BulkColValues) :=
          match objGet cv colId with
          | Some vals => Ok (arrayAt vals i)
          | None => Throw (TypeError "Cannot read properties of undefined")
          end in
        match a with
        | AddRecord _ _ cv | UpdateRecord _ _ cv => single cv
        | RemoveRecord _ _ => single []
        | BulkAddRecord _ _ cv | BulkUpdateRecord _ _ cv
        | ReplaceTableData _ _ cv | TableData _ _ cv => bulk cv
        | BulkRemoveRecord _ _ => bulk []
        | _ => single []
        end
  end.

(** ** Checking an incoming bundle *)

(** The loop of [_getRowsForRecAndNewRec]: the last step, from [i] on, whose
    action is on the table of the cursor's step, following its renames. *)
Fixpoint lastStepOnTable (tableId : string) (last i : nat) (rest : list ActionStep) : nat :=
  match rest with
  | [] => last
  | s :: rest' =>
      let act := step_action s in
      if negb (String.eqb (getTableId act) tableId)
      then lastStepOnTable tableId last (S i) rest'
      else match act with
           | RenameTable _ newTableId => lastStepOnTable newTableId last (S i) rest'
           | _ => lastStepOnTable tableId i (S i) rest'
           end
  end.

Definition set_rowsLast (v : option TableDataAction) (s : ActionStep) : ActionStep :=
  {| step_action := step_action s; rowsBefore := rowsBefore s; rowsAfter := rowsAfter s;
     rowsLast := v; metaBefore := metaBefore s; metaAfter := metaAfter s;
     step_ruler := step_ruler s |}.

(** The rows for [rec] and [newRec] when checking an incoming action:
    [newRec] refers to the state at the end of the entire bundle.  The
    answer is cached in the step, which is an element of the array held by
    [this._steps]. *)
Definition _getRowsForRecAndNewRec (cursor : ActionCursor)
  : M (TableDataAction * TableDataAction) :=
  steps ← _getSteps;
  match actionIdx cursor with
  | None => throw (PlainError "No step available")
  | Some idx =>
      step ← stepOrTypeError (steps !! idx);
      match rowsBefore step with
      | None => throw (PlainError "Logic error: no previous rows available")
      | Some before =>
          match rowsLast step with
          | Some last => ret (before, last)
          | None =>
              let last := lastStepOnTable (td_tableId before) idx (S idx) (drop (S idx) steps) in
              let after := (steps !! last) ≫= rowsAfter in
              modifyThis (set_steps (Some (Ok (<[idx := set_rowsLast after step]> steps))));;
              match after with
              | None => throw (PlainError "Logic error: no next rows available")
              | Some rowsAfter => ret (before, rowsAfter)
              end
          end
      end
  end.

(** Like _pruneRows, but fails immediately if access to any row is
    forbidden.  The accessCheck supplied should throw an error on denial. *)
Definition _checkRows (cursor : ActionCursor) (accessCheck : AccessCheck) : M unit :=
  v ← readAction (action cursor);
  (* This check applies to data changes only. *)
  if negb (isDataAction v) then ret tt
  else
    rows ← _getRowsForRecAndNewRec cursor;
    let '(rowsBefore, rowsAfter) := rows in
    _filterRowsAndCells cursor (Snap rowsBefore) (Snap rowsAfter) accessCheck.

Definition _checkIncomingDocAction (cursor : ActionCursor) : M unit :=
  v ← readAction (action cursor);
  let accessCheck := getAccessForActionType (actionName v) (getTableId v) fatal in
  let tableId := getTableId v in
  permInfo ← _getStepAccess cursor;
  let tableAccess := PermissionInfo_getTableAccess permInfo tableId in
  access ← liftResult (AccessCheck_get accessCheck tableAccess);
  if bool_decide (access = allow) then ret tt
  else
    (if bool_decide (access = mixedColumns)
     then
       (* Somewhat abusing prune method by calling it with an access
          function that throws on denial. *)
       _pruneColumns (action cursor) permInfo tableId accessCheck;; ret tt
     else ret tt);;
    (* The remainder is the mixed condition. *)
    _checkRows cursor accessCheck;;
    _pruneColumns (action cursor) permInfo tableId accessCheck;;
    ret tt.

End Engine.

(** ** Applying a bundle *)

(** [err.message] *)
Definition errorMessage (e : Error) : string :=
  match e with
  | ErrorWithCode _ message | ApiError message _ | PlainError message
  | TypeError message => message
  end.

(** What [canApplyBundle] calls outside the file when a bundle changes the
    rules. *)
Record RuleCheckExternals := mkRuleCheck {
  (** [DocData.receiveAction(da)] on the temporary snapshot. *)
  receiveAction : DocData -> DocAction -> Result DocData;
  (** [ruleCollection.checkDocEntities(docData)], which throws when a rule
      names a table or a column that does not exist. *)
  checkDocEntities : ACLRuleCollection -> DocData -> Result unit;
}.

Section Apply.

Context (ext : Externals) (rcx : RuleCheckExternals).

(** [this._docData.getTable(tableId)!.getTableDataAction()] *)
Definition getTableDataAction (docData : DocData) (tableId : string) : Result TableDataAction :=
  match docData !! tableId with
  | Some d => Ok d
  | None => Throw (TypeError "Cannot read properties of undefined")
  end.

Fixpoint receiveActions (docData : DocData) (das : list DocAction) : Result DocData :=
  match das with
  | [] => Ok docData
  | da :: rest =>
      match receiveAction rcx docData da with
      | Ok docData' => receiveActions docData' rest
      | Throw e => Throw e
      end
  end.

(** The last part of [canApplyBundle]: verify that we'll be able to handle
    the changed rules. *)
Definition checkChangedRules (g : GranularAccess) (docActions : list DocAction) : Result unit :=
  match getTableDataAction (_docData g) "_grist_Tables" with
  | Throw e => Throw e
  | Ok tTables =>
  match getTableDataAction (_docData g) "_grist_Tables_column" with
  | Throw e => Throw e
  | Ok tColumns =>
  match getTableDataAction (_docData g) "_grist_ACLResources" with
  | Throw e => Throw e
  | Ok tResources =>
  match getTableDataAction (_docData g) "_grist_ACLRules" with
  | Throw e => Throw e
  | Ok tRules =>
      let tmpDocData : DocData :=
        <["_grist_ACLRules" := tRules]>
          (<["_grist_ACLResources" := tResources]>
             (<["_grist_Tables_column" := tColumns]>
                (<["_grist_Tables" := tTables]> ∅))) in
      match receiveActions tmpDocData docActions with
      | Throw e => Throw e
      | Ok tmpDocData' =>
          (* Use the post-actions data to process the rules collection, and
             throw error if that fails. *)
          let ruleCollection := readAclRules ext tmpDocData' in
          match rc_ruleError ruleCollection with
          | Some e => Throw (ApiError (errorMessage e) 400)
          | None =>
              match checkDocEntities rcx ruleCollection tmpDocData' with
              | Throw err => Throw (ApiError (errorMessage err) 400)
              | Ok _ => Ok tt
              end
          end
      end
  end end end end.

(** Called after UserAction[]s have been applied in the sandbox, and
    DocAction[]s have been computed, but before we have committed those
    DocAction[]s to the database.  [docActionRefs] are the references, in
    the store, of the doc actions of the active bundle. *)
Definition canApplyBundle (docActionRefs : list ActionRef) : M unit :=
  g ← getThis;
  match _activeBundle g with
  | None => throw (PlainError "no active bundle")
  | Some bundle =>
      let docActions := docActions bundle in
      let docSession := docSession bundle in
      denied ←
        (if hasDeliberateRuleChange bundle
         then o ← isOwner ext docSession; ret (negb o)
         else ret false);
      if (denied : bool) then throw (aclDeny "Only owners can modify access rules")
      else
        h ← haveRules;
        (if (h : bool)
         then
           mapM (fun entry : nat * ActionRef =>
                   _checkIncomingDocAction ext
                     {| cursorSession := docSession; action := snd entry;
                        actionIdx := Some (fst entry) |})
                (imap (fun idx a => (idx, a)) docActionRefs);;
           ret tt
         else ret tt);;
        g' ← getThis;
        if _recoveryMode g'
        then ret tt  (* Don't do any further checking in recovery mode. *)
        else if existsb (fun docAction => isAclTable (getTableId docAction)) docActions
        then liftResult (checkChangedRules g' docActions)
        else ret tt
  end.

End Apply.

(** * The rule change of a bundle, as the specification words it *)

(** "Any user action targets [_grist_ACLRules] or [_grist_ACLResources]
    (scanned through ApplyUndoActions/ApplyDocActions recursively)": some
    action, at any depth and at any position, names an ACL table. *)
Fixpoint targetsAclTable (a : UserAction) : bool :=
  match a with
  | ApplyUndoActions payload | ApplyDocActions payload => existsb targetsAclTable payload
  | Act _ arg1 => isAclTable arg1
  end.

Definition anyTargetsAclTable (userActions : list UserAction) : bool :=
  existsb targetsAclTable userActions.

(** * Notions used in the statements *)

(** The engine is idle: no active bundle, no steps, no previous user
    attributes. *)
Definition idle (w : World) : Prop :=
  _activeBundle (this w) = None /\ _steps (this w) = None
  /\ _prevUserAttributesMap (this w) = None.

(** Some doc action is on a table that a user-attribute rule looks up. *)
Definition touchesUserAttributeTable (rc : ACLRuleCollection) (docActions : list DocAction) : bool :=
  existsb (fun docAction =>
             setHas (map ua_tableId (rc_getUserAttributeRules rc)) (getTableId docAction))
          docActions.

(** A Ruler after [clearCache]. *)
Definition clearedCache (r : Ruler) : Ruler :=
  {| ruleCollection := ruleCollection r; _permissionInfoMap := ∅ |}.



(** What resolving a user and caching a [PermissionInfo] may change: the
    user attributes of sessions and the caches of the Rulers.  Everything
    else of the world is framed. *)
Record cacheFrame (w w' : World) : Prop := mkFrame {
  fr_actions : actions w' = actions w;
  fr_nextAction : nextAction w' = nextAction w;
  fr_nextRuler : nextRuler w' = nextRuler w;
  fr_rules : forall r, ruleCollection <$> (rulers w' !! r) = ruleCollection <$> (rulers w !! r);
  fr_ruler : _ruler (this w') = _ruler (this w);
  fr_prev : _prevUserAttributesMap (this w') = _prevUserAttributesMap (this w);
  fr_steps : _steps (this w') = _steps (this w);
  fr_bundle : _activeBundle (this w') = _activeBundle (this w);
  fr_docData : _docData (this w') = _docData (this w);
  fr_fetch : _fetchQueryFromDB (this w') = _fetchQueryFromDB (this w);
  fr_recovery : _recoveryMode (this w') = _recoveryMode (this w);
  fr_homeDb : _homeDbManager (this w') = _homeDbManager (this w);
  fr_docId : _docId (this w') = _docId (this w);
}.

(** A computation whose every run relates the world before to the world
    after, whether it returns or throws. *)
Definition preserves {A} (R : World -> World -> Prop) (m : M A) : Prop :=
  forall w, R w (snd (m w)).

(** The elements of [xs] whose row, by position in [ids], is kept; an
    element past the end of [ids] has no row and stays. *)
Fixpoint keepRows {A} (ids : list Z) (keep : Z -> bool) (xs : list A) {struct xs} : list A :=
  match xs, ids with
  | [], _ => []
  | x :: xs', [] => x :: xs'
  | x :: xs', id :: ids' =>
      if keep id then x :: keepRows ids' keep xs' else keepRows ids' keep xs'
  end.

Definition keepColumns (ids : list Z) (keep : Z -> bool) (cv : BulkColValues) : BulkColValues :=
  map (fun kv => (fst kv, keepRows ids keep (snd kv))) cv.

(** The forced addition: a BulkAddRecord of the rows of [after] that are in
    [adds], every column of [after] carried; nothing when there is no such
    row. *)
Definition forceAddValue (after : TableDataAction) (adds : list Z) : option DocAction :=
  if (length adds =? 0)%nat then None
  else
    let ids := List.filter (idsHas adds) (td_rowIds after) in
    if (length ids =? 0)%nat then None
    else Some (BulkAddRecord (td_tableId after) ids
                 (keepColumns (td_rowIds after) (idsHas adds) (td_columns after))).

(** The forced removal: a BulkRemoveRecord of [removes]. *)
Definition forceRemoveValue (after : TableDataAction) (removes : list Z) : option DocAction :=
  if (length removes =? 0)%nat then None
  else Some (BulkRemoveRecord (td_tableId after) removes).

(** A data action stripped of the rows in [gone]; nothing when no row is
    left. *)
Definition strippedValue (v : DocAction) (gone : list Z) : option DocAction :=
  let keep := fun id => negb (idsHas gone id) in
  let bulk (mk : list Z -> BulkColValues -> DocAction) (ids : list Z) (cv : BulkColValues) :=
    if (length (List.filter keep ids) =? 0)%nat then None
    else Some (mk (List.filter keep ids) (keepColumns ids keep cv)) in
  match v with
  | AddRecord _ id _ | UpdateRecord _ id _ | RemoveRecord _ id =>
      if idsHas gone id then None else Some v
  | BulkAddRecord t ids cv => bulk (BulkAddRecord t) ids cv
  | BulkUpdateRecord t ids cv => bulk (BulkUpdateRecord t) ids cv
  | ReplaceTableData t ids cv => bulk (ReplaceTableData t) ids cv
  | TableData t ids cv => bulk (TableData t) ids cv
  | BulkRemoveRecord t ids =>
      if (length (List.filter keep ids) =? 0)%nat then None
      else Some (BulkRemoveRecord t (List.filter keep ids))
  | _ => Some v
  end.

(** What [_pruneRows] decides for a row, from the name of the action and
    whether the row was forbidden before and is forbidden after. *)
Definition stripsRow (name : string) (fb fa : bool) : bool :=
  (fb && fa) || (fb && negb fa && negb (isAddLike name))
  || (negb fb && fa && negb (isRemove name)).

Definition forcesAdd (name : string) (fb fa : bool) : bool :=
  fb && negb fa && negb (isAddLike name) && isUpdate name.

Definition forcesRemove (name : string) (fb fa : bool) : bool :=
  negb fb && fa && negb (isRemove name) && isUpdate name.

(** The mask of [_removeRows], with the indices counted from [i]. *)
Definition maskFrom (i : nat) (oldIds rowIds : list Z) : list nat :=
  omap id (imap (fun idx id => if idsHas rowIds id then Some (i + idx)%nat else None) oldIds).

(** What allocating copies may change: the store of actions grows, nothing
    that was there moves. *)
Record allocFrame (w w' : World) : Prop := mkAllocFrame {
  af_this : this w' = this w;
  af_rulers : rulers w' = rulers w;
  af_nextRuler : nextRuler w' = nextRuler w;
  af_next : (nextAction w <= nextAction w')%nat;
  af_old : forall l : ActionRef, (l < nextAction w)%nat -> actions w' !! l = actions w !! l;
}.

(** The reference [r] is of the store of [w] and holds [val]; [null] holds
    nothing. *)
Definition holds (w : World) (r : option ActionRef) (val : option DocAction) : Prop :=
  match r, val with
  | None, None => True
  | Some l, Some x => (l < nextAction w)%nat /\ actions w !! (l : ActionRef) = Some x
  | _, _ => False
  end.

(** The situation in which [_pruneRows] is looked at: the cursor's action
    is a data action of the store, the steps of the bundle are computed
    and the cursor's step has its rows, the Ruler of the step is in the
    store, and the user of the session is resolved (resolving again gives
    the same user and changes nothing). *)
Record pruneRowsReady (ext : Externals) (cursor : ActionCursor) (w : World) (v : DocAction)
    (before after : TableDataAction) (u : UserInfo) (rl : Ruler) : Prop := mkReady {
  pr_stored : actions w !! action cursor = Some v;
  pr_inStore : (action cursor < nextAction w)%nat;
  pr_data : isDataAction v = true;
  pr_step : exists idx steps step,
      actionIdx cursor = Some idx /\ _steps (this w) = Some (Ok steps)
      /\ steps !! idx = Some step
      /\ rowsBefore step = Some before /\ rowsAfter step = Some after
      /\ rulers w !! default (_ruler (this w)) (step_ruler step) = Some rl;
  pr_user : _getUser ext (cursorSession cursor) w = (Ok u, w);
}.



(** * Notions used in the further properties *)

(** The user actions before the first container of a list, and the payload
    of that container (empty when the list has none). *)
Fixpoint beforeFirstContainer (l : list UserAction) : list UserAction :=
  match l with
  | Act name arg1 :: rest => Act name arg1 :: beforeFirstContainer rest
  | _ => []
  end.

Fixpoint firstContainerPayload (l : list UserAction) : list UserAction :=
  match l with
  | [] => []
  | Act _ _ :: rest => firstContainerPayload rest
  | ApplyUndoActions payload :: _ | ApplyDocActions payload :: _ => payload
  end.

(** The session asks to be seen as another user: one of the link parameters
    [aclAsUserId], [aclAsUser] is set. *)
Definition overridesUser (s : OptDocSession) : bool :=
  isSome (linkParam (sessionLinkParameters s) "aclAsUserId")
  || isSome (linkParam (sessionLinkParameters s) "aclAsUser").

Definition onlyOwner : Error := PlainError "only an owner can override user".

(** The error is an [ErrorWithCode] of code ACL_DENY. *)
Definition isAclDeny (e : Error) : bool :=
  match e with ErrorWithCode code _ => String.eqb code "ACL_DENY" | _ => false end.

(** The permission that guards a data action on a table that is not
    structural. *)
Definition checkedPermission (name : string) : PermissionProp :=
  if isUpdate name then PUpdate
  else if isRemove name then PDelete
  else if String.eqb name "AddRecord" || String.eqb name "BulkAddRecord" then PCreate
  else PSchemaEdit.

(** The entries of a column object whose key is kept, and an action with
    only the kept columns. *)
Definition filterKeys {V} (keep : string -> bool) (o : Obj V) : Obj V :=
  List.filter (fun kv => keep (fst kv)) o.

Definition withColumns (keep : string -> bool) (a : DocAction) : DocAction :=
  match a with
  | AddRecord t id cv => AddRecord t id (filterKeys keep cv)
  | UpdateRecord t id cv => UpdateRecord t id (filterKeys keep cv)
  | BulkAddRecord t ids cv => BulkAddRecord t ids (filterKeys keep cv)
  | BulkUpdateRecord t ids cv => BulkUpdateRecord t ids (filterKeys keep cv)
  | ReplaceTableData t ids cv => ReplaceTableData t ids (filterKeys keep cv)
  | TableData t ids cv => TableData t ids (filterKeys keep cv)
  | _ => a
  end.

(** A column that a read filter leaves in place: [manualSort], or a column
    whose read permission is not [deny]. *)
Definition columnVisible (p : PermissionInfo) (tableId colId : string) : bool :=
  String.eqb colId "manualSort"
  || negb (bool_decide (getReadPermission (PermissionInfo_getColumnAccess p tableId colId) = deny)).

(** What is left of an action once its unreadable columns are pruned;
    nothing when no column is left or when the column of a column action
    is unreadable. *)
Definition prunedColumnsValue (p : PermissionInfo) (tableId : string) (v : DocAction)
  : option DocAction :=
  let name := actionName v in
  if isRemove name then Some v
  else if isCellAction name then
    let v' := withColumns (columnVisible p tableId) v in
    if (length (default [] (actionColIds v')) =? 0)%nat then None else Some v'
  else if isColumnAction name then
    if bool_decide (getReadPermission (PermissionInfo_getColumnAccess p tableId (actionColId v)) = deny)
    then None else Some v
  else Some v.

(** Two actions of the same name, on the same table, with the same row ids
    and the same columns. *)
Definition sameShape (a a' : DocAction) : Prop :=
  getTableId a' = getTableId a /\ getRowIdsFromDocAction a' = getRowIdsFromDocAction a
  /\ actionName a' = actionName a /\ actionColIds a' = actionColIds a.

(** [Array.isArray(data[2])] of a data action. *)
Definition isBulk (a : DocAction) : bool :=
  match a with
  | BulkAddRecord _ _ _ | BulkUpdateRecord _ _ _ | ReplaceTableData _ _ _ | TableData _ _ _
  | BulkRemoveRecord _ _ => true
  | _ => false
  end.

(** The doc actions of the store are as they were, and none was added. *)
Definition sameActions (w w' : World) : Prop :=
  actions w' = actions w /\ nextAction w' = nextAction w.

(** The doc actions stored below [n] are as they were, except perhaps those
    of [own]; the store has not shrunk below [n]. *)
Definition keepsOutside (n : nat) (own : list ActionRef) (w w' : World) : Prop :=
  (n <= nextAction w)%nat ->
  (n <= nextAction w')%nat
  /\ forall l : ActionRef, (l < n)%nat -> l ∉ own -> actions w' !! l = actions w !! l.

Definition keepsActions (n : nat) (w w' : World) : Prop :=
  (n <= nextAction w)%nat ->
  (n <= nextAction w')%nat /\ forall l : ActionRef, (l < n)%nat -> actions w' !! l = actions w !! l.

(** A reference that a computation framed by [keepsOutside n own] may write
    to: one of [own], or one allocated since. *)
Definition writable (n : nat) (own : list ActionRef) (r : ActionRef) : Prop :=
  r ∈ own \/ (n <= r)%nat.

(** Every result that [m] returns, started in a store of at least [n]
    actions, satisfies [P]. *)
Definition post {A} (n : nat) (m : M A) (P : A -> Prop) : Prop :=
  forall w x w', (n <= nextAction w)%nat -> m w = (Ok x, w') -> P x.

(** [finishedBundle] reads the rules again: the bundle was applied and it
    touched an ACL table, or rules exist and it changed the schema. *)
Definition rulesReread (b : ActiveBundle) (r : Ruler) : bool :=
  applied b
  && (existsb (fun docAction => isAclTable (getTableId docAction)) (docActions b)
      || (rc_haveRules (ruleCollection r) && existsb isSchemaAction (docActions b))).



(** * A small document, for the concrete runs *)

Module Demo.

Definition ps (r : PermissionValue) : PermissionSetWithContext :=
  {| perms := {| perm_read := r; perm_create := allow; perm_update := allow;
                 perm_delete := allow; perm_schemaEdit := allow |};
     ruleType := "table"; getMemos := fun _ => [] |}.

(** Rules on table [T]: a row whose [status] is ["draft"] cannot be read,
    and the [secret] column cannot be read in any row; rows are decided one
    by one.  Every other table can be read.  The AccessRules special
    permission is not granted. *)
Definition rules : ACLRuleCollection :=
  {| rc_haveRules := true; rc_ruleError := None; rc_getUserAttributeRules := [];
     rc_tableAccess := fun i t =>
       if negb (String.eqb t "T") then ps allow
       else match rec i with
            | None => ps mixed
            | Some v => if bool_decide (InfoView_get v "status" = CStr "draft")
                        then ps deny else ps mixedColumns
            end;
     rc_columnAccess := fun i t c =>
       if String.eqb c "secret" || String.eqb c "AccessRules" then ps deny else ps allow;
     rc_fullAccess := fun i => ps mixed |}.

(** The same document with no rules at all. *)
Definition noRules : ACLRuleCollection :=
  {| rc_haveRules := false; rc_ruleError := None; rc_getUserAttributeRules := [];
     rc_tableAccess := fun i t => ps allow;
     rc_columnAccess := fun i t c => ps allow;
     rc_fullAccess := fun i => ps allow |}.

Definition row (id : Z) (status : string) : Z * list CellValue :=
  (id, [CStr status; CStr "ok"; CStr "x"]).

(** A snapshot of [T] with columns [status], [note], [secret]. *)
Definition tableT (rows : list (Z * list CellValue)) : TableDataAction :=
  {| td_tableId := "T"; td_rowIds := map fst rows;
     td_columns :=
       [("status", map (fun r => arrayAt (snd r) 0) rows);
        ("note", map (fun r => arrayAt (snd r) 1) rows);
        ("secret", map (fun r => arrayAt (snd r) 2) rows)] |}.

(** The structural metadata of the document: the one table [T] with its
    three columns, no views. *)
Definition meta : gmap string TableDataAction :=
  list_to_map
    [("_grist_Tables",
      {| td_tableId := "_grist_Tables"; td_rowIds := [1];
         td_columns := [("tableId", [CStr "T"])] |});
     ("_grist_Tables_column",
      {| td_tableId := "_grist_Tables_column"; td_rowIds := [1; 2; 3];
         td_columns := [("parentId", [CNum 1; CNum 1; CNum 1]);
                        ("colId", [CStr "status"; CStr "note"; CStr "secret"]);
                        ("label", [CStr "Status"; CStr "Note"; CStr "Secret"])] |});
     ("_grist_Views",
      {| td_tableId := "_grist_Views"; td_rowIds := []; td_columns := [("name", [])] |});
     ("_grist_Views_section",
      {| td_tableId := "_grist_Views_section"; td_rowIds := [];
         td_columns := [("tableRef", []); ("parentId", []); ("title", [])] |});
     ("_grist_Views_section_field",
      {| td_tableId := "_grist_Views_section_field"; td_rowIds := [];
         td_columns := [("parentId", []); ("colRef", [])] |})].

Definition step (a : DocAction) (before after : list (Z * list CellValue)) : ActionStep :=
  {| step_action := a; rowsBefore := Some (tableT before); rowsAfter := Some (tableT after);
     rowsLast := None; metaBefore := Some meta; metaAfter := Some meta;
     step_ruler := None |}.

(** The step builder of the demo: one step per doc action of the bundle,
    the table holding [before] and then [after] at every step. *)
Definition ext (before after : list (Z * list CellValue)) : Externals :=
  {| readAclRules := fun _ => rules;
     buildSteps := fun _ bundle rs n =>
       (Ok (map (fun a => step a before after) (docActions bundle)), (rs, n));
     lodashGet := fun _ _ => CNull;
     jsonStringify := fun o =>
       String.concat "," (map (fun kv => fst kv ++ ":" ++ cellString (snd kv)) o);
     integerParam := fun _ => Ok 0 |}.

Definition viewer : OptDocSession :=
  {| sessionKey := 1; getLinkParameters := None; getDocSessionAccess := Some editors;
     getDocSessionUser := Some {| fu_id := 7; fu_email := "v@example.com"; fu_name := "V" |};
     reqOrigin := None |}.

Definition owner : OptDocSession :=
  {| sessionKey := 2; getLinkParameters := None; getDocSessionAccess := Some owners;
     getDocSessionUser := Some {| fu_id := 1; fu_email := "o@example.com"; fu_name := "O" |};
     reqOrigin := None |}.

Definition bundleOf (acts : list DocAction) (isApplied deliberate : bool) : ActiveBundle :=
  {| docSession := owner; userActions := []; docActions := acts; undo := [];
     applied := isApplied; hasDeliberateRuleChange := deliberate |}.

Definition engine (b : option ActiveBundle) : GranularAccess :=
  {| _ruler := 0%nat; _userAttributesMap := ∅; _prevUserAttributesMap := None;
     _steps := None; _activeBundle := b; _docData := ∅;
     _fetchQueryFromDB := fun _ => Throw (PlainError "no database");
     _recoveryMode := false; _homeDbManager := None; _docId := "doc" |}.

(** A world whose store holds [acts] at references 0, 1, ... and one Ruler
    with the rules [rc]. *)
Definition world (rc : ACLRuleCollection) (acts : list DocAction) (b : option ActiveBundle)
  : World :=
  {| actions := list_to_map (imap (fun i a => (i, a)) acts); nextAction := length acts;
     rulers := {[ 0%nat := {| ruleCollection := rc; _permissionInfoMap := ∅ |} ]};
     nextRuler := 1%nat;
     this := engine b |}.


Definition people (team : string) : TableDataAction :=
  {| td_tableId := "People"; td_rowIds := [4];
     td_columns := [("email", [CStr "v@example.com"]); ("team", [CStr team])] |}.


Definition teamA : InfoView := RecordView (people "A") (Some 0%nat).

Definition viewerInfo : UserInfo :=
  {| Access := Some editors; UserID := Some 7; Email := Some "v@example.com";
     Name := Some "V"; LinkKey := []; Origin := None; userAttrs := [] |}.

(** The permissions of the viewer under [rules], without a record. *)
Definition viewerPermissions : PermissionInfo :=
  {| pi_ruleCollection := rules;
     pi_input := {| user := viewerInfo; rec := None; newRec := None |} |}.

(** The world of [world] in an applied bundle of [acts], once the steps of
    the bundle are computed and the viewer is resolved. *)
Definition readyWorld (before after : list (Z * list CellValue)) (acts : list DocAction)
  : World :=
  let w := world rules acts (Some (bundleOf acts true false)) in
  snd (_getUser (ext before after) viewer (snd (_getSteps (ext before after) w))).

(** The viewer's cursor on the first action of the bundle. *)
Definition cursor0 : ActionCursor :=
  {| action := 0%nat; cursorSession := viewer; actionIdx := Some 0%nat |}.

(** One update of two rows: row 5 leaves ["draft"], row 7 enters it. *)
Definition swapBefore : list (Z * list CellValue) := [row 5 "draft"; row 7 "open"].
Definition swapAfter : list (Z * list CellValue) := [row 5 "open"; row 7 "draft"].
Definition swap : DocAction :=
  BulkUpdateRecord "T" [5; 7] [("status", [CStr "open"; CStr "draft"])].

(** One update of the note and the secret of row 5, which stays ["open"]. *)
Definition touch : DocAction :=
  UpdateRecord "T" 5 [("note", CStr "ok"); ("secret", CStr "x")].

(** An update on a table [U], which the rules leave readable. *)
Definition plain : DocAction := UpdateRecord "U" 1 [("a", CNum 1)].



Definition aclBulkAdd : DocAction :=
  BulkAddRecord "_grist_ACLRules" [1] [("resource", [CNum 1]); ("aclFormula", [CStr "True"])].


End Demo.

(** * Further documents and sessions, for the concrete runs *)

Module Cases.

(** An editor who asks to be seen as another user. *)
Definition impersonator : OptDocSession :=
  {| sessionKey := 3; getLinkParameters := Some [("aclAsUser", "o@example.com")];
     getDocSessionAccess := Some editors;
     getDocSessionUser := Some {| fu_id := 7; fu_email := "v@example.com"; fu_name := "V" |};
     reqOrigin := None |}.

(** An owner who asks to be seen as the user of id 7. *)
Definition ownerAsViewer : OptDocSession :=
  {| sessionKey := 4; getLinkParameters := Some [("aclAsUserId", "7")];
     getDocSessionAccess := Some owners;
     getDocSessionUser := Some {| fu_id := 1; fu_email := "o@example.com"; fu_name := "O" |};
     reqOrigin := None |}.

(** A home database that knows the user 7, an editor of the document. *)
Definition homeDb : HomeDBManager :=
  {| db_getUser := fun id =>
       if (id =? 7)%Z
       then Some {| fu_id := 7; fu_email := "v@example.com"; fu_name := "V" |}
       else None;
     db_getUserByLogin := fun _ => None;
     db_getDocAuthCached := fun _ id => if (id =? 7)%Z then Some editors else None;
     db_makeFullUser := fun u => u |}.

(** The collaborators of [Demo.ext], with an [integerParam] that reads
    ["7"]. *)
Definition ext : Externals :=
  {| readAclRules := readAclRules (Demo.ext [] []);
     buildSteps := buildSteps (Demo.ext [] []);
     lodashGet := lodashGet (Demo.ext [] []);
     jsonStringify := jsonStringify (Demo.ext [] []);
     integerParam := fun str =>
       if String.eqb str "7" then Ok 7 else Throw (PlainError "not an integer") |}.

(** The engine of [Demo.world], with a home database. *)
Definition dbWorld : World :=
  {| actions := ∅; nextAction := 0%nat;
     rulers := {[ 0%nat := {| ruleCollection := Demo.rules; _permissionInfoMap := ∅ |} ]};
     nextRuler := 1%nat;
     this :=
       {| _ruler := 0%nat; _userAttributesMap := ∅; _prevUserAttributesMap := None;
          _steps := None; _activeBundle := None; _docData := ∅;
          _fetchQueryFromDB := fun _ => Throw (PlainError "no database");
          _recoveryMode := false; _homeDbManager := Some homeDb; _docId := "doc" |} |}.



Definition denyAll : PermissionSetWithContext :=
  {| perms := {| perm_read := deny; perm_create := deny; perm_update := deny;
                 perm_delete := deny; perm_schemaEdit := deny |};
     ruleType := "table"; getMemos := fun _ => [] |}.

(** Rules that deny everything on table [T] and allow every other table.
    The AccessRules special permission is not granted. *)
Definition hiddenRules : ACLRuleCollection :=
  {| rc_haveRules := true; rc_ruleError := None; rc_getUserAttributeRules := [];
     rc_tableAccess := fun i t => if String.eqb t "T" then denyAll else Demo.ps allow;
     rc_columnAccess := fun i t c =>
       if String.eqb t "T" || String.eqb c "AccessRules" then denyAll else Demo.ps allow;
     rc_fullAccess := fun i => Demo.ps mixed |}.

Definition rulerOf (rc : ACLRuleCollection) : Ruler :=
  {| ruleCollection := rc; _permissionInfoMap := ∅ |}.

(** Checks of a rule change that accept everything; a doc action leaves
    the temporary snapshot as it is. *)
Definition rcx : RuleCheckExternals :=
  {| receiveAction := fun docData _ => Ok docData;
     checkDocEntities := fun _ _ => Ok tt |}.

Definition aclResources : TableDataAction :=
  {| td_tableId := "_grist_ACLResources"; td_rowIds := [1];
     td_columns := [("tableId", [CStr "*"]); ("colIds", [CStr "*"])] |}.

Definition aclRules : TableDataAction :=
  {| td_tableId := "_grist_ACLRules"; td_rowIds := [1];
     td_columns := [("resource", [CNum 1]); ("aclFormula", [CStr "True"])] |}.

(** The metadata of [Demo.meta] together with the two ACL tables. *)
Definition metaWithAcl : gmap string TableDataAction :=
  <["_grist_ACLRules" := aclRules]> (<["_grist_ACLResources" := aclResources]> Demo.meta).

(** A bundle of [acts] started by [session]. *)
Definition bundleBy (session : OptDocSession) (acts : list DocAction) (deliberate : bool)
  : ActiveBundle :=
  {| docSession := session; userActions := []; docActions := acts; undo := [];
     applied := false; hasDeliberateRuleChange := deliberate |}.

(** The world of [Demo.world] over a document that holds [metaWithAcl]. *)
Definition docWorld (rc : ACLRuleCollection) (acts : list DocAction) (b : option ActiveBundle)
  : World :=
  {| actions := list_to_map (imap (fun i a => (i, a)) acts); nextAction := length acts;
     rulers := {[ 0%nat := rulerOf rc ]}; nextRuler := 1%nat;
     this :=
       {| _ruler := 0%nat; _userAttributesMap := ∅; _prevUserAttributesMap := None;
          _steps := None; _activeBundle := b; _docData := metaWithAcl;
          _fetchQueryFromDB := fun _ => Throw (PlainError "no database");
          _recoveryMode := false; _homeDbManager := None; _docId := "doc" |} |}.

(** A world in which the owner's bundle of the one doc action [a] awaits
    [canApplyBundle]. *)
Definition incoming (rc : ACLRuleCollection) (a : DocAction) : World :=
  Demo.world rc [a] (Some (Demo.bundleOf [a] false false)).

End Cases.


(** * Reasoning about computations *)

Ltac munfold :=
  unfold mbind, M_bind, bind, ret, throw, getThis, modifyThis, liftResult, mkM,
         readRuler, writeRuler, readAction, writeAction, allocAction in *.

Lemma cacheFrame_refl w : cacheFrame w w.
Proof. by constructor. Qed.

Lemma cacheFrame_trans w1 w2 w3 : cacheFrame w1 w2 -> cacheFrame w2 w3 -> cacheFrame w1 w3.
Proof. intros [] []. constructor; congruence. Qed.

Lemma cacheFrame_attrs w m :
  cacheFrame w (setThis (set_userAttributesMap m (this w)) w).
Proof. by constructor. Qed.

Lemma cacheFrame_cache w r x c :
  rulers w !! r = Some x ->
  cacheFrame w (setRulers (<[r := {| ruleCollection := ruleCollection x;
                                     _permissionInfoMap := c |}]> (rulers w)) (nextRuler w) w).
Proof.
  intros Hr. constructor; try done. intros r'. simpl.
  destruct (decide (r = r')) as [->|Hne].
  - by rewrite lookup_insert_eq, Hr.
  - by rewrite lookup_insert_ne.
Qed.

Section Preserves.
Context (R : World -> World -> Prop) (Rrefl : forall w, R w w)
        (Rtrans : forall a b c, R a b -> R b c -> R a c).

Lemma preserves_ret {A} (a : A) : preserves R (ret a).
Proof using Rrefl. intros w. apply Rrefl. Qed.

Lemma preserves_throw {A} e : preserves R (@throw A e).
Proof using Rrefl. intros w. apply Rrefl. Qed.

Lemma preserves_liftResult {A} (r : Result A) : preserves R (liftResult r).
Proof using Rrefl. destruct r; intros w; apply Rrefl. Qed.

Lemma preserves_bind {A B} (m : M A) (k : A -> M B) :
  preserves R m -> (forall a, preserves R (k a)) -> preserves R (m ≫= k).
Proof using Rrefl Rtrans.
  intros Hm Hk w. unfold mbind, M_bind, bind.
  specialize (Hm w). destruct (m w) as [[a|e] w1]; simpl in *; [|done].
  eapply Rtrans; [exact Hm | apply Hk].
Qed.

Lemma preserves_forEach {A S} (xs : list A) (s : S) (body : S -> A -> M S) :
  (forall s x, preserves R (body s x)) -> preserves R (forEach xs s body).
Proof using Rrefl Rtrans.
  intros Hb. revert s. induction xs as [|x xs IH]; intros s; simpl.
  - apply preserves_ret.
  - apply preserves_bind; auto.
Qed.

Lemma preserves_mapM {A B} (f : A -> M B) (xs : list A) :
  (forall x, preserves R (f x)) -> preserves R (mapM f xs).
Proof using Rrefl Rtrans.
  intros Hf. induction xs as [|x xs IH]; simpl.
  - apply preserves_ret.
  - apply preserves_bind; [auto|]. intros y.
    apply preserves_bind; [auto|]. intros ys. apply preserves_ret.
Qed.
End Preserves.

Ltac preserves_step :=
  lazymatch goal with
  | |- preserves _ (ret _) => apply preserves_ret
  | |- preserves _ (throw _) => apply preserves_throw
  | |- preserves _ (liftResult _) => apply preserves_liftResult
  | |- preserves _ (mbind _ _) => apply preserves_bind; [ | | | intros ]
  | |- preserves _ (forEach _ _ _) => apply preserves_forEach; [ | | intros ]
  | |- preserves _ (mapM _ _) => apply preserves_mapM; [ | | intros ]
  | |- preserves _ (match ?x with _ => _ end) => destruct x eqn:?
  | |- preserves _ (let '(_, _) := ?x in _) => destruct x eqn:?
  end.

Lemma preserves_getThis : preserves cacheFrame getThis.
Proof. intros w. apply cacheFrame_refl. Qed.

Lemma preserves_readRuler r : preserves cacheFrame (readRuler r).
Proof. intros w. unfold readRuler. destruct (rulers w !! r); apply cacheFrame_refl. Qed.

Lemma preserves_readAction l : preserves cacheFrame (readAction l).
Proof. intros w. unfold readAction. destruct (actions w !! l); apply cacheFrame_refl. Qed.

Create HintDb frame.
#[global] Hint Resolve cacheFrame_refl cacheFrame_trans preserves_getThis
  preserves_readRuler preserves_readAction : frame.

Ltac frame := repeat (first [ solve [eauto with frame] | preserves_step ]).

Section Frames.
Context (ext : Externals).

Lemma getUserAttributes_frame s : preserves cacheFrame (_getUserAttributes s).
Proof.
  unfold _getUserAttributes. frame.
  intros w. apply cacheFrame_attrs.
Qed.

Lemma storeUserAttributes_frame s a : preserves cacheFrame (storeUserAttributes s a).
Proof. intros w. apply cacheFrame_attrs. Qed.

#[local] Hint Resolve getUserAttributes_frame storeUserAttributes_frame : frame.

Lemma getUser_frame s : preserves cacheFrame (_getUser ext s).
Proof. unfold _getUser. frame. Qed.

#[local] Hint Resolve getUser_frame : frame.

Lemma Ruler_getAccess_frame r s : preserves cacheFrame (Ruler_getAccess ext r s).
Proof.
  unfold Ruler_getAccess. frame.
  intros w. unfold mkM.
  pose proof (getUser_frame s w) as Hu.
  destruct (_getUser ext s w) as [[u|e] w1]; simpl in *.
  - destruct (rulers w1 !! r) as [x'|] eqn:Hx; simpl; [|done].
    munfold. simpl. rewrite Hx. simpl.
    eapply cacheFrame_trans; [exact Hu|]. by apply cacheFrame_cache.
  - munfold. simpl. destruct (rulers w1 !! r) as [x'|] eqn:Hx; simpl; [|done].
    eapply cacheFrame_trans; [exact Hu|]. by apply cacheFrame_cache.
Qed.

#[local] Hint Resolve Ruler_getAccess_frame : frame.

Lemma haveRules_frame : preserves cacheFrame haveRules.
Proof. unfold haveRules, Ruler_haveRules. frame. Qed.

Lemma getAccess_frame s : preserves cacheFrame (_getAccess ext s).
Proof. unfold _getAccess. frame. Qed.

#[local] Hint Resolve haveRules_frame getAccess_frame : frame.

Lemma getNominalAccess_frame s : preserves cacheFrame (_getNominalAccess ext s).
Proof. unfold _getNominalAccess. frame. Qed.

#[local] Hint Resolve getNominalAccess_frame : frame.

Lemma hasFullAccess_frame s : preserves cacheFrame (hasFullAccess ext s).
Proof. unfold hasFullAccess, isOwner. frame. Qed.

#[local] Hint Resolve hasFullAccess_frame : frame.

Lemma hasNuancedAccess_frame s : preserves cacheFrame (hasNuancedAccess ext s).
Proof. unfold hasNuancedAccess. frame. Qed.

Lemma hasAccessRulesPermission_frame s : preserves cacheFrame (hasAccessRulesPermission ext s).
Proof. unfold hasAccessRulesPermission. frame. Qed.

Lemma canReadEverything_frame s : preserves cacheFrame (canReadEverything ext s).
Proof. unfold canReadEverything. frame. Qed.

#[local] Hint Resolve canReadEverything_frame : frame.

Lemma filterActionGroup_frame s ag : preserves cacheFrame (filterActionGroup ext s ag).
Proof. unfold filterActionGroup, allowActionGroup. frame. Qed.

End Frames.

#[global] Hint Resolve getUserAttributes_frame storeUserAttributes_frame getUser_frame
  Ruler_getAccess_frame haveRules_frame getAccess_frame getNominalAccess_frame
  hasFullAccess_frame hasNuancedAccess_frame hasAccessRulesPermission_frame
  canReadEverything_frame filterActionGroup_frame : frame.

(** * The bundle lifecycle *)

Lemma haveRules_run (w : World) (r : Ruler) :
  rulers w !! _ruler (this w) = Some r ->
  haveRules w = (Ok (rc_haveRules (ruleCollection r)), w).
Proof. intros Hr. unfold haveRules, Ruler_haveRules. munfold. simpl. by rewrite Hr. Qed.

Lemma update_run ext (w : World) (r : Ruler) :
  rulers w !! _ruler (this w) = Some r ->
  update ext w =
    (Ok tt,
     setThis (set_userAttributesMap ∅ (this w))
       (setRulers (<[_ruler (this w) := {| ruleCollection := readAclRules ext (_docData (this w));
                                           _permissionInfoMap := ∅ |}]> (rulers w))
                  (nextRuler w) w)).
Proof.
  intros Hr. unfold update, Ruler_update, Ruler_clearCache. munfold. simpl.
  rewrite Hr. simpl. rewrite lookup_insert_eq. simpl.
  rewrite insert_insert_eq. reflexivity.
Qed.

(** ** Recording a deliberate rule change *)

(** The scan never reports a rule change that is not there. *)
Lemma scanActionsRecursively_sound (userActions : list UserAction) :
  scanActionsRecursively userActions (fun a => isAclTable (userActionArg1 a)) = true ->
  anyTargetsAclTable userActions = true.
Proof.
  funelim (scanActionsRecursively userActions _); simp scanActionsRecursively; simpl.
  - done.
  - intros Hs. unfold anyTargetsAclTable in *. simpl. rewrite H; auto.
  - intros Hs. unfold anyTargetsAclTable in *. simpl. rewrite H; auto.
  - unfold anyTargetsAclTable in *. simpl.
    destruct (isAclTable arg1); simpl; auto.
Qed.

Lemma scanActionsRecursively_sound_witness :
  anyTargetsAclTable [ApplyDocActions [Act "AddRecord" "_grist_ACLRules"]; Act "Calculate" "T"]
  = true.
Proof. apply scanActionsRecursively_sound. reflexivity. Defined.

(** C3, at the failing input.  The claim: [hasDeliberateRuleChange] is
    recorded as true if and only if some user action, at any nesting depth
    and at any position in the list, targets an ACL table.  The code: in
    [scanActionsRecursively] the first container met ends the scan with the
    answer for its payload, so an action that follows a container is never
    looked at.  Here an empty [ApplyUndoActions] is followed by an
    [AddRecord] on [_grist_ACLRules]: an action of the list targets an ACL
    table, [begin] succeeds, and the flag it records is false. *)
Theorem begin_misses_rule_change_after_container :
  let userActions := [ApplyUndoActions []; Act "AddRecord" "_grist_ACLRules"] in
  let w := Demo.world Demo.rules [] None in
  anyTargetsAclTable userActions = true
  /\ fst (getGranularAccessForBundle Demo.owner [] [] userActions w) = Ok tt
  /\ hasDeliberateRuleChange
       <$> _activeBundle (this (snd (getGranularAccessForBundle Demo.owner [] [] userActions w)))
     = Some false.
Proof. vm_compute. auto. Qed.

(** ** A deliberate rule change asks every client to reload *)

(** C4.  When the active bundle has [hasDeliberateRuleChange] set,
    [filterOutgoingDocActions] throws NEED_RELOAD for every session,
    whatever its role, for every list of doc actions, and leaves the world
    as it was; and [_filterDocUpdate] never returns a message for such a
    bundle: it throws, and what it throws is that NEED_RELOAD unless
    resolving the session for [filterActionGroup] has thrown first. *)
Theorem filterOutgoingDocActions_need_reload (ext : Externals) (docSession : OptDocSession)
    (w : World) (bundle : ActiveBundle)
    (Hruler : is_Some (rulers w !! _ruler (this w)))
    (Hactive : _activeBundle (this w) = Some bundle)
    (Hflag : hasDeliberateRuleChange bundle = true) :
  (forall docActions : list ActionRef,
     filterOutgoingDocActions ext docSession docActions w
     = (Throw (needReload "document needs reload, access rules changed"), w))
  /\ forall message : DocMessage,
       exists e w', _filterDocUpdate ext docSession message w = (Throw e, w')
         /\ (isOk (fst (filterActionGroup ext docSession (msg_actionGroup message) w)) = true ->
             e = needReload "document needs reload, access rules changed").
Proof.
  assert (Hf : forall w' docActions, _activeBundle (this w') = Some bundle ->
     filterOutgoingDocActions ext docSession docActions w'
     = (Throw (needReload "document needs reload, access rules changed"), w')).
  { intros w' das Hw'. unfold filterOutgoingDocActions. munfold. simpl.
    rewrite Hw', Hflag. reflexivity. }
  split; [intros; apply Hf, Hactive|].
  intros message. destruct Hruler as [r Hr]. unfold _filterDocUpdate.
  unfold mbind at 1, M_bind at 1, bind at 1, getThis. rewrite Hactive.
  unfold mbind at 1, M_bind at 1, bind at 1.
  rewrite (haveRules_run w r Hr), Hflag, andb_false_r.
  unfold mbind at 1, M_bind at 1, bind at 1.
  pose proof (filterActionGroup_frame ext docSession (msg_actionGroup message) w) as Hg.
  destruct (filterActionGroup ext docSession (msg_actionGroup message) w) as [[ag|e] w2] eqn:Hag;
    simpl in Hg.
  - unfold mbind at 1, M_bind at 1, bind at 1.
    rewrite Hf by (rewrite (fr_bundle _ _ Hg); done).
    eauto.
  - exists e, w2. split; [done|]. simpl. discriminate.
Qed.

(** An owner's session, in a bundle that adds a rule: NEED_RELOAD. *)
Lemma filterOutgoingDocActions_need_reload_witness :
  fst (filterOutgoingDocActions (Demo.ext [] []) Demo.owner [0%nat]
         (Demo.world Demo.rules [AddRecord "_grist_ACLRules" 3 []]
            (Some (Demo.bundleOf [AddRecord "_grist_ACLRules" 3 []] true true))))
  = Throw (needReload "document needs reload, access rules changed").
Proof.
  rewrite (proj1 (filterOutgoingDocActions_need_reload (Demo.ext [] []) Demo.owner
             (Demo.world Demo.rules [AddRecord "_grist_ACLRules" 3 []]
                (Some (Demo.bundleOf [AddRecord "_grist_ACLRules" 3 []] true true)))
             (Demo.bundleOf [AddRecord "_grist_ACLRules" 3 []] true true)
             ltac:(eexists; reflexivity) eq_refl eq_refl)).
  reflexivity.
Defined.

(** ** appliedBundle *)

(** C6, as the code has it.  With an active bundle, [appliedBundle]
    returns, and the world it leaves is the one written out here: the
    bundle is marked applied; if no rules exist nothing else changes;
    if rules exist, then when a doc action touches a user-attribute source
    table [_userAttributesMap] moves into [_prevUserAttributesMap] and a
    fresh map takes its place, and when that happened or a doc action is a
    schema action the cache of the engine's Ruler is emptied.  The store of
    actions, the other Rulers, the rules and every other field of the
    engine are as before. *)
Theorem appliedBundle_effect (ext : Externals) (w : World) (bundle : ActiveBundle) (r : Ruler)
    (Hactive : _activeBundle (this w) = Some bundle)
    (Hruler : rulers w !! _ruler (this w) = Some r) :
  let attrChange := touchesUserAttributeTable (ruleCollection r) (docActions bundle) in
  let schemaChange := existsb isSchemaAction (docActions bundle) in
  let marked := set_activeBundle (Some (set_applied true bundle)) (this w) in
  appliedBundle w =
    (Ok tt,
     if rc_haveRules (ruleCollection r) then
       setRulers
         (if attrChange || schemaChange
          then <[_ruler (this w) := clearedCache r]> (rulers w) else rulers w)
         (nextRuler w)
         (setThis
            (if attrChange
             then set_userAttributesMap ∅
                    (set_prevUserAttributesMap (Some (_userAttributesMap (this w))) marked)
             else marked) w)
     else setThis marked w).
Proof.
  intros attrChange schemaChange marked.
  unfold appliedBundle.
  unfold mbind at 1, M_bind at 1, bind at 1, getThis. rewrite Hactive.
  unfold mbind at 1, M_bind at 1, bind at 1, modifyThis.
  unfold mbind at 1, M_bind at 1, bind at 1.
  rewrite (haveRules_run _ r) by done.
  destruct (rc_haveRules (ruleCollection r)); [|reflexivity].
  cbn [negb].
  unfold mbind at 1, M_bind at 1, bind at 1, readRuler. cbn [rulers setThis]. rewrite Hruler.
  fold attrChange. fold (touchesUserAttributeTable (ruleCollection r) (docActions bundle)).
  fold attrChange. fold schemaChange.
  unfold Ruler_clearCache.
  destruct attrChange, schemaChange; munfold; simpl; rewrite ?Hruler; simpl;
    reflexivity.
Qed.

Lemma appliedBundle_effect_witness :
  fst (appliedBundle (Demo.world Demo.rules [] (Some (Demo.bundleOf [AddTable "X" []] false false))))
  = Ok tt.
Proof.
  rewrite (appliedBundle_effect (Demo.ext [] [])
             (Demo.world Demo.rules [] (Some (Demo.bundleOf [AddTable "X" []] false false)))
             (Demo.bundleOf [AddTable "X" []] false false)
             {| ruleCollection := Demo.rules; _permissionInfoMap := ∅ |} eq_refl eq_refl).
  reflexivity.
Defined.

(** C6, as claimed, fails.  No rules exist; the owner's permissions were
    looked up once, so the cache of the Ruler holds one entry; the bundle
    holds a schema action.  [appliedBundle] marks the bundle applied and
    leaves the cache as it was, with its one entry. *)
Lemma appliedBundle_keeps_cache_without_rules :
  let w0 := Demo.world Demo.noRules [] (Some (Demo.bundleOf [AddTable "X" []] false false)) in
  let w1 := snd (canReadEverything (Demo.ext [] []) Demo.owner w0) in
  let w2 := snd (appliedBundle w1) in
  existsb isSchemaAction [AddTable "X" []] = true
  /\ fst (appliedBundle w1) = Ok tt
  /\ (applied <$> _activeBundle (this w2)) = Some true
  /\ (size ∘ _permissionInfoMap <$> rulers w1 !! 0%nat) = Some 1%nat
  /\ (size ∘ _permissionInfoMap <$> rulers w2 !! 0%nat) = Some 1%nat.
Proof. vm_compute. auto 10. Qed.

(** ** finishedBundle *)

(** C7.  After [finishedBundle] on an engine with an active bundle,
    applied or not, whatever [_steps] and [_prevUserAttributesMap] held:
    the call returns, the engine is idle (no active bundle, [_steps]
    cleared, [_prevUserAttributesMap] cleared), and calling [finishedBundle]
    again returns and changes nothing, so the engine is still idle. *)
Theorem finishedBundle_idle (ext : Externals) (w : World) (bundle : ActiveBundle)
    (Hruler : is_Some (rulers w !! _ruler (this w)))
    (Hactive : _activeBundle (this w) = Some bundle) :
  fst (finishedBundle ext w) = Ok tt
  /\ idle (snd (finishedBundle ext w))
  /\ finishedBundle ext (snd (finishedBundle ext w)) = (Ok tt, snd (finishedBundle ext w)).
Proof.
  destruct Hruler as [r Hr].
  assert (Hidle : forall w', _activeBundle (this w') = None -> finishedBundle ext w' = (Ok tt, w')).
  { intros w' Hw'. unfold finishedBundle. munfold. simpl. by rewrite Hw'. }
  assert (Hrun : exists w1, finishedBundle ext w = (Ok tt, w1) /\ idle w1).
  { unfold finishedBundle.
    unfold mbind at 1, M_bind at 1, bind at 1, getThis. rewrite Hactive.
    unfold mbind at 1, M_bind at 1, bind at 1.
    destruct (applied bundle).
    - unfold _updateRules.
      destruct (existsb _ (docActions bundle)).
      + rewrite (update_run ext w r Hr). munfold. simpl. eexists. by split.
      + unfold mbind at 1, M_bind at 1, bind at 1.
        rewrite (haveRules_run w r Hr).
        destruct (rc_haveRules (ruleCollection r)); simpl.
        * destruct (existsb isSchemaAction (docActions bundle)).
          -- rewrite (update_run ext w r Hr). munfold. simpl. eexists. by split.
          -- munfold. simpl. eexists. by split.
        * munfold. simpl. eexists. by split.
    - munfold. simpl. eexists. by split. }
  destruct Hrun as (w1 & -> & Hw1). simpl.
  split; [done|]. split; [done|]. apply Hidle, Hw1.
Qed.

Lemma finishedBundle_idle_witness :
  idle (snd (finishedBundle (Demo.ext [] [])
               (Demo.world Demo.rules [] (Some (Demo.bundleOf [RemoveTable "T"] true false))))).
Proof.
  apply (finishedBundle_idle (Demo.ext [] [])
           (Demo.world Demo.rules [] (Some (Demo.bundleOf [RemoveTable "T"] true false)))
           (Demo.bundleOf [RemoveTable "T"] true false)
           ltac:(eexists; reflexivity) eq_refl).
Defined.

(** Without an active bundle [finishedBundle] returns at once and touches
    nothing. *)
Lemma finishedBundle_without_bundle (ext : Externals) (w : World) :
  _activeBundle (this w) = None -> finishedBundle ext w = (Ok tt, w).
Proof. intros Hw. unfold finishedBundle. munfold. simpl. by rewrite Hw. Qed.

Lemma finishedBundle_without_bundle_witness :
  finishedBundle (Demo.ext [] []) (Demo.world Demo.rules [Demo.plain] None)
  = (Ok tt, Demo.world Demo.rules [Demo.plain] None).
Proof. apply finishedBundle_without_bundle. reflexivity. Defined.

(** * The ingress check on user actions *)

Lemma special_not_ok name : setHas SPECIAL_ACTIONS name = true -> setHas OK_ACTIONS name = false.
Proof.
  unfold setHas, SPECIAL_ACTIONS, OK_ACTIONS. simpl.
  rewrite !orb_false_r. rewrite !orb_true_iff.
  intros H. repeat destruct H as [H|H]; apply String.eqb_eq in H; subst; reflexivity.
Qed.

Lemma surprising_not_ok_special name :
  setHas SURPRISING_ACTIONS name = true ->
  setHas OK_ACTIONS name = false /\ setHas SPECIAL_ACTIONS name = false.
Proof.
  unfold setHas, SURPRISING_ACTIONS, SPECIAL_ACTIONS, OK_ACTIONS. simpl.
  rewrite !orb_false_r. rewrite !orb_true_iff.
  intros H. repeat destruct H as [H|H]; apply String.eqb_eq in H; subst; split; reflexivity.
Qed.

(** The recursive method with its loop over a payload folded back into
    [assertCanMaybeApplyUserActions]. *)
Lemma assertCanMaybeApplyUserAction_unfold ext s a :
  assertCanMaybeApplyUserAction ext s a =
  let name := userActionName a in
  if setHas OK_ACTIONS name then ret true
  else if setHas SPECIAL_ACTIONS name then
    nuanced ← hasNuancedAccess ext s;
    if (nuanced : bool)
    then throw (aclDeny ("Blocked by access rules: '" ++ name
                         ++ "' actions need uncomplicated access"))
    else ret true
  else if setHas SURPRISING_ACTIONS name then
    full ← hasFullAccess ext s;
    if negb full
    then throw (aclDeny ("Blocked by access rules: '" ++ name
                         ++ "' actions need full access"))
    else ret true
  else
    match a with
    | ApplyUndoActions payload => assertCanMaybeApplyUserActions ext s payload
    | ApplyDocActions payload => assertCanMaybeApplyUserActions ext s payload
    | Act _ arg1 =>
        if isDataUserAction a then
          let tableId := arg1 in
          if String.prefix "_grist_" tableId
          then ret false
          else
            tableAccess ← getTableAccess ext s tableId;
            let accessCheck := getAccessForActionType name tableId fatal in
            liftResult (AccessCheck_get accessCheck tableAccess);;
            ret true
        else ret false
    end.
Proof.
  assert (Hall : forall l,
    (fix assertAll (actions : list UserAction) : M bool :=
        match actions with
        | [] => ret true
        | x :: rest =>
            ok ← assertCanMaybeApplyUserAction ext s x;
            if negb ok then ret false else assertAll rest
        end) l = assertCanMaybeApplyUserActions ext s l).
  { induction l as [|x l IH]; simpl; [done|]. by rewrite IH. }
  destruct a; simpl; try rewrite Hall; reflexivity.
Qed.



(** * User attributes that changed during a bundle *)






(** * Censoring the ACL tables *)

Lemma acl_table_structural t : isAclTable t = true ->
  setHas STRUCTURAL_TABLES t = true /\ forall c, censored c t = None.
Proof.
  unfold isAclTable, setHas. simpl. rewrite orb_false_r, orb_true_iff.
  intros [H|H]; apply String.eqb_eq in H; subst; split; reflexivity.
Qed.





(** * Row pruning *)

Open Scope list_scope.

(** ** Stripping by a mask is keeping the other rows *)

Lemma keepRows_ids ids keep : keepRows ids keep ids = List.filter keep ids.
Proof. induction ids as [|id ids IH]; simpl; [done|]. destruct (keep id); by rewrite IH. Qed.

Lemma maskOf_maskFrom oldIds rowIds : maskOf oldIds rowIds = maskFrom 0 oldIds rowIds.
Proof. reflexivity. Qed.

Lemma maskFrom_cons i id oldIds rowIds :
  maskFrom i (id :: oldIds) rowIds
  = (if idsHas rowIds id then [i] else []) ++ maskFrom (S i) oldIds rowIds.
Proof.
  unfold maskFrom. simpl. rewrite Nat.add_0_r.
  assert (Heq : imap ((fun idx id0 => if idsHas rowIds id0 then Some (i + idx)%nat else None) ∘ S) oldIds
              = imap (fun idx id0 => if idsHas rowIds id0 then Some (S i + idx)%nat else None) oldIds).
  { apply imap_ext. intros j x _. simpl. by rewrite Nat.add_succ_r. }
  rewrite Heq. by destruct (idsHas rowIds id).
Qed.

Lemma maskFrom_ge i oldIds rowIds j : j ∈ maskFrom i oldIds rowIds -> (i <= j)%nat.
Proof.
  revert i. induction oldIds as [|id oldIds IH]; intros i; [by intros ?%elem_of_nil|].
  rewrite maskFrom_cons. intros [Hj|Hj]%elem_of_app.
  - destruct (idsHas rowIds id); [apply list_elem_of_singleton in Hj; lia|by apply elem_of_nil in Hj].
  - apply IH in Hj. lia.
Qed.

Lemma pruneArrayFrom_skip {A} i (xs : list A) m1 m2 :
  (forall j, j ∈ m1 -> (j < i)%nat) ->
  pruneArrayFrom i xs (m1 ++ m2) = pruneArrayFrom i xs m2.
Proof.
  revert i. induction xs as [|x xs IH]; intros i Hlt; simpl; [done|].
  rewrite existsb_app.
  assert (Hno : existsb (Nat.eqb i) m1 = false).
  { apply not_true_is_false. intros (j & Hin & Hj)%existsb_exists.
    apply Nat.eqb_eq in Hj. subst j. apply list_elem_of_In in Hin. apply Hlt in Hin. lia. }
  rewrite Hno. simpl.
  rewrite IH by (intros j Hj; apply Hlt in Hj; lia). reflexivity.
Qed.

Lemma existsb_maskFrom_fresh i oldIds rowIds :
  existsb (Nat.eqb i) (maskFrom (S i) oldIds rowIds) = false.
Proof.
  apply not_true_is_false. intros (j & Hin & Hj)%existsb_exists.
  apply Nat.eqb_eq in Hj. subst j. apply list_elem_of_In, maskFrom_ge in Hin. lia.
Qed.

Lemma pruneArrayFrom_nil {A} i (xs : list A) : pruneArrayFrom i xs [] = xs.
Proof. revert i. induction xs as [|x xs IH]; intros i; simpl; [done|]. by rewrite IH. Qed.

Lemma pruneArrayFrom_mask {A} i (xs : list A) oldIds rowIds :
  pruneArrayFrom i xs (maskFrom i oldIds rowIds)
  = keepRows oldIds (fun id => negb (idsHas rowIds id)) xs.
Proof.
  revert i oldIds. induction xs as [|x xs IH]; intros i oldIds; simpl; [done|].
  destruct oldIds as [|id oldIds].
  - unfold maskFrom. simpl. by rewrite pruneArrayFrom_nil.
  - rewrite maskFrom_cons, existsb_app, existsb_maskFrom_fresh, orb_false_r.
    destruct (idsHas rowIds id); simpl.
    + rewrite Nat.eqb_refl. simpl.
      etrans; [apply (pruneArrayFrom_skip (S i) xs [i]);
               intros j ->%list_elem_of_singleton; lia|].
      apply IH.
    + f_equal. apply IH.
Qed.

Lemma pruneArray_mask {A} (xs : list A) oldIds rowIds :
  pruneArray xs (maskOf oldIds rowIds) = keepRows oldIds (fun id => negb (idsHas rowIds id)) xs.
Proof. apply pruneArrayFrom_mask. Qed.

Lemma keepRows_ext {A} ids (k1 k2 : Z -> bool) (xs : list A) :
  (forall id, id ∈ ids -> k1 id = k2 id) -> keepRows ids k1 xs = keepRows ids k2 xs.
Proof.
  revert ids. induction xs as [|x xs IH]; intros ids Hk; simpl; [done|].
  destruct ids as [|id ids]; [done|].
  rewrite (Hk id) by apply list_elem_of_here.
  rewrite (IH ids) by (intros; apply Hk; by apply list_elem_of_further).
  reflexivity.
Qed.

Lemma idsHas_elem s x : idsHas s x = true <-> x ∈ s.
Proof.
  unfold idsHas. rewrite existsb_exists. split.
  - intros (y & Hin & ->%Z.eqb_eq). by apply list_elem_of_In.
  - intros Hin. exists x. split; [by apply list_elem_of_In|apply Z.eqb_refl].
Qed.

Lemma idsHas_filter p s x : idsHas (List.filter p s) x = idsHas s x && p x.
Proof.
  apply eq_true_iff_eq. rewrite andb_true_iff, !idsHas_elem, !list_elem_of_In, filter_In.
  tauto.
Qed.

Lemma newSet_elem s x : x ∈ newSet s <-> x ∈ s.
Proof.
  induction s as [|y s IH]; simpl; [done|].
  rewrite !elem_of_cons, list_elem_of_In, filter_In, <- list_elem_of_In, IH.
  destruct (decide (x = y)) as [->|Hne]; [tauto|].
  assert (negb (Z.eqb x y) = true) by (apply negb_true_iff, Z.eqb_neq; done). tauto.
Qed.

Lemma idsHas_newSet s x : idsHas (newSet s) x = idsHas s x.
Proof. apply eq_true_iff_eq. by rewrite !idsHas_elem, newSet_elem. Qed.

(** ** The store under allocation *)

Lemma allocFrame_refl w : allocFrame w w.
Proof. by constructor. Qed.

Lemma allocFrame_trans w1 w2 w3 : allocFrame w1 w2 -> allocFrame w2 w3 -> allocFrame w1 w3.
Proof.
  intros [] []. constructor; try congruence; [lia|].
  intros l Hl. rewrite af_old1 by lia. by apply af_old0.
Qed.

Lemma allocFrame_alloc w a :
  allocFrame w (setActions (<[nextAction w := a]> (actions w)) (S (nextAction w)) w).
Proof.
  constructor; simpl; try done; [lia|].
  intros l Hl. apply lookup_insert_ne. lia.
Qed.

Lemma holds_frame w w' r val : allocFrame w w' -> holds w r val -> holds w' r val.
Proof.
  intros Hf. destruct r as [l|], val as [x|]; simpl; try done.
  intros [Hl Hx]. split; [pose proof (af_next _ _ Hf); lia|].
  by rewrite (af_old _ _ Hf).
Qed.

Lemma removeRowsAt_mask oldIds rowIds cv :
  _removeRowsAt (maskOf oldIds rowIds) oldIds cv
  = (List.filter (fun id => negb (idsHas rowIds id)) oldIds,
     keepColumns oldIds (fun id => negb (idsHas rowIds id)) <$> cv).
Proof.
  unfold _removeRowsAt.
  destruct (0 <? length (maskOf oldIds rowIds))%nat eqn:Hm.
  - rewrite pruneArray_mask, keepRows_ids. f_equal.
    destruct cv as [cv|]; simpl; [|done]. f_equal. unfold keepColumns.
    apply map_ext. intros [k vals]. simpl. by rewrite pruneArray_mask.
  - apply Nat.ltb_ge in Hm.
    assert (Hnil : maskOf oldIds rowIds = []) by (destruct (maskOf oldIds rowIds); simpl in *; [done|lia]).
    pose proof (pruneArray_mask oldIds oldIds rowIds) as H1.
    rewrite Hnil in H1. unfold pruneArray in H1. rewrite pruneArrayFrom_nil, keepRows_ids in H1.
    rewrite <- H1. f_equal.
    destruct cv as [cv|]; simpl; [|done]. f_equal. unfold keepColumns.
    rewrite <- (map_id cv) at 1. apply map_ext. intros [k vals]. simpl.
    pose proof (pruneArray_mask vals oldIds rowIds) as H2.
    rewrite Hnil in H2. unfold pruneArray in H2. rewrite pruneArrayFrom_nil in H2.
    by rewrite <- H2.
Qed.

Lemma removeRowsValue_spec v rowIds :
  isDataAction v = true ->
  match removeRowsValue v rowIds with
  | SameAction => strippedValue v rowIds = Some v
  | NoAction => strippedValue v rowIds = None
  | CopiedAction copy returned =>
      strippedValue v rowIds = if returned then Some copy else None
  end.
Proof.
  intros Hd. unfold removeRowsValue.
  destruct v; try discriminate Hd; simpl;
    try (destruct (idsHas rowIds rowId); reflexivity);
    rewrite removeRowsAt_mask; simpl;
    destruct (length _ =? 0)%nat; reflexivity.
Qed.

(** ** The plan of [_pruneRows] *)

Lemma idsHas_setAdd s x y : idsHas (setAdd s x) y = idsHas s y || Z.eqb y x.
Proof.
  unfold setAdd. destruct (idsHas s x) eqn:Hx.
  - destruct (Z.eqb_spec y x) as [->|]; [by rewrite Hx|by rewrite orb_false_r].
  - unfold idsHas. rewrite existsb_app. simpl. by rewrite orb_false_r.
Qed.

Lemma planRow_sets name fbs fas p id x :
  let q := planRow name fbs fas p id in
  idsHas (removals q) x
    = idsHas (removals p) x || (Z.eqb x id && stripsRow name (idsHas fbs id) (idsHas fas id))
  /\ idsHas (forceAdds q) x
    = idsHas (forceAdds p) x || (Z.eqb x id && forcesAdd name (idsHas fbs id) (idsHas fas id))
  /\ idsHas (forceRemoves q) x
    = idsHas (forceRemoves p) x
      || (Z.eqb x id && forcesRemove name (idsHas fbs id) (idsHas fas id)).
Proof.
  unfold planRow, stripsRow, forcesAdd, forcesRemove.
  destruct (idsHas fbs id), (idsHas fas id), (isAddLike name), (isUpdate name), (isRemove name);
    simpl; rewrite ?idsHas_setAdd, ?andb_true_r, ?andb_false_r, ?orb_false_r; auto.
Qed.

Lemma planRows_sets name fbs fas ids p x :
  let q := fold_left (planRow name fbs fas) ids p in
  idsHas (removals q) x
    = idsHas (removals p) x || (idsHas ids x && stripsRow name (idsHas fbs x) (idsHas fas x))
  /\ idsHas (forceAdds q) x
    = idsHas (forceAdds p) x || (idsHas ids x && forcesAdd name (idsHas fbs x) (idsHas fas x))
  /\ idsHas (forceRemoves q) x
    = idsHas (forceRemoves p) x
      || (idsHas ids x && forcesRemove name (idsHas fbs x) (idsHas fas x)).
Proof.
  revert p. induction ids as [|id ids IH]; intros p; simpl.
  - by rewrite !orb_false_r.
  - destruct (IH (planRow name fbs fas p id)) as (H1 & H2 & H3).
    destruct (planRow_sets name fbs fas p id x) as (G1 & G2 & G3).
    cbv zeta in *. rewrite H1, H2, H3, G1, G2, G3.
    destruct (Z.eqb_spec x id) as [->|Hne]; simpl;
      rewrite ?orb_false_r; repeat split;
      destruct (idsHas (removals p) _), (idsHas (forceAdds p) _), (idsHas (forceRemoves p) _),
        (idsHas ids _), (stripsRow _ _ _), (forcesAdd _ _ _), (forcesRemove _ _ _); reflexivity.
Qed.

(** ** Running the pieces of [_pruneRows] *)

Section Runs.
Context (ext : Externals).

Lemma getSteps_run w steps :
  _steps (this w) = Some (Ok steps) -> _getSteps ext w = (Ok steps, w).
Proof. intros Hs. unfold _getSteps. munfold. simpl. by rewrite Hs. Qed.

Lemma getStep_run cursor w idx steps :
  actionIdx cursor = Some idx -> _steps (this w) = Some (Ok steps) ->
  _getStep ext cursor w = (Ok (steps !! idx), w).
Proof.
  intros Hi Hs. unfold _getStep. rewrite Hi.
  unfold mbind, M_bind, bind. by rewrite (getSteps_run w steps Hs).
Qed.

Lemma getRuler_run cursor w idx steps step :
  actionIdx cursor = Some idx -> _steps (this w) = Some (Ok steps) ->
  steps !! idx = Some step ->
  _getRuler ext cursor w = (Ok (default (_ruler (this w)) (step_ruler step)), w).
Proof.
  intros Hi Hs Hstep. unfold _getRuler.
  unfold mbind at 1, M_bind at 1, bind at 1, getThis. rewrite Hi, Hs. simpl.
  unfold mbind, M_bind, bind. rewrite (getStep_run cursor w idx steps Hi Hs), Hstep.
  reflexivity.
Qed.

Lemma getRowsBeforeAndAfter_run cursor w idx steps step before after :
  actionIdx cursor = Some idx -> _steps (this w) = Some (Ok steps) ->
  steps !! idx = Some step ->
  rowsBefore step = Some before -> rowsAfter step = Some after ->
  _getRowsBeforeAndAfter ext cursor w = (Ok (before, after), w).
Proof.
  intros Hi Hs Hstep Hb Ha. unfold _getRowsBeforeAndAfter.
  unfold mbind, M_bind, bind. rewrite (getStep_run cursor w idx steps Hi Hs), Hstep.
  simpl. by rewrite Hb, Ha.
Qed.

Lemma getForbiddenRows_run cursor w idx steps step u rl data ids :
  actionIdx cursor = Some idx -> _steps (this w) = Some (Ok steps) ->
  steps !! idx = Some step ->
  rulers w !! default (_ruler (this w)) (step_ruler step) = Some rl ->
  _getUser ext (cursorSession cursor) w = (Ok u, w) ->
  _getForbiddenRows ext cursor data ids w
  = (Ok (forbiddenRows (ruleCollection rl) u data ids 0 (td_rowIds data)), w).
Proof.
  intros Hi Hs Hstep Hr Hu. unfold _getForbiddenRows.
  unfold mbind, M_bind, bind. rewrite (getRuler_run cursor w idx steps step Hi Hs Hstep), Hu.
  unfold readRuler. by rewrite Hr.
Qed.

Lemma makeAdditions_run after adds w :
  exists r w', _makeAdditions after adds w = (Ok r, w')
    /\ allocFrame w w' /\ holds w' r (forceAddValue after adds).
Proof.
  unfold _makeAdditions, forceAddValue.
  destruct (length adds =? 0)%nat.
  { exists None, w. split; [done|]. split; [apply allocFrame_refl|done]. }
  unfold removeRowsValue, tableDataToAction. simpl.
  rewrite removeRowsAt_mask. simpl.
  assert (Hk : forall {A} (xs : list A),
     keepRows (td_rowIds after)
       (fun id => negb (idsHas (newSet (List.filter (fun id0 => negb (idsHas adds id0))
                                          (td_rowIds after))) id)) xs
     = keepRows (td_rowIds after) (idsHas adds) xs).
  { intros A xs. apply keepRows_ext. intros id Hid.
    rewrite idsHas_newSet, idsHas_filter.
    apply idsHas_elem in Hid. rewrite Hid. simpl. apply negb_involutive. }
  assert (Hf : List.filter
                 (fun id => negb (idsHas (newSet (List.filter (fun id0 => negb (idsHas adds id0))
                                                    (td_rowIds after))) id)) (td_rowIds after)
               = List.filter (idsHas adds) (td_rowIds after)).
  { etrans; [symmetry; apply keepRows_ids|]. etrans; [apply Hk|]. apply keepRows_ids. }
  rewrite Hf.
  assert (Hc : keepColumns (td_rowIds after)
                 (fun id => negb (idsHas (newSet (List.filter (fun id0 => negb (idsHas adds id0))
                                                    (td_rowIds after))) id)) (td_columns after)
               = keepColumns (td_rowIds after) (idsHas adds) (td_columns after)).
  { unfold keepColumns. apply map_ext. intros [k vals]. simpl. by rewrite Hk. }
  rewrite Hc.
  destruct (length (List.filter (idsHas adds) (td_rowIds after)) =? 0)%nat; simpl.
  { exists None, w. split; [done|]. split; [apply allocFrame_refl|done]. }
  munfold. simpl. eexists (Some _), _. split; [reflexivity|].
  split; [apply allocFrame_alloc|]. simpl. split; [lia|]. apply lookup_insert_eq.
Qed.

Lemma makeRemovals_run after removes w :
  exists r w', _makeRemovals after removes w = (Ok r, w')
    /\ allocFrame w w' /\ holds w' r (forceRemoveValue after removes).
Proof.
  unfold _makeRemovals, forceRemoveValue.
  destruct (length removes =? 0)%nat.
  { exists None, w. split; [done|]. split; [apply allocFrame_refl|done]. }
  munfold. simpl. eexists (Some _), _. split; [reflexivity|].
  split; [apply allocFrame_alloc|]. simpl. split; [lia|]. apply lookup_insert_eq.
Qed.

Lemma removeRows_run (l : ActionRef) gone w v :
  actions w !! l = Some v -> (l < nextAction w)%nat -> isDataAction v = true ->
  exists r w', _removeRows l gone w = (Ok r, w')
    /\ allocFrame w w' /\ holds w' r (strippedValue v gone).
Proof.
  intros Hv Hl Hd. unfold _removeRows.
  unfold mbind at 1, M_bind at 1, bind at 1, readAction. cbv beta. rewrite Hv.
  pose proof (removeRowsValue_spec v gone Hd) as Hspec.
  destruct (removeRowsValue v gone) as [| |copy returned].
  - exists (Some l), w. split; [done|]. split; [apply allocFrame_refl|].
    rewrite Hspec. simpl. done.
  - exists None, w. split; [done|]. split; [apply allocFrame_refl|]. by rewrite Hspec.
  - unfold cloneDeep. munfold. simpl. rewrite Hv. simpl.
    eexists _, _. split; [reflexivity|]. split.
    + constructor; simpl; try done; [lia|].
      intros l' Hl'. rewrite !lookup_insert_ne by lia. done.
    + rewrite Hspec. destruct returned; simpl; [|done].
      split; [lia|]. apply lookup_insert_eq.
Qed.

End Runs.

Lemma bind_ok_inv {A B} (m : M A) (k : A -> M B) w b w' :
  (m ≫= k) w = (Ok b, w') -> exists a w1, m w = (Ok a, w1) /\ k a w1 = (Ok b, w').
Proof.
  unfold mbind, M_bind, bind. destruct (m w) as [[a|e] w1]; [eauto|discriminate].
Qed.

(** C1, as the code has it.  For a data action at a step and a viewer,
    with [forbiddenBefores] and [forbiddenAfters] the touched ids that the
    viewer cannot read in [rowsBefore] and in [rowsAfter]:
    - an id forbidden both times is stripped from the action, and nothing
      is emitted for it;
    - an id allowed both times is kept;
    - an id that goes from forbidden to allowed is kept when the action is
      an add or a replace ([AddRecord], [BulkAddRecord], [ReplaceTableData],
      [TableData]); otherwise it is stripped, and it is re-emitted in the
      forced BulkAddRecord exactly when the action is an update (for a
      remove it is only stripped);
    - an id that goes from allowed to forbidden is kept when the action is a
      remove; otherwise it is stripped, and it is re-emitted in the forced
      BulkRemoveRecord exactly when the action is an update (for an add or
      a replace it is only stripped);
    - an id that the action does not touch is in none of the three sets.
    The forced addition is a BulkAddRecord of the rows of [rowsAfter] for
    those ids with every column of [rowsAfter]; the pruned original is the
    action without the stripped rows (or nothing when no row is left); the
    forced removal is a BulkRemoveRecord of those ids.  [_pruneRows] builds
    them in the store, scrubs the cells of each in place, and returns, if
    the scrubbing does not throw, the list of those that exist in the
    order forced addition, pruned original, forced removal. *)
Theorem pruneRows_partition (ext : Externals) (cursor : ActionCursor) (w : World)
    (v : DocAction) (before after : TableDataAction) (u : UserInfo) (rl : Ruler)
    (Hready : pruneRowsReady ext cursor w v before after u rl) :
  let name := actionName v in
  let ids := newSet (getRowIdsFromDocAction v) in
  let forbiddenBefores :=
    newSet (forbiddenRows (ruleCollection rl) u before ids 0 (td_rowIds before)) in
  let forbiddenAfters :=
    newSet (forbiddenRows (ruleCollection rl) u after ids 0 (td_rowIds after)) in
  let plan := planRows name forbiddenBefores forbiddenAfters ids in
  (forall id,
     let stripped := idsHas (removals plan) id in
     let added := idsHas (forceAdds plan) id in
     let removed := idsHas (forceRemoves plan) id in
     if negb (idsHas ids id) then stripped = false /\ added = false /\ removed = false
     else
       match idsHas forbiddenBefores id, idsHas forbiddenAfters id with
       | true, true => stripped = true /\ added = false /\ removed = false
       | false, false => stripped = false /\ added = false /\ removed = false
       | true, false =>
           if isAddLike name then stripped = false /\ added = false /\ removed = false
           else stripped = true /\ added = isUpdate name /\ removed = false
       | false, true =>
           if isRemove name then stripped = false /\ added = false /\ removed = false
           else stripped = true /\ added = false /\ removed = isUpdate name
       end)
  /\ exists (additions pruned removed : option ActionRef) (w3 : World),
       allocFrame w w3
       /\ holds w3 additions (forceAddValue after (forceAdds plan))
       /\ holds w3 pruned (strippedValue v (removals plan))
       /\ holds w3 removed (forceRemoveValue after (forceRemoves plan))
       /\ _pruneRows ext cursor w
          = (forEach (filterIsObject [additions; pruned; removed]) tt
               (fun _ a => _filterRowsAndCells ext (withAction cursor a)
                             (Snap after) (Snap after) readAccessCheck);;
             ret (filterIsObject [additions; pruned; removed])) w3
       /\ forall refs w',
            _pruneRows ext cursor w = (Ok refs, w') ->
            refs = filterIsObject [additions; pruned; removed].
Proof.
  intros name ids forbiddenBefores forbiddenAfters plan.
  destruct Hready as [Hv Hl Hd (idx & steps & step & Hi & Hs & Hstep & Hb & Ha & Hr) Hu].
  split.
  - intros id. cbv zeta.
    destruct (planRows_sets name forbiddenBefores forbiddenAfters ids
                {| removals := []; forceAdds := []; forceRemoves := [] |} id) as (H1 & H2 & H3).
    cbv zeta in H1, H2, H3. fold (planRows name forbiddenBefores forbiddenAfters ids) in H1, H2, H3.
    fold plan in H1, H2, H3. rewrite H1, H2, H3. simpl.
    unfold stripsRow, forcesAdd, forcesRemove.
    destruct (idsHas ids id); simpl; [|done].
    destruct (idsHas forbiddenBefores id), (idsHas forbiddenAfters id); simpl;
      [done| |  |done].
    + destruct (isAddLike name); simpl; done.
    + destruct (isRemove name); simpl; done.
  - destruct (makeAdditions_run after (forceAdds plan) w) as (additions & w1 & Hadd & F1 & V1).
    assert (Hv1 : actions w1 !! action cursor = Some v) by (rewrite (af_old _ _ F1); done).
    assert (Hl1 : (action cursor < nextAction w1)%nat) by (pose proof (af_next _ _ F1); lia).
    destruct (removeRows_run (action cursor) (removals plan) w1 v Hv1 Hl1 Hd)
      as (pruned & w2 & Hprune & F2 & V2).
    destruct (makeRemovals_run after (forceRemoves plan) w2) as (removed & w3 & Hrem & F3 & V3).
    exists additions, pruned, removed, w3.
    assert (Hrun : _pruneRows ext cursor w
          = (forEach (filterIsObject [additions; pruned; removed]) tt
               (fun _ a => _filterRowsAndCells ext (withAction cursor a)
                             (Snap after) (Snap after) readAccessCheck);;
             ret (filterIsObject [additions; pruned; removed])) w3).
    { unfold _pruneRows.
      unfold mbind at 1, M_bind at 1, bind at 1, readAction. cbv beta. rewrite Hv, Hd. cbn [negb].
      unfold mbind at 1, M_bind at 1, bind at 1.
      rewrite (getRowsBeforeAndAfter_run ext cursor w idx steps step before after Hi Hs Hstep Hb Ha).
      unfold mbind at 1, M_bind at 1, bind at 1.
      rewrite (getForbiddenRows_run ext cursor w idx steps step u rl before _ Hi Hs Hstep Hr Hu).
      unfold mbind at 1, M_bind at 1, bind at 1.
      rewrite (getForbiddenRows_run ext cursor w idx steps step u rl after _ Hi Hs Hstep Hr Hu).
      fold ids. fold forbiddenBefores. fold forbiddenAfters. fold name. fold plan.
      unfold mbind at 1, M_bind at 1, bind at 1. rewrite Hadd.
      unfold mbind at 1, M_bind at 1, bind at 1. rewrite Hprune.
      unfold mbind at 1, M_bind at 1, bind at 1. rewrite Hrem.
      reflexivity. }
    split; [eauto using allocFrame_trans|].
    split; [eauto using holds_frame, allocFrame_trans|].
    split; [eauto using holds_frame|].
    split; [done|]. split; [exact Hrun|].
    intros refs w' Hok. rewrite Hrun in Hok.
    apply bind_ok_inv in Hok as (x & w4 & _ & Hret). by injection Hret as <- _.
Qed.

(** The update of [Demo.swap], ready to be pruned for the viewer. *)
Lemma swap_ready :
  pruneRowsReady (Demo.ext Demo.swapBefore Demo.swapAfter) Demo.cursor0
    (Demo.readyWorld Demo.swapBefore Demo.swapAfter [Demo.swap]) Demo.swap
    (Demo.tableT Demo.swapBefore) (Demo.tableT Demo.swapAfter) Demo.viewerInfo
    {| ruleCollection := Demo.rules; _permissionInfoMap := ∅ |}.
Proof.
  constructor.
  - reflexivity.
  - vm_compute. lia.
  - reflexivity.
  - eexists _, _, _. repeat split; reflexivity.
  - vm_compute. reflexivity.
Qed.

(** Row 5 becomes visible and row 7 becomes hidden in one update: a forced
    addition of row 5 with its full row, no pruned original, a forced
    removal of row 7. *)
Lemma pruneRows_partition_witness :
  exists (additions pruned removed : option ActionRef) (w3 : World),
    holds w3 additions
      (Some (BulkAddRecord "T" [5]
               [("status", [CStr "open"]); ("note", [CStr "ok"]); ("secret", [CStr "x"])]))
    /\ holds w3 pruned None
    /\ holds w3 removed (Some (BulkRemoveRecord "T" [7]))
    /\ forall refs w',
         _pruneRows (Demo.ext Demo.swapBefore Demo.swapAfter) Demo.cursor0
           (Demo.readyWorld Demo.swapBefore Demo.swapAfter [Demo.swap]) = (Ok refs, w') ->
         refs = filterIsObject [additions; pruned; removed].
Proof.
  destruct (pruneRows_partition _ _ _ _ _ _ _ _ swap_ready)
    as (_ & additions & pruned & removed & w3 & _ & Ha & Hp & Hr & _ & Hres).
  exists additions, pruned, removed, w3.
  split; [exact Ha|]. split; [exact Hp|]. split; [exact Hr|exact Hres].
Defined.

(** C1, as claimed, fails.  A BulkRemoveRecord removes row 5, which the
    viewer could not read: the id is forbidden before and, the row being
    gone, not forbidden after; the action is not an add or a replace.  The
    id is stripped and [_pruneRows] returns the empty list: no BulkAddRecord
    is emitted.  Likewise a BulkAddRecord adds row 6 as a draft: the id is
    allowed before and forbidden after, the action is not a remove; it is
    stripped and no BulkRemoveRecord is emitted. *)
Lemma pruneRows_strips_without_emitting :
  let hidden := [Demo.row 5 "draft"] in
  let remove := BulkRemoveRecord "T" [5] in
  let draft := [Demo.row 6 "draft"] in
  let add := BulkAddRecord "T" [6] [("status", [CStr "draft"]); ("note", [CStr "n"])] in
  (forbiddenRows Demo.rules Demo.viewerInfo (Demo.tableT hidden) [5] 0 [5] = [5]
   /\ forbiddenRows Demo.rules Demo.viewerInfo (Demo.tableT []) [5] 0 [] = []
   /\ isAddLike (actionName remove) = false
   /\ fst (_pruneRows (Demo.ext hidden []) Demo.cursor0 (Demo.readyWorld hidden [] [remove]))
      = Ok [])
  /\ (forbiddenRows Demo.rules Demo.viewerInfo (Demo.tableT []) [6] 0 [] = []
      /\ forbiddenRows Demo.rules Demo.viewerInfo (Demo.tableT draft) [6] 0 [6] = [6]
      /\ isRemove (actionName add) = false
      /\ fst (_pruneRows (Demo.ext [] draft) Demo.cursor0 (Demo.readyWorld [] draft [add]))
         = Ok []).
Proof. vm_compute. auto 10. Qed.

(** * The outgoing filter and the actions it is given *)

(** C10, at the failing input.  The claim: [filterOutgoingDocActions]
    never mutates the DocAction objects it is given.  The code: when the
    table's read permission is mixed, [_pruneRows] hands a single-record
    action that keeps its row back as it is ([_removeRows] returns [a]
    itself, not a copy), and [_filterRowsAndCells] then scrubs the denied
    cells of that very object; the copy that [_pruneColumns] makes comes
    after.  Here the viewer may read row 5 of [T] but not its [secret]
    column; the action given, at reference 0, is an UpdateRecord of [note]
    and [secret].  The filter returns one new action, without the secret
    column; and the action it was given now holds ["CENSORED"] where the
    secret was. *)
Theorem filterOutgoingDocActions_censors_its_input :
  let rows := [Demo.row 5 "open"] in
  let w := Demo.world Demo.rules [Demo.touch] (Some (Demo.bundleOf [Demo.touch] true false)) in
  let run := filterOutgoingDocActions (Demo.ext rows rows) Demo.viewer [0%nat] w in
  actions w !! 0%nat = Some (UpdateRecord "T" 5 [("note", CStr "ok"); ("secret", CStr "x")])
  /\ fst run = Ok [1%nat]
  /\ actions (snd run) !! 1%nat = Some (UpdateRecord "T" 5 [("note", CStr "ok")])
  /\ actions (snd run) !! 0%nat
     = Some (UpdateRecord "T" 5 [("note", CStr "ok"); ("secret", CStr "CENSORED")]).
Proof. vm_compute. auto. Qed.

(** * Filtering twice *)

Section Identity.
Context (ext : Externals).






End Identity.



Open Scope string_scope.

(** * Further properties of the engine *)

(** ** The scan of user actions *)

(** X3.  [scanActionsRecursively] tests the user actions that come before
    the first [ApplyUndoActions] or [ApplyDocActions] of the list, then
    answers for the payload of that container alone: what follows the
    container is never looked at. *)
Theorem scanActionsRecursively_first_container (l : list UserAction)
    (check : UserAction -> bool) :
  scanActionsRecursively l check
  = existsb check (beforeFirstContainer l)
    || scanActionsRecursively (firstContainerPayload l) check.
Proof.
  induction l as [|a l IH]; [by simp scanActionsRecursively|].
  destruct a; simp scanActionsRecursively;
    cbn [beforeFirstContainer firstContainerPayload existsb].
  all: try reflexivity.
  rewrite IH. by destruct (check _).
Qed.

(** ** Starting and finishing a bundle *)

(** X4.  Starting a bundle on an idle engine and finishing it at once gives
    back the engine as it was: the bundle is recorded, not yet applied,
    with the doc actions given, and [finishedBundle] removes every trace
    of it. *)
Theorem begin_then_finish_restores ext s das undo uas w :
  idle w ->
  exists w1,
    getGranularAccessForBundle s das undo uas w = (Ok tt, w1)
    /\ (docActions <$> _activeBundle (this w1)) = Some das
    /\ (applied <$> _activeBundle (this w1)) = Some false
    /\ finishedBundle ext w1 = (Ok tt, w).
Proof.
  intros (Hb & Hs & Hp).
  unfold getGranularAccessForBundle, finishedBundle. munfold. simpl. rewrite Hb. simpl.
  eexists. split; [reflexivity|]. simpl. repeat split.
  destruct w as [acts n rs nr g]. destruct g. simpl in *. subst. reflexivity.
Qed.

Lemma begin_then_finish_restores_witness :
  exists w1,
    getGranularAccessForBundle Demo.owner [Demo.plain] [] [] (Demo.world Demo.rules [] None)
    = (Ok tt, w1)
    /\ (docActions <$> _activeBundle (this w1)) = Some [Demo.plain]
    /\ (applied <$> _activeBundle (this w1)) = Some false
    /\ finishedBundle (Demo.ext [] []) w1 = (Ok tt, Demo.world Demo.rules [] None).
Proof.
  apply (begin_then_finish_restores (Demo.ext [] []) Demo.owner [Demo.plain] [] []
           (Demo.world Demo.rules [] None)).
  repeat split.
Defined.

(** ** Memoised lookups *)

(** X5.  [_getSteps] computes the steps of the bundle once: a second call
    returns what the first returned, a failure included, and changes
    nothing. *)
Theorem getSteps_memo ext w :
  _getSteps ext (snd (_getSteps ext w)) = (fst (_getSteps ext w), snd (_getSteps ext w)).
Proof.
  unfold _getSteps at 2 3 4. munfold. simpl.
  destruct (_steps (this w)) as [settled|] eqn:Hs.
  - destruct settled; simpl; unfold _getSteps; munfold; simpl; rewrite Hs; reflexivity.
  - destruct (_getUncachedSteps ext w) as [res w'] eqn:Hu. simpl.
    unfold _getSteps. munfold. simpl. destruct res; reflexivity.
Qed.

Lemma Ruler_getAccess_again ext r s w :
  Ruler_getAccess ext r s (snd (Ruler_getAccess ext r s w))
  = (fst (Ruler_getAccess ext r s w), snd (Ruler_getAccess ext r s w)).
Proof.
  destruct (Ruler_getAccess ext r s w) as [res w2] eqn:Hrun. simpl.
  unfold Ruler_getAccess in Hrun. munfold. simpl in Hrun.
  destruct (rulers w !! r) as [x|] eqn:Hx.
  - destruct (_permissionInfoMap x !! sessionKey s) as [cached|] eqn:Hc.
    + assert (res = cached /\ w2 = w) as [-> ->].
      { destruct cached; by inversion Hrun. }
      unfold Ruler_getAccess. munfold. simpl. rewrite Hx, Hc. by destruct cached.
    + pose proof (getUser_frame ext s w) as Hu.
      destruct (_getUser ext s w) as [[u|e] w1]; simpl in *.
      * pose proof (fr_rules _ _ Hu r) as Hr. rewrite Hx in Hr.
        destruct (rulers w1 !! r) as [x'|] eqn:Hx'; [|discriminate Hr].
        simpl in Hrun. inversion Hrun; subst; clear Hrun.
        unfold Ruler_getAccess. munfold. simpl.
        rewrite lookup_insert_eq. simpl. rewrite lookup_insert_eq. reflexivity.
      * pose proof (fr_rules _ _ Hu r) as Hr. rewrite Hx in Hr.
        destruct (rulers w1 !! r) as [x'|] eqn:Hx'; [|discriminate Hr].
        simpl in Hrun. inversion Hrun; subst; clear Hrun.
        unfold Ruler_getAccess. munfold. simpl.
        rewrite lookup_insert_eq. simpl. rewrite lookup_insert_eq. reflexivity.
  - inversion Hrun; subst. unfold Ruler_getAccess. munfold. simpl. by rewrite Hx.
Qed.

(** X6.  [Ruler.getAccess] resolves the permissions of a session once: a
    second call for the same session returns what the first returned, a
    failure included, and leaves the engine as the first call left it. *)
Theorem Ruler_getAccess_memo ext r s w :
  Ruler_getAccess ext r s (snd (Ruler_getAccess ext r s w))
  = (fst (Ruler_getAccess ext r s w), snd (Ruler_getAccess ext r s w)).
Proof. apply Ruler_getAccess_again. Qed.

(** ** The user of a session *)

Lemma objGet_objSet_eq {V} (o : Obj V) k v : objGet (objSet o k v) k = Some v.
Proof.
  induction o as [|[k' v'] o IH]; simpl.
  - by rewrite String.eqb_refl.
  - destruct (String.eqb k' k) eqn:He; simpl; rewrite He; [done|exact IH].
Qed.

Lemma objGet_objSet_ne {V} (o : Obj V) k k' v : k <> k' -> objGet (objSet o k v) k' = objGet o k'.
Proof.
  intros Hne. induction o as [|[k0 v0] o IH]; simpl.
  - destruct (String.eqb k k') eqn:He; [apply String.eqb_eq in He; done|done].
  - destruct (String.eqb k0 k) eqn:He; simpl.
    + apply String.eqb_eq in He. subst k0.
      destruct (String.eqb k k') eqn:He'; [apply String.eqb_eq in He'; done|done].
    + by rewrite IH.
Qed.

Section User.
Context (ext : Externals) (fetch : Query -> Result TableDataAction).

Lemma step_override st c :
  override (snd (userAttributeStep ext fetch st c)) = override (snd st).
Proof.
  destruct st as [u a]. unfold userAttributeStep.
  destruct (userHasKey u (ua_name c)); [done|].
  destruct (objGet (rows a) (ua_name c)); done.
Qed.

Lemma fold_override rules st :
  override (snd (fold_left (userAttributeStep ext fetch) rules st)) = override (snd st).
Proof.
  revert st. induction rules as [|c rules IH]; intros st; simpl; [done|].
  by rewrite IH, step_override.
Qed.

Lemma step_rows_mono st c n v :
  objGet (rows (snd st)) n = Some v ->
  objGet (rows (snd (userAttributeStep ext fetch st c))) n = Some v.
Proof.
  destruct st as [u a]. unfold userAttributeStep. simpl. intros Hn.
  destruct (userHasKey u (ua_name c)); [done|].
  destruct (objGet (rows a) (ua_name c)) eqn:Hc; [done|]. simpl.
  rewrite objGet_objSet_ne; [done|]. intros Heq. rewrite Heq in Hc. congruence.
Qed.

Lemma fold_rows_mono rules st n v :
  objGet (rows (snd st)) n = Some v ->
  objGet (rows (snd (fold_left (userAttributeStep ext fetch) rules st))) n = Some v.
Proof.
  revert st. induction rules as [|c rules IH]; intros st Hn; simpl; [done|].
  apply IH. by apply step_rows_mono.
Qed.

Lemma fold_replay rules u a a' :
  (forall n v,
     objGet (rows (snd (fold_left (userAttributeStep ext fetch) rules (u, a)))) n = Some v ->
     objGet (rows a') n = Some v) ->
  fold_left (userAttributeStep ext fetch) rules (u, a')
  = (fst (fold_left (userAttributeStep ext fetch) rules (u, a)), a').
Proof.
  revert u a. induction rules as [|c rules IH]; intros u a Ha'; cbn [fold_left] in *; [done|].
  destruct (userAttributeStep ext fetch (u, a) c) as [u2 a2] eqn:Hstep.
  assert (Hstep' : userAttributeStep ext fetch (u, a') c = (u2, a')).
  { unfold userAttributeStep in *.
    destruct (userHasKey u (ua_name c)); [by inversion Hstep|].
    destruct (objGet (rows a) (ua_name c)) as [v|] eqn:Hc.
    - inversion Hstep; subst.
      rewrite (Ha' (ua_name c) v); [done|]. by apply fold_rows_mono.
    - inversion Hstep; subst. clear Hstep.
      match goal with |- context [objSet (userAttrs u) _ ?r] => set (rr := r) in * end.
      rewrite (Ha' (ua_name c) rr); [done|].
      apply fold_rows_mono. simpl. apply objGet_objSet_eq. }
  rewrite Hstep'. by apply IH.
Qed.

End User.
Section G.
Context (ext : Externals).

Lemma getUser_prepare s w :
  _getUser ext s w = _getUser ext s (snd (_getUserAttributes s w)).
Proof.
  unfold _getUser at 1 2. unfold _getUserAttributes. munfold. simpl.
  destruct (_userAttributesMap (this w) !! sessionKey s) as [attrs|] eqn:Hl; simpl.
  - rewrite Hl. reflexivity.
  - rewrite lookup_insert_eq. reflexivity.
Qed.

Lemma getUserAttributes_some s w :
  is_Some (_userAttributesMap (this (snd (_getUserAttributes s w))) !! sessionKey s).
Proof.
  unfold _getUserAttributes. munfold. simpl.
  destruct (_userAttributesMap (this w) !! sessionKey s) as [attrs|] eqn:Hl; simpl.
  - by rewrite Hl.
  - rewrite lookup_insert_eq. done.
Qed.

Lemma world_attrs_id w k a :
  _userAttributesMap (this w) !! k = Some a ->
  setThis (set_userAttributesMap (<[k := a]> (_userAttributesMap (this w))) (this w)) w = w.
Proof.
  intros H. destruct w as [acts n rs nr g]. destruct g. simpl in *.
  unfold setThis, set_userAttributesMap. simpl. by rewrite insert_id.
Qed.

Lemma getUser_stable_at s w attrs :
  _userAttributesMap (this w) !! sessionKey s = Some attrs ->
  _getUser ext s (snd (_getUser ext s w)) = (fst (_getUser ext s w), snd (_getUser ext s w)).
Proof.
  intros Hl.
  destruct (_getUser ext s w) as [res w1] eqn:Hrun. simpl.
  unfold _getUser in Hrun. unfold _getUserAttributes in Hrun. munfold. simpl in Hrun.
  rewrite Hl in Hrun.
  repeat (case_match; simplify_eq/=).
  all: unfold _getUser, _getUserAttributes; munfold; simpl.
  all: try rewrite lookup_insert_eq; try rewrite Hl; simpl.
  all: repeat match goal with H : _ = _ |- _ => rewrite H end; simpl.
  all: try reflexivity.
  all: try match goal with
       | H3 : fold_left (userAttributeStep _ ?fetch) ?rules (?u, ?a) = (?u0, ?u1) |- _ =>
           pose proof (fold_override ext fetch rules (u, a)) as Hov;
           rewrite H3 in Hov; simpl in Hov;
           pose proof (fold_replay ext fetch rules u a u1) as Hrep;
           rewrite H3 in Hrep; simpl in Hrep; specialize (Hrep (fun _ _ H => H))
       end.
  all: rewrite ?Hov; simpl.
  all: repeat (match goal with H : _ = _ |- _ => rewrite H end; simpl).
  all: rewrite ?Hrep; simpl; rewrite ?insert_insert_eq; try reflexivity.
  match goal with H : (_, _) = (_, _) |- _ => inversion H; subst; clear H end.
  rewrite Hl. simpl. rewrite H2, H3. reflexivity.
Qed.

(** X7.  [_getUser] resolves the user of a session once per state of the
    engine: a second call, in the state the first call left, returns what
    the first returned (a failure included) and changes nothing; the rows
    looked up for the user attributes are not fetched again. *)
Theorem getUser_idempotent s w :
  _getUser ext s (snd (_getUser ext s w)) = (fst (_getUser ext s w), snd (_getUser ext s w)).
Proof.
  rewrite (getUser_prepare s w).
  destruct (getUserAttributes_some s w) as [attrs Hl].
  by apply getUser_stable_at with attrs.
Qed.
End G.

(** ** Who the session is *)

Section G.
Context (ext : Externals).

Lemma getNominalAccess_plain s w :
  overridesUser s = false ->
  _getNominalAccess ext s w = (Ok (getDocSessionAccess s), w).
Proof. unfold overridesUser, _getNominalAccess. intros ->. reflexivity. Qed.

Lemma isOwner_plain s w :
  overridesUser s = false ->
  isOwner ext s w = (Ok (bool_decide (getDocSessionAccess s = Some owners)), w).
Proof. intros H. unfold isOwner. munfold. by rewrite getNominalAccess_plain. Qed.

(** X8.  A session that does not ask to be seen as another user is judged
    by its own role, without touching the engine: it has full access
    exactly when its role is owner, and nuanced access exactly when rules
    exist and it is not an owner.  So a SPECIAL action is refused for it
    exactly when rules exist and it is not an owner, and a SURPRISING
    action exactly when it is not an owner; an owner may always scan
    data. *)
Theorem plain_session_access s w r :
  overridesUser s = false ->
  rulers w !! _ruler (this w) = Some r ->
  let own := bool_decide (getDocSessionAccess s = Some owners) in
  let nuanced := rc_haveRules (ruleCollection r) && negb own in
  hasFullAccess ext s w = (Ok own, w)
  /\ hasNuancedAccess ext s w = (Ok nuanced, w)
  /\ (own = true -> canScanData ext s w = (Ok true, w))
  /\ forall name arg1,
       (setHas SPECIAL_ACTIONS name = true ->
          assertCanMaybeApplyUserAction ext s (Act name arg1) w
          = if nuanced
            then (Throw (aclDeny ("Blocked by access rules: '" ++ name
                                  ++ "' actions need uncomplicated access")), w)
            else (Ok true, w))
       /\ (setHas SURPRISING_ACTIONS name = true ->
           assertCanMaybeApplyUserAction ext s (Act name arg1) w
           = if own
             then (Ok true, w)
             else (Throw (aclDeny ("Blocked by access rules: '" ++ name
                                   ++ "' actions need full access")), w)).
Proof.
  intros Hs Hr own nuanced.
  assert (Ho : isOwner ext s w = (Ok own, w)) by (by apply isOwner_plain).
  assert (Hf : hasFullAccess ext s w = (Ok own, w)) by exact Ho.
  assert (Hn : hasNuancedAccess ext s w = (Ok nuanced, w)).
  { unfold hasNuancedAccess, mbind, M_bind, bind. rewrite (haveRules_run w r Hr).
    subst nuanced. destruct (rc_haveRules (ruleCollection r)); simpl; [|reflexivity].
    by rewrite Hf. }
  split; [exact Hf|]. split; [exact Hn|]. split.
  { intros Hown. unfold canScanData, mbind, M_bind, bind. by rewrite Ho, Hown. }
  intros name arg1. split; intros Hname.
  - rewrite assertCanMaybeApplyUserAction_unfold. cbv zeta.
    change (userActionName (Act name arg1)) with name.
    rewrite (special_not_ok _ Hname), Hname. unfold mbind, M_bind, bind. rewrite Hn.
    by destruct nuanced.
  - rewrite assertCanMaybeApplyUserAction_unfold. cbv zeta.
    change (userActionName (Act name arg1)) with name.
    destruct (surprising_not_ok_special _ Hname) as [-> ->]. rewrite Hname.
    unfold mbind, M_bind, bind. rewrite Hf. by destruct own.
Qed.

End G.

Lemma plain_session_access_witness :
  let w := Demo.world Demo.rules [] None in
  hasNuancedAccess (Demo.ext [] []) Demo.viewer w = (Ok true, w)
  /\ assertCanMaybeApplyUserAction (Demo.ext [] []) Demo.owner (Act "InitNewDoc" "") w
     = (Ok true, w).
Proof.
  split.
  - exact (proj1 (proj2 (plain_session_access (Demo.ext [] []) Demo.viewer
                           (Demo.world Demo.rules [] None)
                           {| ruleCollection := Demo.rules; _permissionInfoMap := ∅ |}
                           eq_refl eq_refl))).
  - exact (proj1 (proj2 (proj2 (proj2
             (plain_session_access (Demo.ext [] []) Demo.owner
                (Demo.world Demo.rules [] None)
                {| ruleCollection := Demo.rules; _permissionInfoMap := ∅ |}
                eq_refl eq_refl))) "InitNewDoc" "") eq_refl).
Defined.

Section G.
Context (ext : Externals).

Lemma getUser_not_owner s w :
  overridesUser s = true ->
  getDocSessionAccess s <> Some owners ->
  fst (_getUser ext s w) = Throw onlyOwner.
Proof.
  unfold overridesUser. intros Hs Ha. unfold _getUser, _getUserAttributes. munfold. simpl.
  rewrite Hs. rewrite bool_decide_eq_false_2 by done. simpl.
  destruct (_userAttributesMap (this w) !! sessionKey s); reflexivity.
Qed.

(** X9.  A session that asks to be seen as another user and whose own role
    is not owner gets nothing: resolving its user, its nominal access,
    whether it is an owner, whether it can read everything or scan data,
    and (when no permissions are cached for it) its permissions, all fail
    with the error "only an owner can override user". *)
Theorem only_an_owner_overrides s w :
  overridesUser s = true ->
  getDocSessionAccess s <> Some owners ->
  fst (_getUser ext s w) = Throw onlyOwner
  /\ fst (_getNominalAccess ext s w) = Throw onlyOwner
  /\ fst (isOwner ext s w) = Throw onlyOwner
  /\ fst (canReadEverything ext s w) = Throw onlyOwner
  /\ fst (canScanData ext s w) = Throw onlyOwner
  /\ (forall r, rulers w !! _ruler (this w) = Some r ->
        _permissionInfoMap r !! sessionKey s = None ->
        fst (_getAccess ext s w) = Throw onlyOwner).
Proof.
  intros Hs Ha. pose proof (getUser_not_owner s w Hs Ha) as Hu.
  assert (Hn : fst (_getNominalAccess ext s w) = Throw onlyOwner).
  { unfold _getNominalAccess. fold (overridesUser s). rewrite Hs.
    unfold mbind, M_bind, bind. destruct (_getUser ext s w) as [[u|e] w1]; simpl in *; congruence. }
  assert (Ho : fst (isOwner ext s w) = Throw onlyOwner).
  { unfold isOwner, mbind, M_bind, bind.
    destruct (_getNominalAccess ext s w) as [[u|e] w1]; simpl in *; congruence. }
  repeat split; try done.
  - unfold canReadEverything, mbind, M_bind, bind.
    destruct (_getNominalAccess ext s w) as [[u|e] w1]; simpl in *; congruence.
  - unfold canScanData, mbind, M_bind, bind.
    destruct (isOwner ext s w) as [[u|e] w1]; simpl in *; congruence.
  - intros r Hr Hc. unfold _getAccess, Ruler_getAccess. munfold. simpl.
    rewrite Hr, Hc.
    pose proof (getUser_frame ext s w) as Hf.
    destruct (_getUser ext s w) as [[u|e] w1]; simpl in *; [discriminate|].
    injection Hu as ->.
    pose proof (fr_rules _ _ Hf (_ruler (this w))) as Hrr. rewrite Hr in Hrr.
    destruct (rulers w1 !! _ruler (this w)); [reflexivity|discriminate].
Qed.

End G.

Lemma only_an_owner_overrides_witness :
  fst (_getUser (Demo.ext [] []) Cases.impersonator (Demo.world Demo.rules [] None))
  = Throw onlyOwner
  /\ fst (canScanData (Demo.ext [] []) Cases.impersonator (Demo.world Demo.rules [] None))
     = Throw onlyOwner.
Proof.
  pose proof (only_an_owner_overrides (Demo.ext [] []) Cases.impersonator
                (Demo.world Demo.rules [] None) eq_refl ltac:(discriminate))
    as (H1 & _ & _ & _ & H5 & _).
  split; [exact H1|exact H5].
Defined.


Section G.
Context (ext : Externals).

Lemma step_access fetch st c :
  Access (fst (userAttributeStep ext fetch st c)) = Access (fst st).
Proof.
  destruct st as [u a]. unfold userAttributeStep.
  destruct (userHasKey u (ua_name c)); [done|].
  destruct (objGet (rows a) (ua_name c)); done.
Qed.

Lemma fold_access fetch rules st :
  Access (fst (fold_left (userAttributeStep ext fetch) rules st)) = Access (fst st).
Proof.
  revert st. induction rules as [|c rules IH]; intros st; simpl; [done|].
  by rewrite IH, step_access.
Qed.


(** X11.  An owner who passes [aclAsUserId] is judged as the user of that
    id: the nominal access is the one the home database records for that
    user on this document, [isOwner] answers for that access, and the
    override is stored with the attributes of the session. *)
Theorem owner_views_as_user s w str n db r :
  linkParam (sessionLinkParameters s) "aclAsUserId" = Some str ->
  getDocSessionAccess s = Some owners ->
  (_userAttributesMap (this w) !! sessionKey s) ≫= override = None ->
  _homeDbManager (this w) = Some db ->
  integerParam ext str = Ok n ->
  rulers w !! _ruler (this w) = Some r ->
  rc_ruleError (ruleCollection r) = None ->
  let access' := db_getUser db n ≫= (fun u => db_getDocAuthCached db (_docId (this w)) (fu_id u)) in
  let w1 := snd (_getNominalAccess ext s w) in
  fst (_getNominalAccess ext s w) = Ok access'
  /\ fst (isOwner ext s w) = Ok (bool_decide (access' = Some owners))
  /\ (_userAttributesMap (this w1) !! sessionKey s) ≫= override
     = Some {| ov_access := access'; ov_user := db_makeFullUser db <$> db_getUser db n |}.
Proof.
  intros Hl Ha Hov Hdb Hn Hr He access' w1.
  assert (Hrun : fst (_getNominalAccess ext s w) = Ok access'
                 /\ (_userAttributesMap (this w1) !! sessionKey s) ≫= override
                    = Some {| ov_access := access';
                              ov_user := db_makeFullUser db <$> db_getUser db n |}).
  { subst w1. unfold _getNominalAccess. rewrite Hl. simpl.
    unfold _getUser, _getUserAttributes. munfold. simpl. rewrite Hl. simpl. rewrite Ha. simpl.
    destruct (_userAttributesMap (this w) !! sessionKey s) as [attrs|] eqn:Hm; simpl in *.
    - rewrite Hov, Hdb. simpl. rewrite Hn. simpl. rewrite Hr. simpl. rewrite He.
      match goal with |- context [fold_left ?f ?l ?st] =>
        pose proof (fold_access (_fetchQueryFromDB (this w)) l st) as Hacc;
        pose proof (fold_override ext (_fetchQueryFromDB (this w)) l st) as Hovr;
        destruct (fold_left f l st) as [u' a'] end.
      simpl in *. rewrite lookup_insert_eq. simpl. rewrite Hacc, Hovr.
      subst access'. by destruct (db_getUser db n).
    - rewrite Hdb. simpl. rewrite Hn. simpl. rewrite Hr. simpl. rewrite He.
      match goal with |- context [fold_left ?f ?l ?st] =>
        pose proof (fold_access (_fetchQueryFromDB (this w)) l st) as Hacc;
        pose proof (fold_override ext (_fetchQueryFromDB (this w)) l st) as Hovr;
        destruct (fold_left f l st) as [u' a'] end.
      simpl in *. rewrite lookup_insert_eq. simpl. rewrite Hacc, Hovr.
      subst access'. by destruct (db_getUser db n). }
  destruct Hrun as [H1 H2]. split; [exact H1|]. split; [|exact H2].
  clear H2. subst w1. unfold isOwner, mbind, M_bind, bind.
  destruct (_getNominalAccess ext s w) as [res w2]. simpl in H1. subst res. reflexivity.
Qed.

End G.

Lemma owner_views_as_user_witness :
  fst (_getNominalAccess Cases.ext Cases.ownerAsViewer Cases.dbWorld) = Ok (Some editors)
  /\ fst (isOwner Cases.ext Cases.ownerAsViewer Cases.dbWorld) = Ok false.
Proof.
  pose proof (owner_views_as_user Cases.ext Cases.ownerAsViewer Cases.dbWorld "7" 7
                Cases.homeDb (Cases.rulerOf Demo.rules)
                eq_refl eq_refl eq_refl eq_refl eq_refl eq_refl eq_refl) as (H1 & H2 & _).
  split; [exact H1|exact H2].
Defined.



(** ** Data actions at the ingress check *)

Section G.
Context (ext : Externals).

Lemma setHas_cases (l : list string) x : setHas l x = true -> In x l.
Proof.
  unfold setHas. intros H. apply existsb_exists in H as (y & Hy & He).
  apply String.eqb_eq in He. by subst.
Qed.

Lemma structural_prefix t : setHas STRUCTURAL_TABLES t = true -> String.prefix "_grist_" t = true.
Proof.
  intros H. apply setHas_cases in H. simpl in H.
  repeat (destruct H as [<-|H]; [reflexivity|]). done.
Qed.

(** X12.  A data user action ([AddRecord], [UpdateRecord], ...) on a table
    whose name starts with [_grist_] is left to the closer look; on any
    other table it is refused with ACL_DENY exactly when the table
    permission for the kind of the action (create, update, delete, or
    schema edit for [ReplaceTableData] and [TableData]) is [deny], and
    passes otherwise; a failure to resolve the permissions is passed on. *)
Theorem ingress_data_action s name tableId w :
  setHas ACTION_WITH_TABLE_ID name = true ->
  (String.prefix "_grist_" tableId = true ->
     assertCanMaybeApplyUserAction ext s (Act name tableId) w = (Ok false, w))
  /\ (String.prefix "_grist_" tableId = false ->
      match _getAccess ext s w with
      | (Ok p, w1) =>
          let ps := PermissionInfo_getTableAccess p tableId in
          assertCanMaybeApplyUserAction ext s (Act name tableId) w
          = if bool_decide (permAt (perms ps) (checkedPermission name) = deny)
            then (Throw (ErrorWithCode "ACL_DENY" ("Blocked by " ++ ruleType ps ++ " access rules")),
                  w1)
            else (Ok true, w1)
      | (Throw e, w1) =>
          assertCanMaybeApplyUserAction ext s (Act name tableId) w = (Throw e, w1)
      end).
Proof.
  intros Hn. rewrite assertCanMaybeApplyUserAction_unfold. cbv zeta.
  assert (Hcls : setHas OK_ACTIONS name = false /\ setHas SPECIAL_ACTIONS name = false
                 /\ setHas SURPRISING_ACTIONS name = false
                 /\ forall t, String.prefix "_grist_" t = false ->
                      getAccessForActionType name t fatal = accessChecks fatal (checkedPermission name)).
  { apply setHas_cases in Hn. simpl in Hn.
    repeat (destruct Hn as [<-|Hn];
            [repeat split; try reflexivity; intros t Ht; unfold getAccessForActionType;
             destruct (setHas STRUCTURAL_TABLES t) eqn:Hst;
             [apply structural_prefix in Hst; congruence|reflexivity] |]).
    done. }
  destruct Hcls as (H1 & H2 & H3 & H4).
  change (userActionName (Act name tableId)) with name.
  rewrite H1, H2, H3.
  change (isDataUserAction (Act name tableId)) with (setHas ACTION_WITH_TABLE_ID name).
  rewrite Hn.
  split; intros Hp; rewrite Hp; [reflexivity|].
  unfold getTableAccess, mbind, M_bind, bind.
  destruct (_getAccess ext s w) as [[p|e] w1]; [|reflexivity].
  unfold ret. cbv zeta. rewrite (H4 _ Hp).
  unfold AccessCheck_get, AccessCheck_throwIfDenied, accessChecks. simpl.
  destruct (permAt _ _) eqn:Hperm; simpl; reflexivity.
Qed.

End G.

Lemma ingress_data_action_witness :
  let w := Demo.world Cases.hiddenRules [] None in
  assertCanMaybeApplyUserAction (Demo.ext [] []) Demo.viewer (Act "UpdateRecord" "_grist_Tables") w
  = (Ok false, w)
  /\ fst (assertCanMaybeApplyUserAction (Demo.ext [] []) Demo.viewer (Act "UpdateRecord" "T") w)
     = Throw (ErrorWithCode "ACL_DENY" "Blocked by table access rules")
  /\ fst (assertCanMaybeApplyUserAction (Demo.ext [] []) Demo.viewer (Act "UpdateRecord" "U") w)
     = Ok true.
Proof.
  split; [|split].
  - exact (proj1 (ingress_data_action (Demo.ext [] []) Demo.viewer "UpdateRecord" "_grist_Tables"
                    (Demo.world Cases.hiddenRules [] None) eq_refl) eq_refl).
  - pose proof (proj2 (ingress_data_action (Demo.ext [] []) Demo.viewer "UpdateRecord" "T"
                         (Demo.world Cases.hiddenRules [] None) eq_refl) eq_refl) as H.
    destruct (_getAccess (Demo.ext [] []) Demo.viewer (Demo.world Cases.hiddenRules [] None))
      as [[p|e] w1] eqn:Hacc; [|discriminate (f_equal (fun x => isOk (fst x)) Hacc)].
    assert (Hp : p = {| pi_ruleCollection := Cases.hiddenRules;
                        pi_input := {| user := Demo.viewerInfo; rec := None; newRec := None |} |}).
    { vm_compute in Hacc. by inversion Hacc. }
    subst p. rewrite H. reflexivity.
  - pose proof (proj2 (ingress_data_action (Demo.ext [] []) Demo.viewer "UpdateRecord" "U"
                         (Demo.world Cases.hiddenRules [] None) eq_refl) eq_refl) as H.
    destruct (_getAccess (Demo.ext [] []) Demo.viewer (Demo.world Cases.hiddenRules [] None))
      as [[p|e] w1] eqn:Hacc; [|discriminate (f_equal (fun x => isOk (fst x)) Hacc)].
    assert (Hp : p = {| pi_ruleCollection := Cases.hiddenRules;
                        pi_input := {| user := Demo.viewerInfo; rec := None; newRec := None |} |}).
    { vm_compute in Hacc. by inversion Hacc. }
    subst p. rewrite H. reflexivity.
Defined.


(** ** Hiding columns *)

Lemma filterColumns_ok {V} (data : Obj V) (keep : string -> bool) :
  _filterColumns data (fun colId => Ok (keep colId))
  = Ok (filterKeys (fun colId => String.eqb colId "manualSort" || keep colId) data).
Proof.
  induction data as [|[c v] data IH]; simpl; [done|].
  unfold filterKeys in *. simpl. rewrite IH.
  destruct (String.eqb c "manualSort"); simpl; [done|]. by destruct (keep c).
Qed.

Lemma filterActionColumns_ok (a : DocAction) (keep : string -> bool) :
  filterActionColumns a (fun colId => Ok (keep colId))
  = Ok (withColumns (fun colId => String.eqb colId "manualSort" || keep colId) a).
Proof. destruct a; simpl; rewrite ?filterColumns_ok; reflexivity. Qed.

Lemma filterKeys_keys {V} keep (o : Obj V) c : In c (objKeys (filterKeys keep o)) -> keep c = true.
Proof.
  unfold objKeys, filterKeys. intros H. apply in_map_iff in H as ([k v] & <- & Hin).
  apply filter_In in Hin as [_ Hk]. exact Hk.
Qed.

Lemma withColumns_keys keep a c :
  In c (default [] (actionColIds (withColumns keep a))) -> isCellAction (actionName a) = true ->
  keep c = true.
Proof.
  intros H Hc. destruct a; try discriminate Hc; exact (filterKeys_keys _ _ _ H).
Qed.

Lemma withColumns_rows keep a :
  getRowIdsFromDocAction (withColumns keep a) = getRowIdsFromDocAction a
  /\ getTableId (withColumns keep a) = getTableId a
  /\ actionName (withColumns keep a) = actionName a.
Proof. destruct a; done. Qed.

Section G.
Context (ext : Externals).

Lemma read_check_get ps : AccessCheck_get readAccessCheck ps = Ok (getReadPermission ps).
Proof.
  unfold AccessCheck_get, readAccessCheck, accessChecks, getReadPermission. simpl.
  by destruct (perm_read (perms ps)).
Qed.

Lemma pruneColumns_read_run (a : ActionRef) p tableId w v :
  actions w !! a = Some v ->
  _pruneColumns a p tableId readAccessCheck w
  = let name := actionName v in
    if isRemove name then (Ok (Some a), w)
    else if isCellAction name then
      let v' := withColumns (columnVisible p tableId) v in
      (Ok (if (length (default [] (actionColIds v')) =? 0)%nat then None else Some (nextAction w)),
       setActions (<[nextAction w := v']> (actions w)) (S (nextAction w)) w)
    else if isColumnAction name then
      (Ok (if bool_decide (getReadPermission (PermissionInfo_getColumnAccess p tableId (actionColId v)) = deny)
           then None else Some a), w)
    else (Ok (Some a), w).
Proof.
  intros Hv. unfold _pruneColumns, cloneDeep. munfold. simpl. rewrite Hv. cbv zeta.
  unfold isRemove.
  destruct (String.eqb (actionName v) "RemoveRecord" || String.eqb (actionName v) "BulkRemoveRecord");
    [reflexivity|].
  destruct (isCellAction (actionName v)) eqn:Hcell.
  - rewrite Hv. simpl. rewrite lookup_insert_eq.
    assert (Hf : filterActionColumns v
              (fun colId => match match AccessCheck_get readAccessCheck (PermissionInfo_getColumnAccess p tableId colId) with
                                  | Ok r => Ok (bool_decide (r = deny)) | Throw e => Throw e end with
                            | Ok d => Ok (negb d) | Throw e => Throw e end)
            = Ok (withColumns (columnVisible p tableId) v)).
    { erewrite (f_equal (filterActionColumns v)); [apply filterActionColumns_ok|].
      apply functional_extensionality. intros c. by rewrite read_check_get. }
    rewrite Hf. simpl. rewrite insert_insert_eq.
    destruct (length _ =? 0)%nat; reflexivity.
  - destruct (isColumnAction (actionName v)); [|reflexivity].
    rewrite read_check_get. simpl. by destruct (bool_decide _).
Qed.
End G.

Section G.
Context (ext : Externals).

(** X13.  Pruning the columns of a stored action for reading always
    succeeds and never changes the action it is given: it works on a
    copy.  A record or table-data action comes back with exactly the
    columns that are [manualSort] or not denied for reading, and with the
    same rows; it is dropped when no column is left.  A column action is
    dropped when its column is denied.  Row removals and table-level
    actions pass as they are. *)
Theorem pruneColumns_hides_denied (a : ActionRef) p tableId w v :
  actions w !! a = Some v ->
  (a < nextAction w)%nat ->
  exists res w',
    _pruneColumns a p tableId readAccessCheck w = (Ok res, w')
    /\ allocFrame w w'
    /\ actions w' !! a = Some v
    /\ holds w' res (prunedColumnsValue p tableId v)
    /\ forall v', prunedColumnsValue p tableId v = Some v' ->
         getRowIdsFromDocAction v' = getRowIdsFromDocAction v
         /\ match actionColIds v' with
            | Some cols => cols <> [] /\ Forall (fun c => columnVisible p tableId c = true) cols
            | None => True
            end.
Proof.
  intros Hv Ha. rewrite (pruneColumns_read_run a p tableId w v Hv).
  unfold prunedColumnsValue. cbv zeta.
  assert (Hsame : forall w0, allocFrame w w0 -> actions w0 !! a = Some v).
  { intros w0 Hf. by rewrite (af_old _ _ Hf a Ha). }
  destruct (isRemove (actionName v)) eqn:Hrm.
  { exists (Some a), w. split; [done|]. split; [apply allocFrame_refl|]. split; [done|].
    split; [done|]. intros v' [= <-]. split; [done|].
    destruct v; try discriminate Hrm; done. }
  destruct (isCellAction (actionName v)) eqn:Hcell.
  { set (v1 := withColumns (columnVisible p tableId) v).
    eexists _, _. split; [reflexivity|].
    pose proof (allocFrame_alloc w v1) as Hf.
    split; [exact Hf|]. split; [by apply Hsame|]. split.
    - destruct (length _ =? 0)%nat eqn:Hlen; simpl; [done|].
      split; [lia|]. apply lookup_insert_eq.
    - intros v'. destruct (length _ =? 0)%nat eqn:Hlen; [discriminate|].
      intros [= <-]. split; [apply withColumns_rows|].
      destruct (actionColIds v1) as [cols|] eqn:Hcols; [|done].
      split.
      + intros ->. simpl in Hlen. discriminate.
      + apply Forall_forall. intros c Hc. apply (withColumns_keys _ v c); [|done].
        fold v1. rewrite Hcols. simpl. by apply list_elem_of_In. }
  destruct (isColumnAction (actionName v)) eqn:Hcol.
  { eexists _, w. split; [reflexivity|]. split; [apply allocFrame_refl|]. split; [done|].
    destruct (bool_decide _); simpl; split; try done.
    intros v' [= <-]. split; [done|]. destruct v; try discriminate Hcol; done. }
  exists (Some a), w. split; [done|]. split; [apply allocFrame_refl|]. split; [done|].
  split; [done|]. intros v' [= <-]. split; [done|].
  destruct v; try discriminate Hcell; try discriminate Hrm; done.
Qed.

(** X14.  [filterData] on a table whose read permission is not mixed leaves
    the rows alone and rewrites the stored data with exactly the columns
    that are [manualSort] or not denied for reading.  Whatever the
    permission, after a [filterData] that returns every column left in the
    data is such a column. *)
Theorem filterData_columns s (data : ActionRef) w v p w1 :
  _getAccess ext s w = (Ok p, w1) ->
  actions w !! data = Some v ->
  let tableId := getTableId v in
  (getReadPermission (PermissionInfo_getTableAccess p tableId) <> mixed ->
     filterData ext s data w
     = (Ok tt, setActions (<[data := withColumns (columnVisible p tableId) v]> (actions w1))
                 (nextAction w1) w1))
  /\ (forall w', filterData ext s data w = (Ok tt, w') ->
        exists v', actions w' !! data = Some v'
          /\ Forall (fun c => columnVisible p tableId c = true) (default [] (actionColIds v'))).
Proof.
  intros Hacc Hv tableId.
  pose proof (getAccess_frame ext s w) as Hf. rewrite Hacc in Hf. simpl in Hf.
  assert (Hv1 : actions w1 !! data = Some v) by (by rewrite (fr_actions _ _ Hf)).
  assert (Hkeep : forall v2,
    filterActionColumns v2
      (fun colId => Ok (negb (bool_decide
         (getReadPermission (PermissionInfo_getColumnAccess p tableId colId) = deny))))
    = Ok (withColumns (columnVisible p tableId) v2)).
  { intros v2. apply filterActionColumns_ok. }
  split.
  - intros Hnm. unfold filterData. unfold mbind at 1, M_bind at 1, bind at 1. rewrite Hacc.
    unfold mbind at 1, M_bind at 1, bind at 1, readAction. rewrite Hv1.
    fold tableId. rewrite bool_decide_eq_false_2 by done.
    munfold. simpl. rewrite Hv1. fold tableId. rewrite Hkeep. reflexivity.
  - intros w' Hrun. unfold filterData in Hrun.
    unfold mbind at 1, M_bind at 1, bind at 1 in Hrun. rewrite Hacc in Hrun.
    unfold mbind at 1, M_bind at 1, bind at 1, readAction in Hrun. rewrite Hv1 in Hrun.
    fold tableId in Hrun.
    apply bind_ok_inv in Hrun as ([] & w2 & _ & Hrun).
    apply bind_ok_inv in Hrun as (v2 & w3 & Hread & Hrun).
    rewrite Hkeep in Hrun. munfold. simpl in Hrun. inversion Hrun; subst; clear Hrun.
    exists (withColumns (columnVisible p tableId) v2). simpl. rewrite lookup_insert_eq.
    split; [done|]. apply Forall_forall. intros c Hc. apply list_elem_of_In in Hc.
    destruct (isCellAction (actionName v2)) eqn:Hcell.
    + by apply (withColumns_keys _ v2 c).
    + destruct v2; try discriminate Hcell; simpl in Hc; done.
Qed.
End G.

Lemma pruneColumns_hides_denied_witness :
  let w := Demo.world Demo.rules [Demo.touch] None in
  exists res w',
    _pruneColumns 0%nat Demo.viewerPermissions "T" readAccessCheck w = (Ok res, w')
    /\ actions w' !! 0%nat = Some Demo.touch
    /\ holds w' res (Some (UpdateRecord "T" 5 [("note", CStr "ok")])).
Proof.
  destruct (pruneColumns_hides_denied 0%nat Demo.viewerPermissions "T"
              (Demo.world Demo.rules [Demo.touch] None) Demo.touch eq_refl (le_n 1))
    as (res & w' & H1 & _ & H3 & H4 & _).
  exists res, w'. split; [exact H1|]. split; [exact H3|exact H4].
Defined.

Lemma filterData_columns_witness :
  let v := UpdateRecord "U" 1 [("a", CNum 1); ("secret", CStr "x")] in
  let w := Demo.world Demo.rules [v] None in
  actions (snd (filterData (Demo.ext [] []) Demo.viewer 0%nat w)) !! 0%nat
  = Some (UpdateRecord "U" 1 [("a", CNum 1)]).
Proof.
  intros v w.
  assert (Hacc : _getAccess (Demo.ext [] []) Demo.viewer w
                 = (Ok Demo.viewerPermissions, snd (_getAccess (Demo.ext [] []) Demo.viewer w)))
    by (vm_compute; reflexivity).
  destruct (filterData_columns (Demo.ext [] []) Demo.viewer 0%nat w v _ _ Hacc eq_refl)
    as [H _].
  rewrite H by (vm_compute; discriminate). vm_compute. reflexivity.
Defined.

(** ** Censoring metadata *)

Lemma objHas_get {V} (o : Obj V) k : objHas o k = true <-> is_Some (objGet o k).
Proof. unfold objHas. destruct (objGet o k); split; try done; by intros [? ?]. Qed.

Lemma objKeys_objSet {V} (o : Obj V) k v : objHas o k = true -> objKeys (objSet o k v) = objKeys o.
Proof.
  unfold objHas, objKeys. induction o as [|[k' v'] o IH]; simpl; [done|].
  destruct (String.eqb k' k) eqn:He; simpl; [done|]. intros H. by rewrite IH.
Qed.

Lemma objKeys_bulkSet o k i v : objKeys (bulkSet o k i v) = objKeys o.
Proof.
  unfold objKeys, bulkSet. rewrite map_map. apply map_ext. intros [k' x]. simpl.
  by destruct (String.eqb k' k).
Qed.

Lemma sameShape_refl a : sameShape a a.
Proof. by repeat split. Qed.

Lemma sameShape_trans a b c : sameShape a b -> sameShape b c -> sameShape a c.
Proof. unfold sameShape. intros (?&?&?&?) (?&?&?&?). repeat split; congruence. Qed.

Lemma RecordEditor_set_optional index a colId val :
  colId <> "id" ->
  exists a', RecordEditor_set true index a colId val = Ok a' /\ sameShape a a'.
Proof.
  intros Hid. unfold RecordEditor_set.
  destruct (String.eqb colId "id") eqn:He; [apply String.eqb_eq in He; done|].
  destruct a; simpl; try (eexists; split; [reflexivity|apply sameShape_refl]).
  all: destruct (objHas colValues colId) eqn:Hh; simpl;
    (eexists; split; [reflexivity|]); try apply sameShape_refl.
  all: unfold sameShape; simpl; rewrite ?objKeys_objSet, ?objKeys_bulkSet by done; done.
Qed.

Lemma runCensorMethod_total sets index a :
  Forall (fun kv => fst kv <> "id") sets ->
  exists a', runCensorMethod sets index a = Ok a' /\ sameShape a a'.
Proof.
  intros Hs. revert a. induction Hs as [|[c v] sets Hc Hs IH]; intros a; simpl.
  - eexists; split; [reflexivity|apply sameShape_refl].
  - destruct (RecordEditor_set_optional index a c v Hc) as (a1 & -> & H1).
    destruct (IH a1) as (a2 & -> & H2). eexists; split; [reflexivity|].
    by apply sameShape_trans with a1.
Qed.

Lemma censorEntries_total sets rowsC entries a :
  Forall (fun kv => fst kv <> "id") sets ->
  exists a', censorEntries sets rowsC entries a = Ok a' /\ sameShape a a'.
Proof.
  intros Hs. revert a. induction entries as [|[i id] entries IH]; intros a; simpl.
  - eexists; split; [reflexivity|apply sameShape_refl].
  - destruct (idsHas rowsC id); [|apply IH].
    destruct (runCensorMethod_total sets i a Hs) as (a1 & -> & H1).
    destruct (IH a1) as (a2 & -> & H2). eexists; split; [reflexivity|].
    by apply sameShape_trans with a1.
Qed.

Ltac nodup_strings :=
  repeat (apply NoDup_cons_2;
          [let H := fresh in
           intros H; repeat (apply elem_of_cons in H as [H|H]; [discriminate H|]);
           by apply elem_of_nil in H|]);
  apply NoDup_nil_2.

Lemma structural_not_censored c t :
  setHas STRUCTURAL_TABLES t = true -> censored c t = None -> isAclTable t = true.
Proof.
  unfold setHas. intros H. apply existsb_exists in H as (y & Hy & He).
  apply String.eqb_eq in He. subst y. simpl in Hy.
  repeat (destruct Hy as [<-|Hy]; [try discriminate; reflexivity|]). done.
Qed.

Lemma censored_method c tableId rowsC :
  censored c tableId = Some rowsC ->
  exists sets, getCensorMethod tableId = Ok sets
    /\ Forall (fun kv => fst kv <> "id") sets /\ NoDup (map fst sets).
Proof.
  unfold censored. intros H.
  repeat (match type of H with
          | (if String.eqb tableId ?t then _ else _) = _ =>
              destruct (String.eqb tableId t) eqn:He;
              [apply String.eqb_eq in He; subst tableId; eexists; split; [reflexivity|]; split;
               [repeat constructor; done
               |simpl; nodup_strings]
              |clear He]
          end).
  discriminate.
Qed.

(** X15.  [CensorshipInfo.apply] never throws, whatever action it is given.
    On a table other than the two ACL tables it answers true and only
    rewrites cells: the result has the same name, table, row ids and
    columns as the action.  On an ACL table its answer is [_canViewACLs]. *)
Theorem apply_total_and_shape c a :
  exists flag a',
    CensorshipInfo_apply c a = Ok (flag, a')
    /\ (isAclTable (getTableId a) = false -> flag = true /\ sameShape a a')
    /\ (isAclTable (getTableId a) = true -> flag = _canViewACLs c).
Proof.
  unfold CensorshipInfo_apply.
  destruct (setHas STRUCTURAL_TABLES (getTableId a)) eqn:Hst; simpl.
  2:{ eexists _, _. split; [reflexivity|]. split; [intros _; split; [done|apply sameShape_refl]|].
      intros Hacl. apply acl_table_structural in Hacl as [Hacl _]. congruence. }
  destruct (censored c (getTableId a)) as [rowsC|] eqn:Hc.
  - destruct (censored_method _ _ _ Hc) as (sets & -> & Hs & _).
    destruct (censorEntries_total sets rowsC
                (imap (fun i id => (i, id)) (getRowIdsFromDocAction a)) a Hs) as (a' & -> & Hsh).
    eexists _, _. split; [reflexivity|]. split; [done|].
    intros Hacl. apply acl_table_structural in Hacl as [_ Hacl]. rewrite Hacl in Hc. discriminate.
  - eexists _, _. split; [reflexivity|]. split; [|done].
    intros Hacl. rewrite (structural_not_censored c _ Hst Hc) in Hacl. discriminate.
Qed.

Lemma arrayAt_arraySet_eq xs i v : arrayAt (arraySet xs i v) i = v.
Proof.
  revert xs. induction i as [|i IH]; intros [|x xs]; simpl; try done.
  - apply (IH []).
  - apply (IH xs).
Qed.

Lemma arrayAt_nil j : arrayAt [] j = CUndefined.
Proof. unfold arrayAt. by destruct j. Qed.

Lemma arrayAt_cons x xs j : arrayAt (x :: xs) (S j) = arrayAt xs j.
Proof. reflexivity. Qed.

Lemma arrayAt_arraySet_ne xs i j v : i <> j -> arrayAt (arraySet xs i v) j = arrayAt xs j.
Proof.
  revert xs j. induction i as [|i IH]; intros [|x xs] [|j] Hne; simpl; try done.
  all: rewrite ?arrayAt_cons, ?arrayAt_nil; try done.
  - rewrite IH by lia. apply arrayAt_nil.
  - apply IH. lia.
Qed.

Lemma objGet_bulkSet o k i v k' :
  objGet (bulkSet o k i v) k'
  = (fun vals => if String.eqb k' k then arraySet vals i v else vals) <$> objGet o k'.
Proof.
  unfold bulkSet. induction o as [|[k0 x] o IH]; simpl; [done|].
  destruct (String.eqb k0 k) eqn:He; simpl.
  - destruct (String.eqb k0 k') eqn:He'; simpl; [|exact IH].
    apply String.eqb_eq in He, He'. subst. by rewrite String.eqb_refl.
  - destruct (String.eqb k0 k') eqn:He'; simpl; [|exact IH].
    apply String.eqb_eq in He'. subst. by rewrite He.
Qed.

Lemma set_get (i j : nat) a colId val col' cols :
  colId <> "id" -> col' <> "id" ->
  actionColIds a = Some cols -> col' ∈ cols ->
  exists a1, RecordEditor_set true i a colId val = Ok a1
    /\ RecordEditor_get (Some j) a1 col'
       = if String.eqb colId col' && (negb (isBulk a) || Nat.eqb i j)
         then Ok val else RecordEditor_get (Some j) a col'.
Proof.
  intros Hid Hid' Hcols Hin.
  unfold RecordEditor_set, RecordEditor_get.
  destruct (String.eqb colId "id") eqn:He; [apply String.eqb_eq in He; done|].
  destruct (String.eqb col' "id") eqn:He'; [apply String.eqb_eq in He'; done|].
  assert (Hhas : forall V (cv : Obj V), cols = objKeys cv -> is_Some (objGet cv col')).
  { intros V cv ->. unfold objKeys in Hin. apply list_elem_of_fmap in Hin as ([k x] & -> & Hin).
    simpl. clear -Hin. induction cv as [|[k0 x0] cv IH]; [by apply elem_of_nil in Hin|].
    simpl. destruct (String.eqb k0 k) eqn:E; [done|]. apply IH.
    apply elem_of_cons in Hin as [Heq|Hin]; [|done]. inversion Heq; subst.
    by rewrite String.eqb_refl in E. }
  destruct a; simpl in Hcols; try discriminate Hcols; injection Hcols as <-; simpl;
    destruct (Hhas _ colValues eq_refl) as [x Hx].
  all: destruct (objHas colValues colId) eqn:Hh; simpl.
  all: eexists; split; [reflexivity|]; simpl.
  all: destruct (String.eqb_spec colId col') as [->|Hne]; simpl.
  all: rewrite ?objGet_objSet_eq, ?objGet_bulkSet, ?Hx; simpl; try reflexivity.
  all: try (rewrite objGet_objSet_ne by done; rewrite Hx; reflexivity).
  all: try (unfold objHas in Hh; rewrite Hx in Hh; discriminate Hh).
  all: rewrite ?String.eqb_refl.
  all: try (destruct (Nat.eqb_spec i j) as [->|Hij];
            [by rewrite arrayAt_arraySet_eq|by rewrite arrayAt_arraySet_ne]).
  all: try (destruct (String.eqb_spec col' colId) as [->|]; [done|reflexivity]).
Qed.

Lemma sameShape_bulk a a' : sameShape a a' -> isBulk a' = isBulk a.
Proof.
  intros (_ & _ & Hn & _). destruct a, a'; simpl in *; try discriminate Hn; reflexivity.
Qed.

Lemma objGet_notin {V} (o : Obj V) k : k ∉ map fst o -> objGet o k = None.
Proof.
  induction o as [|[k0 x] o IH]; simpl; [done|]. intros Hn.
  apply not_elem_of_cons in Hn as [Hne Hn].
  destruct (String.eqb_spec k0 k) as [->|_]; [done|]. by apply IH.
Qed.

Lemma runCensorMethod_get (i j : nat) sets a col' cols :
  Forall (fun kv => fst kv <> "id") sets -> NoDup (map fst sets) ->
  col' <> "id" -> actionColIds a = Some cols -> col' ∈ cols ->
  exists a1, runCensorMethod sets i a = Ok a1 /\ sameShape a a1
    /\ RecordEditor_get (Some j) a1 col'
       = match objGet sets col' with
         | Some val => if negb (isBulk a) || Nat.eqb i j then Ok val
                       else RecordEditor_get (Some j) a col'
         | None => RecordEditor_get (Some j) a col'
         end.
Proof.
  intros Hs Hnd Hid' Hcols Hin. revert a Hcols.
  induction Hs as [|[c v] sets Hc Hs IH]; intros a Hcols; cbn [runCensorMethod].
  - eexists. split; [reflexivity|]. split; [apply sameShape_refl|done].
  - simpl in Hnd. apply NoDup_cons in Hnd as [Hnotin Hnd].
    destruct (set_get i j a c v col' cols Hc Hid' Hcols Hin) as (a1 & Hset & Hget).
    destruct (RecordEditor_set_optional i a c v Hc) as (a1' & Hset' & Hsh1).
    rewrite Hset in Hset'. injection Hset' as <-.
    rewrite Hset.
    assert (Hcols1 : actionColIds a1 = Some cols).
    { destruct Hsh1 as (_ & _ & _ & ->). done. }
    destruct (IH Hnd a1 Hcols1) as (a2 & -> & Hsh2 & Hget2).
    eexists. split; [reflexivity|]. split; [by apply sameShape_trans with a1|].
    rewrite Hget2, Hget, (sameShape_bulk _ _ Hsh1). cbn [objGet].
    destruct (String.eqb_spec c col') as [->|Hne]; cbn [andb].
    + rewrite (objGet_notin sets col' Hnotin).
      by destruct (negb (isBulk a) || Nat.eqb i j).
    + destruct (objGet sets col'); reflexivity.
Qed.

Lemma censorEntries_get (j : nat) sets rowsC entries a col' cols :
  Forall (fun kv => fst kv <> "id") sets -> NoDup (map fst sets) ->
  col' <> "id" -> actionColIds a = Some cols -> col' ∈ cols ->
  exists a1, censorEntries sets rowsC entries a = Ok a1 /\ sameShape a a1
    /\ RecordEditor_get (Some j) a1 col'
       = match objGet sets col' with
         | Some val =>
             if existsb (fun e => (negb (isBulk a) || Nat.eqb (fst e) j) && idsHas rowsC (snd e))
                  entries
             then Ok val else RecordEditor_get (Some j) a col'
         | None => RecordEditor_get (Some j) a col'
         end.
Proof.
  intros Hs Hnd Hid' Hcols Hin. revert a Hcols.
  induction entries as [|[i id] entries IH]; intros a Hcols; cbn [censorEntries existsb fst snd].
  - eexists. split; [reflexivity|]. split; [apply sameShape_refl|].
    by destruct (objGet sets col').
  - destruct (idsHas rowsC id) eqn:Hc.
    + destruct (runCensorMethod_get i j sets a col' cols Hs Hnd Hid' Hcols Hin)
        as (a1 & -> & Hsh1 & Hget1).
      assert (Hcols1 : actionColIds a1 = Some cols).
      { destruct Hsh1 as (_ & _ & _ & ->). done. }
      destruct (IH a1 Hcols1) as (a2 & -> & Hsh2 & Hget2).
      eexists. split; [reflexivity|]. split; [by apply sameShape_trans with a1|].
      rewrite Hget2, Hget1, (sameShape_bulk _ _ Hsh1).
      destruct (objGet sets col'); [|done]. rewrite andb_true_r.
      destruct (negb (isBulk a) || Nat.eqb i j); cbn [orb]; [|done].
      match goal with |- context [existsb ?f entries] => destruct (existsb f entries) end;
        reflexivity.
    + destruct (IH a Hcols) as (a2 & -> & Hsh2 & Hget2).
      eexists. split; [reflexivity|]. split; [done|].
      rewrite Hget2. rewrite andb_false_r. reflexivity.
Qed.

Lemma existsb_imap_at (rowsC ids : list Z) (j : nat) (k : nat) :
  existsb (fun e : nat * Z => Nat.eqb (fst e) (k + j) && idsHas rowsC (snd e))
    (imap (fun i id => ((k + i)%nat, id)) ids)
  = match ids !! j with Some id => idsHas rowsC id | None => false end.
Proof.
  revert j k. induction ids as [|id ids IH]; intros j k; simpl; [done|].
  destruct j as [|j]; simpl.
  - rewrite Nat.add_0_r, Nat.eqb_refl. simpl.
    destruct (idsHas rowsC id); simpl; [done|].
    apply not_true_is_false. intros H. apply existsb_exists in H as ([i x] & Hin & Hx).
    simpl in Hx. apply andb_true_iff in Hx as [Hx _]. apply Nat.eqb_eq in Hx. subst.
    apply list_elem_of_In, elem_of_lookup_imap in Hin as (i' & y & Heq & _).
    injection Heq as Heq _. simpl in Heq. lia.
  - rewrite Nat.add_0_r.
    destruct (Nat.eqb_spec k (k + S j)) as [Hk|_]; [lia|]. simpl.
    specialize (IH j (S k)).
    replace (S k + j)%nat with (k + S j)%nat in IH by lia.
    rewrite <- IH. f_equal. apply imap_ext. intros i x _. simpl. f_equal. lia.
Qed.

Lemma censored_structural c t rowsC :
  censored c t = Some rowsC -> setHas STRUCTURAL_TABLES t = true.
Proof.
  unfold censored. intros H.
  repeat (match type of H with
          | (if String.eqb t ?x then _ else _) = _ =>
              destruct (String.eqb t x) eqn:He;
              [apply String.eqb_eq in He; subst t; reflexivity|clear He]
          end).
  discriminate.
Qed.

(** X16.  On one of the five censored metadata tables, [apply] blanks, in
    every row whose id is censored, each column that the censor method of
    the table names and that the action carries: the cell then reads as
    the blank value of the method.  Every other cell reads as before. *)
Theorem apply_blanks_censored_rows c a rowsC sets cols :
  censored c (getTableId a) = Some rowsC ->
  getCensorMethod (getTableId a) = Ok sets ->
  actionColIds a = Some cols ->
  exists a',
    CensorshipInfo_apply c a = Ok (true, a')
    /\ sameShape a a'
    /\ forall (j : nat) id colId,
         getRowIdsFromDocAction a !! j = Some id -> colId ∈ cols -> colId <> "id" ->
         RecordEditor_get (Some j) a' colId
         = match objGet sets colId with
           | Some blank => if idsHas rowsC id then Ok blank
                           else RecordEditor_get (Some j) a colId
           | None => RecordEditor_get (Some j) a colId
           end.
Proof.
  intros Hc Hm Hcols.
  destruct (censored_method _ _ _ Hc) as (sets' & Hm' & Hs & Hnd).
  rewrite Hm in Hm'. injection Hm' as <-.
  set (entries := imap (fun i id => (i, id)) (getRowIdsFromDocAction a)).
  destruct (censorEntries_total sets rowsC entries a Hs) as (a' & Hrun & Hsh).
  exists a'. split.
  { unfold CensorshipInfo_apply. rewrite (censored_structural _ _ _ Hc), Hc, Hm. simpl.
    fold entries. by rewrite Hrun. }
  split; [exact Hsh|].
  intros j id colId Hj Hin Hid.
  destruct (censorEntries_get j sets rowsC entries a colId cols Hs Hnd Hid Hcols Hin)
    as (a1 & Hrun1 & _ & Hget).
  rewrite Hrun in Hrun1. injection Hrun1 as <-. rewrite Hget.
  destruct (objGet sets colId) as [blank|]; [|done].
  assert (Hex : existsb (fun e : nat * Z =>
                    (negb (isBulk a) || Nat.eqb (fst e) j) && idsHas rowsC (snd e)) entries
                = idsHas rowsC id).
  { destruct (isBulk a) eqn:Hb; simpl.
    - pose proof (existsb_imap_at rowsC (getRowIdsFromDocAction a) j 0) as He.
      simpl in He. subst entries. rewrite He, Hj. done.
    - subst entries. destruct a; simpl in Hb, Hcols; try discriminate.
      all: simpl in Hj; destruct j; simpl in Hj; [|by destruct j];
        injection Hj as ->; simpl; by rewrite orb_false_r. }
  by rewrite Hex.
Qed.

Lemma apply_blanks_censored_rows_witness :
  let c := {| censoredTables := [1]; censoredSections := []; censoredViews := [];
              censoredColumns := []; censoredFields := []; _canViewACLs := false |} in
  let a := TableData "_grist_Tables" [1; 2] [("tableId", [CStr "T"; CStr "U"])] in
  exists a',
    CensorshipInfo_apply c a = Ok (true, a')
    /\ RecordEditor_get (Some 0%nat) a' "tableId" = Ok (CStr "")
    /\ RecordEditor_get (Some 1%nat) a' "tableId" = Ok (CStr "U").
Proof.
  intros c a.
  destruct (apply_blanks_censored_rows c a [1] [("tableId", CStr "")] ["tableId"]
              eq_refl eq_refl eq_refl) as (a' & H1 & _ & H3).
  exists a'. split; [exact H1|]. split.
  - exact (H3 0%nat 1 "tableId" eq_refl (list_elem_of_here _ _) ltac:(discriminate)).
  - exact (H3 1%nat 2 "tableId" eq_refl (list_elem_of_here _ _) ltac:(discriminate)).
Defined.

Lemma elem_of_rowIndices d idx id :
  (idx, id) ∈ rowIndices d <-> td_rowIds d !! idx = Some id.
Proof.
  unfold rowIndices. rewrite elem_of_lookup_imap. split.
  - intros (i & x & Heq & Hl). by injection Heq as -> ->.
  - intros Hl. by exists idx, id.
Qed.

Lemma fold_tables_censored (deniedAt allowedAt : nat -> bool) (nameAt : nat -> string)
    (rows : list (nat * Z)) refs cens unc x :
  let f := fun (st : list (Z * string) * list Z * list Z) (row : nat * Z) =>
             let '(refs, cens, uncens) := st in
             let refs' := (snd row, nameAt (fst row)) :: refs in
             if deniedAt (fst row) then (refs', setAdd cens (snd row), uncens)
             else if allowedAt (fst row) then (refs', cens, setAdd uncens (snd row))
             else (refs', cens, uncens) in
  x ∈ snd (fst (fold_left f rows (refs, cens, unc)))
  <-> x ∈ cens \/ exists idx, (idx, x) ∈ rows /\ deniedAt idx = true.
Proof.
  intros f. revert refs cens unc. induction rows as [|[i id] rows IH]; intros refs cens unc.
  - simpl. split; [by left|]. intros [H|(idx & H & _)]; [done|by apply elem_of_nil in H].
  - cbn [fold_left]. unfold f at 2. cbn [fst snd].
    destruct (deniedAt i) eqn:Hd; [|destruct (allowedAt i)]; rewrite IH.
    + rewrite <- !idsHas_elem, idsHas_setAdd, orb_true_iff, !idsHas_elem. split.
      * intros [[H|H]|(idx & H & Hx)]; [by left| |].
        -- apply Z.eqb_eq in H. subst. right. exists i. split; [apply list_elem_of_here|done].
        -- right. exists idx. split; [by apply list_elem_of_further|done].
      * intros [H|(idx & H & Hx)]; [by left; left|].
        apply elem_of_cons in H as [Heq|H].
        -- injection Heq as -> ->. left. right. apply Z.eqb_refl.
        -- right. by exists idx.
    + split.
      * intros [H|(idx & H & Hx)]; [by left|]. right. exists idx.
        split; [by apply list_elem_of_further|done].
      * intros [H|(idx & H & Hx)]; [by left|].
        apply elem_of_cons in H as [Heq|H]; [injection Heq as -> ->; congruence|].
        right. by exists idx.
    + split.
      * intros [H|(idx & H & Hx)]; [by left|]. right. exists idx.
        split; [by apply list_elem_of_further|done].
      * intros [H|(idx & H & Hx)]; [by left|].
        apply elem_of_cons in H as [Heq|H]; [injection Heq as -> ->; congruence|].
        right. by exists idx.
Qed.

Lemma fold_sections_censored (shown : nat -> bool) (parentAt : nat -> option Z)
    (rows : list (nat * Z)) views sections x :
  let f := fun (st : list Z * list Z) (row : nat * Z) =>
             let '(views, sections) := st in
             if negb (shown (fst row)) then st
             else (match parentAt (fst row) with
                   | Some parentId => setAdd views parentId
                   | None => views
                   end, setAdd sections (snd row)) in
  x ∈ snd (fold_left f rows (views, sections))
  <-> x ∈ sections \/ exists idx, (idx, x) ∈ rows /\ shown idx = true.
Proof.
  intros f. revert views sections. induction rows as [|[i id] rows IH]; intros views sections.
  - simpl. split; [by left|]. intros [H|(idx & H & _)]; [done|by apply elem_of_nil in H].
  - cbn [fold_left]. unfold f at 2. cbn [fst snd].
    destruct (shown i) eqn:Hd; cbn [negb]; rewrite IH.
    + rewrite <- !idsHas_elem, idsHas_setAdd, orb_true_iff, !idsHas_elem. split.
      * intros [[H|H]|(idx & H & Hx)]; [by left| |].
        -- apply Z.eqb_eq in H. subst. right. exists i. split; [apply list_elem_of_here|done].
        -- right. exists idx. split; [by apply list_elem_of_further|done].
      * intros [H|(idx & H & Hx)]; [by left; left|].
        apply elem_of_cons in H as [Heq|H].
        -- injection Heq as -> ->. left. right. apply Z.eqb_refl.
        -- right. by exists idx.
    + split.
      * intros [H|(idx & H & Hx)]; [by left|]. right. exists idx.
        split; [by apply list_elem_of_further|done].
      * intros [H|(idx & H & Hx)]; [by left|].
        apply elem_of_cons in H as [Heq|H]; [injection Heq as -> ->; congruence|].
        right. by exists idx.
Qed.

(** X17.  The tables that a [CensorshipInfo] censors are exactly the rows of
    [_grist_Tables] whose table is denied for reading, and the sections it
    censors are exactly the rows of [_grist_Views_section] whose
    [tableRef] is a censored table. *)
Theorem censored_tables_are_denied p rules tables canViewACLs c tTables tSections :
  newCensorshipInfo p rules tables canViewACLs = Ok c ->
  tables !! "_grist_Tables" = Some tTables ->
  tables !! "_grist_Views_section" = Some tSections ->
  (forall ref,
     ref ∈ censoredTables c
     <-> exists idx, td_rowIds tTables !! idx = Some ref
           /\ getReadPermission
                (PermissionInfo_getTableAccess p
                   (cellString (InfoView_get (RecordView tTables (Some idx)) "tableId")))
              = deny)
  /\ (forall sref,
        sref ∈ censoredSections c
        <-> exists idx, td_rowIds tSections !! idx = Some sref
              /\ cellIn (censoredTables c)
                   (InfoView_get (RecordView tSections (Some idx)) "tableRef") = true).
Proof.
  intros Hnew Ht Hs. unfold newCensorshipInfo, metaTable in Hnew. rewrite Ht, Hs in Hnew.
  match type of Hnew with
  | context [fold_left ?f (rowIndices tTables) ?st] =>
      destruct (fold_left f (rowIndices tTables) st) as [[refs cT] uT] eqn:Hfold
  end.
  assert (Htab : forall x, x ∈ cT <-> exists idx, (idx, x) ∈ rowIndices tTables
            /\ bool_decide (perm_read (perms (PermissionInfo_getTableAccess p
                  (cellString (InfoView_get (rowView tTables idx) "tableId")))) = deny) = true).
  { intros x.
    pose proof (fold_tables_censored
        (fun idx => bool_decide (perm_read (perms (PermissionInfo_getTableAccess p
                       (cellString (InfoView_get (rowView tTables idx) "tableId")))) = deny))
        (fun idx => bool_decide (perm_read (perms (PermissionInfo_getTableAccess p
                       (cellString (InfoView_get (rowView tTables idx) "tableId")))) = allow))
        (fun idx => cellString (InfoView_get (rowView tTables idx) "tableId"))
        (rowIndices tTables) [] [] [] x) as H.
    cbv zeta in H.
    match type of H with
    | context [fold_left ?g _ _] =>
        match type of Hfold with fold_left ?f _ _ = _ => change g with f in H end
    end.
    rewrite Hfold in H. simpl in H. rewrite H. split.
    - intros [Hn|Hx]; [by apply elem_of_nil in Hn|done].
    - intros Hx. by right. }
  destruct (tables !! "_grist_Tables_column") as [tColumns|]; [|discriminate].
  destruct (scanColumnCodes p tColumns cT uT refs (rowIndices tColumns) []) as [codes|];
    [|discriminate].
  match type of Hnew with
  | context [fold_left ?f (rowIndices tSections) ?st] =>
      destruct (fold_left f (rowIndices tSections) st) as [cV cS] eqn:Hfold2
  end.
  assert (Hsec : forall x, x ∈ cS <-> exists idx, (idx, x) ∈ rowIndices tSections
            /\ cellIn cT (InfoView_get (rowView tSections idx) "tableRef") = true).
  { intros x.
    pose proof (fold_sections_censored
        (fun idx => cellIn cT (InfoView_get (rowView tSections idx) "tableRef"))
        (fun idx => numberOf (InfoView_get (rowView tSections idx) "parentId"))
        (rowIndices tSections) [] [] x) as H.
    cbv zeta in H.
    match type of H with
    | context [fold_left ?g _ _] =>
        match type of Hfold2 with fold_left ?f _ _ = _ => change g with f in H end
    end.
    rewrite Hfold2 in H. simpl in H. rewrite H. split.
    - intros [Hn|Hx]; [by apply elem_of_nil in Hn|done].
    - intros Hx. by right. }
  destruct (tables !! "_grist_Views_section_field") as [tFields|]; [|discriminate].
  injection Hnew as <-. simpl. split.
  - intros ref. rewrite Htab. split; intros (idx & Hi & Hd); exists idx.
    + apply elem_of_rowIndices in Hi. split; [done|]. by apply bool_decide_eq_true in Hd.
    + split; [by apply elem_of_rowIndices|]. by apply bool_decide_eq_true.
  - intros sref. rewrite Hsec. split; intros (idx & Hi & Hd); exists idx.
    + apply elem_of_rowIndices in Hi. done.
    + split; [by apply elem_of_rowIndices|done].
Qed.

Lemma censored_tables_are_denied_witness :
  let p := {| pi_ruleCollection := Cases.hiddenRules;
              pi_input := {| user := Demo.viewerInfo; rec := None; newRec := None |} |} in
  match newCensorshipInfo p Cases.hiddenRules Demo.meta false with
  | Ok c => 1 ∈ censoredTables c
  | Throw _ => False
  end.
Proof.
  intros p.
  destruct (newCensorshipInfo p Cases.hiddenRules Demo.meta false) as [c|e] eqn:Hc.
  - pose proof (fun tT tS H1 H2 =>
                  proj1 (censored_tables_are_denied p Cases.hiddenRules Demo.meta false c
                           tT tS Hc H1 H2) 1) as H.
    eapply H; [reflexivity|reflexivity|].
    exists 0%nat. split; reflexivity.
  - vm_compute in Hc. discriminate Hc.
Defined.

(** ** Frames on the doc actions of the store *)

Lemma keepsActions_refl n w : keepsActions n w w.
Proof. by intros H. Qed.

Lemma keepsActions_trans n a b c : keepsActions n a b -> keepsActions n b c -> keepsActions n a c.
Proof.
  intros H1 H2 Hn. destruct (H1 Hn) as [Hb H1']. destruct (H2 Hb) as [Hc H2'].
  split; [done|]. intros l Hl. rewrite H2', H1'; done.
Qed.

Lemma cacheFrame_keeps n w w' : cacheFrame w w' -> keepsActions n w w'.
Proof. intros Hf Hn. rewrite (fr_nextAction _ _ Hf), (fr_actions _ _ Hf). by split. Qed.

Lemma preserves_weaken {A} (R R' : World -> World -> Prop) (m : M A) :
  (forall w w', R w w' -> R' w w') -> preserves R m -> preserves R' m.
Proof. intros H Hm w. apply H, Hm. Qed.

Lemma keeps_same_actions n w w' :
  actions w' = actions w -> nextAction w' = nextAction w -> keepsActions n w w'.
Proof. intros Ha Hn Hle. rewrite Ha, Hn. by split. Qed.

Ltac keeps_cache := apply (preserves_weaken cacheFrame); [apply cacheFrame_keeps|]; frame.

Ltac kstep :=
  lazymatch goal with
  | |- preserves _ (ret _) => apply preserves_ret; apply keepsActions_refl
  | |- preserves _ (throw _) => apply preserves_throw; apply keepsActions_refl
  | |- preserves _ (liftResult _) => apply preserves_liftResult; apply keepsActions_refl
  | |- preserves _ (mbind _ _) =>
      apply preserves_bind; [apply keepsActions_refl|apply keepsActions_trans| |intros]
  | |- preserves _ (forEach _ _ _) =>
      apply preserves_forEach; [apply keepsActions_refl|apply keepsActions_trans|intros]
  | |- preserves _ (mapM _ _) =>
      apply preserves_mapM; [apply keepsActions_refl|apply keepsActions_trans|intros]
  | |- preserves _ (match ?x with _ => _ end) => destruct x eqn:?
  | |- preserves _ (let '(_, _) := ?x in _) => destruct x eqn:?
  end.

Create HintDb keeps.

Ltac keeps := repeat (first [ solve [eauto with keeps] | solve [keeps_cache] | kstep ]).

Lemma sameActions_refl w : sameActions w w.
Proof. by split. Qed.

Lemma sameActions_trans a b c : sameActions a b -> sameActions b c -> sameActions a c.
Proof. intros [] []. split; congruence. Qed.

Lemma cacheFrame_same w w' : cacheFrame w w' -> sameActions w w'.
Proof. intros Hf. split; [apply (fr_actions _ _ Hf)|apply (fr_nextAction _ _ Hf)]. Qed.

Lemma sameActions_keeps n w w' : sameActions w w' -> keepsActions n w w'.
Proof. intros [Ha Hn]. by apply keeps_same_actions. Qed.

Ltac same_cache := apply (preserves_weaken cacheFrame); [apply cacheFrame_same|]; frame.

Ltac sstep :=
  lazymatch goal with
  | |- preserves _ (ret _) => apply preserves_ret; apply sameActions_refl
  | |- preserves _ (throw _) => apply preserves_throw; apply sameActions_refl
  | |- preserves _ (liftResult _) => apply preserves_liftResult; apply sameActions_refl
  | |- preserves _ (mbind _ _) =>
      apply preserves_bind; [apply sameActions_refl|apply sameActions_trans| |intros]
  | |- preserves _ (match ?x with _ => _ end) => destruct x eqn:?
  | |- preserves _ (let '(_, _) := ?x in _) => destruct x eqn:?
  end.

Create HintDb same.

Ltac same := repeat (first [ solve [eauto with same] | solve [same_cache] | sstep ]).

Section S.
Context (ext : Externals).

Lemma same_modifyThis f : preserves sameActions (modifyThis f).
Proof. intros w. by split. Qed.

Lemma same_getSteps : preserves sameActions (_getSteps ext).
Proof.
  intros w. unfold _getSteps, _getUncachedSteps. munfold. simpl.
  destruct (_steps (this w)) as [[steps|e]|]; simpl; try apply sameActions_refl.
  destruct (_activeBundle (this w)) as [b|]; simpl; [|by split].
  destruct (buildSteps ext (this w) b (rulers w) (nextRuler w)) as [res [rs nr]]. simpl.
  by split.
Qed.

Hint Resolve same_modifyThis same_getSteps : same.

Lemma same_getStep cursor : preserves sameActions (_getStep ext cursor).
Proof. unfold _getStep. same. Qed.

Lemma same_stepOrTypeError s : preserves sameActions (stepOrTypeError s).
Proof. unfold stepOrTypeError. same. Qed.

Hint Resolve same_getStep same_stepOrTypeError : same.

Lemma same_getRuler cursor : preserves sameActions (_getRuler ext cursor).
Proof. unfold _getRuler. same. Qed.

Lemma same_getStepAccess cursor : preserves sameActions (_getStepAccess ext cursor).
Proof. unfold _getStepAccess. same. Qed.

Lemma same_getRowsForRecAndNewRec cursor :
  preserves sameActions (_getRowsForRecAndNewRec ext cursor).
Proof. unfold _getRowsForRecAndNewRec. same. Qed.

End S.

Section K.
Context (ext : Externals) (n : nat).

Lemma keeps_getThis : preserves (keepsActions n) getThis.
Proof. intros w. apply keepsActions_refl. Qed.

Lemma keeps_modifyThis f : preserves (keepsActions n) (modifyThis f).
Proof. intros w. by apply keeps_same_actions. Qed.

Lemma keeps_readAction l : preserves (keepsActions n) (readAction l).
Proof. keeps_cache. Qed.

Lemma keeps_readRuler r : preserves (keepsActions n) (readRuler r).
Proof. keeps_cache. Qed.

Lemma keeps_allocAction a : preserves (keepsActions n) (allocAction a).
Proof.
  intros w Hn. simpl. split; [lia|]. intros l Hl. apply lookup_insert_ne. lia.
Qed.

Lemma keeps_getSteps : preserves (keepsActions n) (_getSteps ext).
Proof. apply (preserves_weaken sameActions); [apply sameActions_keeps|apply same_getSteps]. Qed.

Hint Resolve keeps_getThis keeps_modifyThis keeps_readAction keeps_readRuler keeps_allocAction
  keeps_getSteps : keeps.

Lemma keeps_getStep cursor : preserves (keepsActions n) (_getStep ext cursor).
Proof. apply (preserves_weaken sameActions); [apply sameActions_keeps|apply same_getStep]. Qed.

Hint Resolve keeps_getStep : keeps.

Lemma keeps_stepOrTypeError s : preserves (keepsActions n) (stepOrTypeError s).
Proof. unfold stepOrTypeError. keeps. Qed.

Hint Resolve keeps_stepOrTypeError : keeps.

Lemma keeps_getRuler cursor : preserves (keepsActions n) (_getRuler ext cursor).
Proof. apply (preserves_weaken sameActions); [apply sameActions_keeps|apply same_getRuler]. Qed.

Lemma keeps_getAccess s : preserves (keepsActions n) (_getAccess ext s).
Proof. keeps_cache. Qed.

Lemma keeps_Ruler_getAccess r s : preserves (keepsActions n) (Ruler_getAccess ext r s).
Proof. keeps_cache. Qed.

Lemma keeps_getUser s : preserves (keepsActions n) (_getUser ext s).
Proof. keeps_cache. Qed.

Hint Resolve keeps_getRuler keeps_getAccess keeps_Ruler_getAccess keeps_getUser : keeps.

Lemma keeps_getStepAccess cursor : preserves (keepsActions n) (_getStepAccess ext cursor).
Proof.
  apply (preserves_weaken sameActions); [apply sameActions_keeps|apply same_getStepAccess].
Qed.

Lemma keeps_hasAccessRulesPermission s :
  preserves (keepsActions n) (hasAccessRulesPermission ext s).
Proof. keeps_cache. Qed.

Lemma keeps_isOwner s : preserves (keepsActions n) (isOwner ext s).
Proof. apply (preserves_weaken cacheFrame); [apply cacheFrame_keeps|]. unfold isOwner. frame. Qed.

Lemma keeps_haveRules : preserves (keepsActions n) haveRules.
Proof. keeps_cache. Qed.

Hint Resolve keeps_getStepAccess keeps_hasAccessRulesPermission keeps_isOwner keeps_haveRules : keeps.

Lemma keeps_getRowsForRecAndNewRec cursor :
  preserves (keepsActions n) (_getRowsForRecAndNewRec ext cursor).
Proof.
  apply (preserves_weaken sameActions);
    [apply sameActions_keeps|apply same_getRowsForRecAndNewRec].
Qed.

Hint Resolve keeps_getRowsForRecAndNewRec : keeps.

(** Writing at or above [n]. *)
Lemma keeps_write_fresh w (l : ActionRef) a :
  (n <= l)%nat -> keepsActions n w (setActions (<[l := a]> (actions w)) (nextAction w) w).
Proof.
  intros Hl Hn. simpl. split; [done|]. intros l' Hl'. apply lookup_insert_ne. lia.
Qed.

Lemma keeps_pruneColumns a p tableId chk :
  preserves (keepsActions n) (_pruneColumns a p tableId chk).
Proof.
  intros w. unfold _pruneColumns, cloneDeep. munfold. simpl.
  destruct (actions w !! a) as [v|] eqn:Hv; simpl; [|apply keepsActions_refl].
  destruct (String.eqb (actionName v) "RemoveRecord" || String.eqb (actionName v) "BulkRemoveRecord");
    [apply keepsActions_refl|].
  destruct (isCellAction (actionName v)).
  - rewrite Hv. simpl. rewrite lookup_insert_eq.
    match goal with |- context [filterActionColumns v ?f] =>
      destruct (filterActionColumns v f) as [nv|e] end; simpl.
    + intros Hn. split; [destruct (_ =? _)%nat; simpl; lia|].
      intros l Hl. destruct (_ =? _)%nat; simpl; rewrite !lookup_insert_ne by lia; done.
    + intros Hn. simpl. split; [lia|]. intros l Hl. apply lookup_insert_ne. lia.
  - destruct (isColumnAction (actionName v)); [|apply keepsActions_refl].
    destruct (AccessCheck_get chk _) as [r|e]; simpl; [|apply keepsActions_refl].
    destruct (bool_decide (r = deny)); apply keepsActions_refl.
Qed.

End K.

(** ** Checking an incoming bundle *)

Lemma get_fatal_not_deny c ps r :
  severity c = fatal -> AccessCheck_get c ps = Ok r -> r <> deny.
Proof.
  unfold AccessCheck_get, AccessCheck_throwIfDenied. intros ->.
  destruct (permAt (perms ps) (access c)) eqn:Hp; simpl; rewrite ?Hp; intros [= <-]; done.
Qed.

Lemma get_fatal_deny c ps :
  severity c = fatal -> permAt (perms ps) (access c) = deny ->
  AccessCheck_get c ps
  = Throw (ErrorWithCode "ACL_DENY" ("Blocked by " ++ ruleType ps ++ " access rules")).
Proof.
  unfold AccessCheck_get, AccessCheck_throwIfDenied. intros -> ->. reflexivity.
Qed.

Lemma get_not_deny c ps :
  permAt (perms ps) (access c) <> deny ->
  AccessCheck_get c ps = Ok (permAt (perms ps) (access c)).
Proof.
  unfold AccessCheck_get. intros H. destruct (permAt (perms ps) (access c)); try done.
Qed.

Lemma censorColumns_fatal rc input chk t idx cols v v' :
  severity chk = fatal ->
  censorColumns rc input chk t idx cols v = Ok v' -> v' = v.
Proof.
  intros Hf. revert v. induction cols as [|c cols IH]; intros v; simpl.
  - by intros [= <-].
  - destruct (AccessCheck_get chk _) as [r|e] eqn:Hg; [|discriminate].
    rewrite bool_decide_eq_false_2 by (by apply (get_fatal_not_deny chk _ r Hf Hg)).
    apply IH.
Qed.

Lemma censorRows_fatal rc u chk rb ra t rowIds idxs toRemove v res :
  severity chk = fatal ->
  censorRows rc u chk rb ra t rowIds idxs toRemove v = Ok res -> res = (toRemove, v).
Proof.
  intros Hf. revert toRemove v. induction idxs as [|i idxs IH]; intros toRemove v; simpl.
  - by intros [= <-].
  - destruct (AccessCheck_get chk _) as [r|e] eqn:Hg; [|discriminate].
    rewrite bool_decide_eq_false_2 by (by apply (get_fatal_not_deny chk _ r Hf Hg)).
    destruct (negb (bool_decide (r = allow))); [|apply IH].
    destruct (actionColIds v) as [cols|]; [|apply IH].
    destruct (censorColumns _ _ _ _ _ _ _) as [v'|e] eqn:Hc; [|discriminate].
    apply censorColumns_fatal in Hc; [|done]. subst v'. apply IH.
Qed.

Section K.
Context (ext : Externals) (n : nat).

Lemma keeps_filterRowsAndCells_fatal cursor rb ra chk :
  severity chk = fatal ->
  preserves (keepsActions n) (_filterRowsAndCells ext cursor rb ra chk).
Proof.
  intros Hf. unfold _filterRowsAndCells.
  apply preserves_bind; [apply keepsActions_refl|apply keepsActions_trans|apply keeps_getRuler|].
  intros ruler.
  intros w. unfold mbind at 1, M_bind at 1, bind at 1, readAction.
  destruct (actions w !! action cursor) as [v|] eqn:Hv; [|apply keepsActions_refl].
  destruct (isSchemaAction v); [apply keepsActions_refl|].
  unfold mbind at 1, M_bind at 1, bind at 1.
  pose proof (getUser_frame ext (cursorSession cursor) w) as Hu.
  destruct (_getUser ext (cursorSession cursor) w) as [[u|e] w1]; simpl in Hu;
    [|by apply cacheFrame_keeps].
  eapply keepsActions_trans; [by apply cacheFrame_keeps|].
  assert (Hv1 : actions w1 !! action cursor = Some v) by (by rewrite (fr_actions _ _ Hu)).
  unfold mbind at 1, M_bind at 1, bind at 1, readRuler.
  destruct (rulers w1 !! ruler) as [rl|]; [|apply keepsActions_refl].
  unfold mbind at 1, M_bind at 1, bind at 1, liftResult.
  destruct (censorRows _ _ _ _ _ _ _ _ _ _) as [res|e] eqn:Hc; [|apply keepsActions_refl].
  apply censorRows_fatal in Hc; [|done]. subst res. unfold ret. cbv iota beta.
  munfold. simpl. apply keeps_same_actions; simpl; [|done].
  by apply insert_id.
Qed.

Lemma keeps_checkRows cursor chk :
  severity chk = fatal -> preserves (keepsActions n) (_checkRows ext cursor chk).
Proof.
  intros Hf. unfold _checkRows.
  apply preserves_bind; [apply keepsActions_refl|apply keepsActions_trans|apply keeps_readAction|].
  intros v. destruct (negb (isDataAction v)); [apply preserves_ret, keepsActions_refl|].
  apply preserves_bind; [apply keepsActions_refl|apply keepsActions_trans
                        |apply keeps_getRowsForRecAndNewRec|].
  intros [before after]. by apply keeps_filterRowsAndCells_fatal.
Qed.

Lemma severity_getAccessForActionType name t sev :
  severity (getAccessForActionType name t sev) = sev.
Proof. unfold getAccessForActionType. repeat case_match; reflexivity. Qed.

Lemma keeps_checkIncomingDocAction cursor :
  preserves (keepsActions n) (_checkIncomingDocAction ext cursor).
Proof.
  unfold _checkIncomingDocAction.
  apply preserves_bind; [apply keepsActions_refl|apply keepsActions_trans|apply keeps_readAction|].
  intros v. cbv zeta.
  apply preserves_bind; [apply keepsActions_refl|apply keepsActions_trans|apply keeps_getStepAccess|].
  intros p.
  apply preserves_bind; [apply keepsActions_refl|apply keepsActions_trans
                        |apply preserves_liftResult, keepsActions_refl|].
  intros acc. destruct (bool_decide (acc = allow)); [apply preserves_ret, keepsActions_refl|].
  apply preserves_bind; [apply keepsActions_refl|apply keepsActions_trans| |intros _].
  { destruct (bool_decide (acc = mixedColumns)); [|apply preserves_ret, keepsActions_refl].
    apply preserves_bind; [apply keepsActions_refl|apply keepsActions_trans
                          |apply keeps_pruneColumns|].
    intros. apply preserves_ret, keepsActions_refl. }
  apply preserves_bind; [apply keepsActions_refl|apply keepsActions_trans
                        |apply keeps_checkRows, severity_getAccessForActionType|intros _].
  apply preserves_bind; [apply keepsActions_refl|apply keepsActions_trans
                        |apply keeps_pruneColumns|intros _].
  apply preserves_ret, keepsActions_refl.
Qed.

End K.

Section K2.
Context (ext : Externals) (rcx : RuleCheckExternals).

(** X18.  [canApplyBundle] judges the doc actions of the bundle and never
    alters them: whatever it returns or throws, every doc action that was
    in the store when it was called is as it was (what it prunes, it
    prunes on copies). *)
Theorem canApplyBundle_never_modifies refs w :
  let w' := snd (canApplyBundle ext rcx refs w) in
  (nextAction w <= nextAction w')%nat
  /\ forall l : ActionRef, (l < nextAction w)%nat -> actions w' !! l = actions w !! l.
Proof.
  assert (H : preserves (keepsActions (nextAction w)) (canApplyBundle ext rcx refs)).
  { unfold canApplyBundle.
    repeat first
      [ apply keeps_checkIncomingDocAction
      | apply keeps_isOwner | apply keeps_haveRules | apply keeps_getThis
      | match goal with
        | |- preserves _ (ret _) => apply preserves_ret; apply keepsActions_refl
        | |- preserves _ (throw _) => apply preserves_throw; apply keepsActions_refl
        | |- preserves _ (liftResult _) => apply preserves_liftResult; apply keepsActions_refl
        | |- preserves _ (mbind _ _) =>
            apply preserves_bind; [apply keepsActions_refl|apply keepsActions_trans| |intros]
        | |- preserves _ (mapM _ _) =>
            apply preserves_mapM; [apply keepsActions_refl|apply keepsActions_trans|intros]
        | |- preserves _ (match ?x with _ => _ end) => destruct x eqn:?
        | |- preserves _ (if ?x then _ else _) => destruct x eqn:?
        end ]. }
  intros w'. apply (H w). lia.
Qed.

End K2.

Lemma get_fatal_throws c ps e :
  severity c = fatal -> AccessCheck_get c ps = Throw e -> isAclDeny e = true.
Proof.
  unfold AccessCheck_get, AccessCheck_throwIfDenied. intros ->.
  destruct (permAt (perms ps) (access c)) eqn:Hp; simpl; rewrite ?Hp; try discriminate.
  by intros [= <-].
Qed.

Lemma filterColumns_denied {V} (data : Obj V) (f : string -> Result bool) c :
  c ∈ objKeys data -> c <> "manualSort" ->
  (exists e, f c = Throw e /\ isAclDeny e = true) ->
  (forall c' e, f c' = Throw e -> isAclDeny e = true) ->
  exists e, _filterColumns data f = Throw e /\ isAclDeny e = true.
Proof.
  intros Hin Hms (e & Hfc & He) Hall. induction data as [|[k x] data IH]; simpl.
  - by apply elem_of_nil in Hin.
  - unfold objKeys in Hin. simpl in Hin.
    destruct (String.eqb_spec k "manualSort") as [->|Hk].
    + apply elem_of_cons in Hin as [->|Hin]; [done|].
      destruct (IH Hin) as (e' & -> & He'). eauto.
    + destruct (f k) as [keep|e'] eqn:Hfk; [|by eauto].
      apply elem_of_cons in Hin as [->|Hin]; [congruence|].
      destruct (IH Hin) as (e'' & -> & He''). eauto.
Qed.

Section G.
Context (ext : Externals).

(** X19.  The check of an incoming doc action at table level, for the
    permission that the kind of the action needs: when the table allows
    it the action passes without a look at rows or columns; when the table
    denies it the action is refused with ACL_DENY; when the answer depends
    on the column and the action carries a denied column other than
    [manualSort], the action is refused with ACL_DENY. *)
Theorem checkIncomingDocAction_table_level cursor w v p w1 :
  actions w !! action cursor = Some v ->
  _getStepAccess ext cursor w = (Ok p, w1) ->
  let chk := getAccessForActionType (actionName v) (getTableId v) fatal in
  let ps := PermissionInfo_getTableAccess p (getTableId v) in
  (permAt (perms ps) (access chk) = allow ->
     _checkIncomingDocAction ext cursor w = (Ok tt, w1))
  /\ (permAt (perms ps) (access chk) = deny ->
        _checkIncomingDocAction ext cursor w
        = (Throw (ErrorWithCode "ACL_DENY" ("Blocked by " ++ ruleType ps ++ " access rules")), w1))
  /\ (permAt (perms ps) (access chk) = mixedColumns ->
      forall cols c,
        actionColIds v = Some cols -> c ∈ cols -> c <> "manualSort" ->
        permAt (perms (PermissionInfo_getColumnAccess p (getTableId v) c)) (access chk) = deny ->
        exists message,
          fst (_checkIncomingDocAction ext cursor w) = Throw (ErrorWithCode "ACL_DENY" message)).
Proof.
  intros Hv Hacc chk ps.
  assert (Hsev : severity chk = fatal) by apply severity_getAccessForActionType.
  pose proof (same_getStepAccess ext cursor w) as Hsame. rewrite Hacc in Hsame.
  destruct Hsame as [Hsa Hsn]. simpl in Hsa, Hsn.
  assert (Hv1 : actions w1 !! action cursor = Some v) by (by rewrite Hsa).
  assert (Hrun : _checkIncomingDocAction ext cursor w
    = (access ← liftResult (AccessCheck_get chk ps);
       if bool_decide (access = allow) then ret tt
       else
         (if bool_decide (access = mixedColumns)
          then _pruneColumns (action cursor) p (getTableId v) chk;; ret tt
          else ret tt);;
         _checkRows ext cursor chk;;
         _pruneColumns (action cursor) p (getTableId v) chk;;
         ret tt) w1).
  { unfold _checkIncomingDocAction.
    unfold mbind at 1, M_bind at 1, bind at 1, readAction. rewrite Hv. cbv zeta.
    unfold mbind at 1, M_bind at 1, bind at 1. rewrite Hacc. reflexivity. }
  rewrite Hrun. clear Hrun. split; [|split].
  - intros Hp. rewrite get_not_deny by (rewrite Hp; done). rewrite Hp. reflexivity.
  - intros Hp. rewrite (get_fatal_deny chk ps Hsev Hp). reflexivity.
  - intros Hp cols c Hcols Hin Hms Hd.
    rewrite get_not_deny by (rewrite Hp; done). rewrite Hp.
    unfold mbind at 1, M_bind at 1, bind at 1, liftResult, ret. cbv iota beta.
    rewrite bool_decide_eq_false_2 by done. rewrite bool_decide_eq_true_2 by done.
    assert (Hprune : exists e w2,
      _pruneColumns (action cursor) p (getTableId v) chk w1 = (Throw e, w2)
      /\ isAclDeny e = true).
    { assert (Hf : exists e, filterActionColumns v
          (fun colId =>
             match match AccessCheck_get chk (PermissionInfo_getColumnAccess p (getTableId v) colId) with
                   | Ok r => Ok (bool_decide (r = deny))
                   | Throw e => Throw e
                   end with
             | Ok d => Ok (negb d)
             | Throw e => Throw e
             end) = Throw e /\ isAclDeny e = true).
      { match goal with |- context [filterActionColumns v ?f] => set (pred := f) end.
        assert (Hpred : forall V (cv : Obj V), cols = objKeys cv ->
                  exists e, _filterColumns cv pred = Throw e /\ isAclDeny e = true).
        { intros V cv ->. apply (filterColumns_denied cv pred c Hin Hms).
          - subst pred. cbv beta. rewrite (get_fatal_deny chk _ Hsev Hd). eauto.
          - intros c' e. subst pred. cbv beta.
            destruct (AccessCheck_get chk _) as [r|e'] eqn:Hg; [discriminate|].
            intros [= <-]. by apply (get_fatal_throws chk _ e' Hsev Hg). }
        destruct v; simpl in Hcols; try discriminate Hcols; injection Hcols as Hc0; simpl;
          destruct (Hpred _ colValues (eq_sym Hc0)) as (e & -> & He); eauto. }
      destruct Hf as (e & Hf & He).
      assert (Hcell : isCellAction (actionName v) = true).
      { destruct v; simpl in Hcols; try discriminate Hcols; reflexivity. }
      assert (Hnr : String.eqb (actionName v) "RemoveRecord"
                    || String.eqb (actionName v) "BulkRemoveRecord" = false).
      { destruct v; simpl in Hcols; try discriminate Hcols; reflexivity. }
      unfold _pruneColumns, cloneDeep. munfold. simpl. rewrite Hv1. cbv zeta.
      rewrite Hnr, Hcell. rewrite Hv1. simpl. rewrite lookup_insert_eq. rewrite Hf. simpl.
      eauto. }
    destruct Hprune as (e & w2 & Hprune & He).
    unfold mbind at 1, M_bind at 1, bind at 1.
    unfold mbind at 1, M_bind at 1, bind at 1. rewrite Hprune.
    destruct e; try discriminate He. simpl in He. apply String.eqb_eq in He. subst. eauto.
Qed.
End G.

Lemma checkIncomingDocAction_table_level_witness :
  fst (_checkIncomingDocAction (Demo.ext [] []) Demo.cursor0
         (Cases.incoming Demo.rules Demo.plain))
  = Ok tt
  /\ fst (_checkIncomingDocAction (Demo.ext [] []) Demo.cursor0
            (Cases.incoming Cases.hiddenRules Demo.touch))
     = Throw (ErrorWithCode "ACL_DENY" "Blocked by table access rules").
Proof.
  split.
  - destruct (_getStepAccess (Demo.ext [] []) Demo.cursor0
                (Cases.incoming Demo.rules Demo.plain))
      as [[p|e] w1] eqn:Hacc; [|vm_compute in Hacc; discriminate Hacc].
    destruct (checkIncomingDocAction_table_level (Demo.ext [] []) Demo.cursor0
                (Cases.incoming Demo.rules Demo.plain) Demo.plain p w1 eq_refl Hacc) as (H & _ & _).
    vm_compute in Hacc. inversion Hacc; subst p w1; clear Hacc.
    rewrite (H eq_refl). reflexivity.
  - destruct (_getStepAccess (Demo.ext [] []) Demo.cursor0
                (Cases.incoming Cases.hiddenRules Demo.touch))
      as [[p|e] w1] eqn:Hacc; [|vm_compute in Hacc; discriminate Hacc].
    destruct (checkIncomingDocAction_table_level (Demo.ext [] []) Demo.cursor0
                (Cases.incoming Cases.hiddenRules Demo.touch) Demo.touch p w1 eq_refl Hacc) as (_ & H & _).
    vm_compute in Hacc. inversion Hacc; subst p w1; clear Hacc.
    rewrite (H eq_refl). reflexivity.
Defined.

Section G.
Context (ext : Externals) (rcx : RuleCheckExternals).

(** X20.  A bundle that changes the rules deliberately, started by a session
    that is not an owner, is refused before anything else is looked at:
    [canApplyBundle] throws ACL_DENY "Only owners can modify access
    rules" and leaves the engine as it was. *)
Theorem only_owners_change_rules refs w b :
  _activeBundle (this w) = Some b ->
  hasDeliberateRuleChange b = true ->
  overridesUser (docSession b) = false ->
  getDocSessionAccess (docSession b) <> Some owners ->
  canApplyBundle ext rcx refs w
  = (Throw (ErrorWithCode "ACL_DENY" "Only owners can modify access rules"), w).
Proof.
  intros Hb Hd Hs Ha. unfold canApplyBundle.
  unfold mbind at 1, M_bind at 1, bind at 1, getThis. rewrite Hb, Hd.
  unfold mbind at 1, M_bind at 1, bind at 1.
  unfold mbind at 1, M_bind at 1, bind at 1.
  rewrite (isOwner_plain ext _ w Hs). rewrite bool_decide_eq_false_2 by done. reflexivity.
Qed.


Lemma checkChangedRules_ok g das :
  checkChangedRules ext rcx g das = Ok tt ->
  exists t1 t2 t3 t4 tmp,
    _docData g !! "_grist_Tables" = Some t1
    /\ _docData g !! "_grist_Tables_column" = Some t2
    /\ _docData g !! "_grist_ACLResources" = Some t3
    /\ _docData g !! "_grist_ACLRules" = Some t4
    /\ receiveActions rcx
         (<["_grist_ACLRules" := t4]>
            (<["_grist_ACLResources" := t3]>
               (<["_grist_Tables_column" := t2]> (<["_grist_Tables" := t1]> ∅)))) das
       = Ok tmp
    /\ rc_ruleError (readAclRules ext tmp) = None
    /\ checkDocEntities rcx (readAclRules ext tmp) tmp = Ok tt.
Proof.
  unfold checkChangedRules, getTableDataAction.
  destruct (_docData g !! "_grist_Tables") as [t1|]; [|discriminate].
  destruct (_docData g !! "_grist_Tables_column") as [t2|]; [|discriminate].
  destruct (_docData g !! "_grist_ACLResources") as [t3|]; [|discriminate].
  destruct (_docData g !! "_grist_ACLRules") as [t4|]; [|discriminate].
  destruct (receiveActions _ _ _) as [tmp|] eqn:Hrecv; [|discriminate].
  destruct (rc_ruleError _) eqn:He; [discriminate|].
  destruct (checkDocEntities _ _ _) as [[]|] eqn:Hc; [|discriminate].
  intros _. exists t1, t2, t3, t4, tmp. repeat split; done.
Qed.

(** X22.  Outside recovery mode, a bundle that touches an ACL table is
    accepted only if the rules it leaves are sound: the rules read from
    the four metadata tables after the doc actions of the bundle compile
    without error and name only tables and columns that exist. *)
Theorem accepted_rule_change_compiles refs w w' b :
  _activeBundle (this w) = Some b ->
  canApplyBundle ext rcx refs w = (Ok tt, w') ->
  _recoveryMode (this w') = false ->
  existsb (fun docAction => isAclTable (getTableId docAction)) (docActions b) = true ->
  exists t1 t2 t3 t4 tmp,
    _docData (this w') !! "_grist_Tables" = Some t1
    /\ _docData (this w') !! "_grist_Tables_column" = Some t2
    /\ _docData (this w') !! "_grist_ACLResources" = Some t3
    /\ _docData (this w') !! "_grist_ACLRules" = Some t4
    /\ receiveActions rcx
         (<["_grist_ACLRules" := t4]>
            (<["_grist_ACLResources" := t3]>
               (<["_grist_Tables_column" := t2]> (<["_grist_Tables" := t1]> ∅))))
         (docActions b)
       = Ok tmp
    /\ rc_ruleError (readAclRules ext tmp) = None
    /\ checkDocEntities rcx (readAclRules ext tmp) tmp = Ok tt.
Proof.
  intros Hb Hrun Hrec Hacl. unfold canApplyBundle in Hrun.
  unfold mbind at 1, M_bind at 1, bind at 1, getThis in Hrun. rewrite Hb in Hrun.
  apply bind_ok_inv in Hrun as (denied & w1 & _ & Hrun).
  destruct denied; [discriminate|].
  apply bind_ok_inv in Hrun as (h & w2 & _ & Hrun).
  apply bind_ok_inv in Hrun as ([] & w3 & _ & Hrun).
  unfold mbind at 1, M_bind at 1, bind at 1, getThis in Hrun.
  destruct (_recoveryMode (this w3)) eqn:Hr3.
  - injection Hrun as <-. congruence.
  - rewrite Hacl in Hrun. unfold liftResult in Hrun.
    destruct (checkChangedRules ext rcx (this w3) (docActions b)) as [[]|] eqn:Hc;
      [|discriminate].
    injection Hrun as <-. by apply checkChangedRules_ok.
Qed.

End G.

Lemma only_owners_change_rules_witness :
  let w := Demo.world Demo.rules [Demo.aclBulkAdd]
             (Some (Cases.bundleBy Demo.viewer [Demo.aclBulkAdd] true)) in
  canApplyBundle (Demo.ext [] []) Cases.rcx [0%nat] w
  = (Throw (ErrorWithCode "ACL_DENY" "Only owners can modify access rules"), w).
Proof.
  intros w.
  apply (only_owners_change_rules (Demo.ext [] []) Cases.rcx [0%nat] w
           (Cases.bundleBy Demo.viewer [Demo.aclBulkAdd] true));
    [reflexivity|reflexivity|reflexivity|discriminate].
Defined.


Lemma accepted_rule_change_compiles_witness :
  let w := Cases.docWorld Demo.noRules [Demo.aclBulkAdd]
             (Some (Cases.bundleBy Demo.owner [Demo.aclBulkAdd] true)) in
  canApplyBundle (Demo.ext [] []) Cases.rcx [0%nat] w = (Ok tt, w)
  /\ exists tmp,
       receiveActions Cases.rcx
         (<["_grist_ACLRules" := Cases.aclRules]>
            (<["_grist_ACLResources" := Cases.aclResources]>
               (<["_grist_Tables_column" := default Cases.aclRules
                                              (Demo.meta !! "_grist_Tables_column")]>
                  (<["_grist_Tables" := default Cases.aclRules
                                          (Demo.meta !! "_grist_Tables")]> ∅))))
         [Demo.aclBulkAdd]
       = Ok tmp
       /\ rc_ruleError (readAclRules (Demo.ext [] []) tmp) = None
       /\ checkDocEntities Cases.rcx (readAclRules (Demo.ext [] []) tmp) tmp = Ok tt.
Proof.
  intros w.
  assert (Hrun : canApplyBundle (Demo.ext [] []) Cases.rcx [0%nat] w = (Ok tt, w))
    by (vm_compute; reflexivity).
  split; [exact Hrun|].
  destruct (accepted_rule_change_compiles (Demo.ext [] []) Cases.rcx [0%nat] w w
              (Cases.bundleBy Demo.owner [Demo.aclBulkAdd] true)
              eq_refl Hrun eq_refl eq_refl)
    as (t1 & t2 & t3 & t4 & tmp & H1 & H2 & H3 & H4 & H5 & H6 & H7).
  vm_compute in H1, H2, H3, H4.
  inversion H1; inversion H2; inversion H3; inversion H4; subst t1 t2 t3 t4.
  exists tmp. split; [exact H5|]. split; [exact H6|exact H7].
Defined.

(** ** Finishing a bundle, and the rows of a step *)

Section G.
Context (ext : Externals).

(** X23.  [finishedBundle] on an active bundle always returns and leaves the
    engine idle.  It reads the rules again from the document, and forgets
    every cached permission and every user attribute, exactly when the
    bundle was applied and either touched an ACL table or, rules
    existing, changed the schema; otherwise the rules, the cached
    permissions and the user attributes are as they were.  The stored doc
    actions are never touched. *)
Theorem finishedBundle_rules w b r :
  _activeBundle (this w) = Some b ->
  rulers w !! _ruler (this w) = Some r ->
  exists w',
    finishedBundle ext w = (Ok tt, w')
    /\ idle w'
    /\ _ruler (this w') = _ruler (this w)
    /\ rulers w' !! _ruler (this w)
       = Some (if rulesReread b r
               then {| ruleCollection := readAclRules ext (_docData (this w));
                       _permissionInfoMap := ∅ |}
               else r)
    /\ _userAttributesMap (this w')
       = (if rulesReread b r then ∅ else _userAttributesMap (this w))
    /\ actions w' = actions w.
Proof.
  intros Hb Hr. unfold finishedBundle, rulesReread.
  unfold mbind at 1, M_bind at 1, bind at 1, getThis. rewrite Hb.
  destruct (applied b); simpl.
  2:{ munfold. simpl. eexists. split; [reflexivity|]. simpl. by repeat split. }
  unfold _updateRules.
  destruct (existsb (fun docAction => isAclTable (getTableId docAction)) (docActions b)); simpl.
  { unfold mbind at 1, M_bind at 1, bind at 1. rewrite (update_run ext w r Hr).
    munfold. simpl. eexists. split; [reflexivity|]. simpl.
    rewrite lookup_insert_eq. by repeat split. }
  unfold mbind at 1, M_bind at 1, bind at 1.
  unfold mbind at 1, M_bind at 1, bind at 1. rewrite (haveRules_run w r Hr).
  destruct (rc_haveRules (ruleCollection r)); simpl.
  2:{ munfold. simpl. eexists. split; [reflexivity|]. simpl. by repeat split. }
  destruct (existsb isSchemaAction (docActions b)); simpl.
  { rewrite (update_run ext w r Hr).
    munfold. simpl. eexists. split; [reflexivity|]. simpl.
    rewrite lookup_insert_eq. by repeat split. }
  munfold. simpl. eexists. split; [reflexivity|]. simpl. by repeat split.
Qed.

Lemma getSteps_ok_cached w steps w0 :
  _getSteps ext w = (Ok steps, w0) -> _steps (this w0) = Some (Ok steps).
Proof.
  unfold _getSteps. munfold. simpl.
  destruct (_steps (this w)) as [[st|e]|] eqn:Hs; simpl.
  - intros [= <- <-]. done.
  - discriminate.
  - destruct (_getUncachedSteps ext w) as [res w']. intros [= -> <-]. done.
Qed.

(** X24.  [_getRowsForRecAndNewRec] computes the rows of a step once: after
    a call that returned, the same call returns the same rows and changes
    nothing. *)
Theorem getRowsForRecAndNewRec_memo cursor w rows w1 :
  _getRowsForRecAndNewRec ext cursor w = (Ok rows, w1) ->
  _getRowsForRecAndNewRec ext cursor w1 = (Ok rows, w1).
Proof.
  intros Hrun. unfold _getRowsForRecAndNewRec in Hrun.
  apply bind_ok_inv in Hrun as (steps & w0 & Hsteps & Hrun).
  apply getSteps_ok_cached in Hsteps.
  destruct (actionIdx cursor) as [idx|] eqn:Hidx; [|discriminate].
  apply bind_ok_inv in Hrun as (step & w0' & Hstep & Hrun).
  unfold stepOrTypeError in Hstep.
  destruct (steps !! idx) as [step0|] eqn:Hl; [|discriminate].
  injection Hstep as -> <-.
  destruct (rowsBefore step) as [before|] eqn:Hb; [|discriminate].
  destruct (rowsLast step) as [last|] eqn:Hlast.
  - injection Hrun as <- <-.
    unfold _getRowsForRecAndNewRec. unfold mbind at 1, M_bind at 1, bind at 1.
    rewrite (getSteps_run ext w0 steps Hsteps), Hidx, Hl.
    unfold mbind, M_bind, bind, stepOrTypeError, ret. by rewrite Hb, Hlast.
  - apply bind_ok_inv in Hrun as ([] & w2 & Hmod & Hrun).
    unfold modifyThis in Hmod. injection Hmod as <-.
    match type of Hrun with
    | context [lastStepOnTable ?t ?a ?b ?c] => set (last := lastStepOnTable t a b c) in *
    end.
    destruct (steps !! last ≫= rowsAfter) as [after|] eqn:Hafter; [|discriminate].
    injection Hrun as <- <-.
    unfold _getRowsForRecAndNewRec. unfold mbind at 1, M_bind at 1, bind at 1.
    erewrite getSteps_run by reflexivity. rewrite Hidx.
    rewrite list_lookup_insert_eq by (by eapply lookup_lt_Some).
    unfold mbind, M_bind, bind, stepOrTypeError, ret. simpl. by rewrite Hb.
Qed.

End G.

Lemma finishedBundle_rules_witness :
  let w := Demo.world Demo.rules [] (Some (Demo.bundleOf [Demo.aclBulkAdd] true false)) in
  exists w',
    finishedBundle (Demo.ext [] []) w = (Ok tt, w')
    /\ idle w'
    /\ rulers w' !! 0%nat = Some (Cases.rulerOf (readAclRules (Demo.ext [] []) ∅))
    /\ _userAttributesMap (this w') = ∅.
Proof.
  intros w.
  destruct (finishedBundle_rules (Demo.ext [] []) w
              (Demo.bundleOf [Demo.aclBulkAdd] true false) (Cases.rulerOf Demo.rules)
              eq_refl eq_refl) as (w' & H1 & H2 & _ & H4 & H5 & _).
  exists w'. split; [exact H1|]. split; [exact H2|]. split; [exact H4|exact H5].
Defined.

Lemma getRowsForRecAndNewRec_memo_witness :
  let w := Demo.world Demo.rules [Demo.touch] (Some (Demo.bundleOf [Demo.touch] true false)) in
  exists rows w1,
    _getRowsForRecAndNewRec (Demo.ext [] []) Demo.cursor0 w = (Ok rows, w1)
    /\ _getRowsForRecAndNewRec (Demo.ext [] []) Demo.cursor0 w1 = (Ok rows, w1).
Proof.
  intros w.
  destruct (_getRowsForRecAndNewRec (Demo.ext [] []) Demo.cursor0 w) as [[rows|e] w1] eqn:Hrun;
    [|vm_compute in Hrun; discriminate Hrun].
  exists rows, w1. split; [reflexivity|].
  exact (getRowsForRecAndNewRec_memo (Demo.ext [] []) Demo.cursor0 w rows w1 Hrun).
Defined.

(** ** Views and editors of a record *)

Section G.
Context (ext : Externals).

(** X25.  An action on a table that the viewer is denied to read yields
    nothing for that viewer: the outgoing filter returns no action, looks
    at no row, and leaves the stored actions as they were. *)
Theorem denied_table_sends_nothing cursor w v p w1 :
  actions w !! action cursor = Some v ->
  _getStepAccess ext cursor w = (Ok p, w1) ->
  getReadPermission (PermissionInfo_getTableAccess p (getTableId v)) = deny ->
  _filterOutgoingDocAction ext cursor w = (Ok [], w1)
  /\ actions w1 = actions w /\ nextAction w1 = nextAction w.
Proof.
  intros Hv Hacc Hd. split.
  - unfold _filterOutgoingDocAction.
    unfold mbind at 1, M_bind at 1, bind at 1, readAction. rewrite Hv.
    unfold mbind at 1, M_bind at 1, bind at 1. rewrite Hacc. cbv zeta. rewrite Hd.
    reflexivity.
  - pose proof (same_getStepAccess ext cursor w) as Hs. rewrite Hacc in Hs. exact Hs.
Qed.

(** X26.  [RecordView.toJSON] agrees with [RecordView.get]: its keys are the
    columns of the table data, in their order, and the value under each
    column is what [get] returns for that column. *)
Theorem RecordView_toJSON_get data (index : nat) colId :
  colId <> "id" -> colId ∈ objKeys (td_columns data) ->
  objGet (InfoView_toJSON (RecordView data (Some index))) colId
  = Some (InfoView_get (RecordView data (Some index)) colId)
  /\ objKeys (InfoView_toJSON (RecordView data (Some index))) = objKeys (td_columns data).
Proof.
  intros Hid Hin. simpl.
  destruct (String.eqb_spec colId "id") as [->|_]; [done|].
  split.
  - unfold objKeys in Hin. induction (td_columns data) as [|[k x] cv IH]; simpl in *.
    + by apply elem_of_nil in Hin.
    + destruct (String.eqb_spec k colId) as [->|Hne]; [done|].
      apply elem_of_cons in Hin as [->|Hin]; [done|]. by apply IH.
  - unfold objKeys. rewrite map_map. reflexivity.
Qed.


End G.

Lemma denied_table_sends_nothing_witness :
  fst (_filterOutgoingDocAction (Demo.ext [] []) Demo.cursor0
         (Demo.world Cases.hiddenRules [Demo.touch]
            (Some (Demo.bundleOf [Demo.touch] true false))))
  = Ok [].
Proof.
  destruct (_getStepAccess (Demo.ext [] []) Demo.cursor0
              (Demo.world Cases.hiddenRules [Demo.touch]
                 (Some (Demo.bundleOf [Demo.touch] true false))))
    as [[p|e] w1] eqn:Hacc; [|vm_compute in Hacc; discriminate Hacc].
  pose proof (denied_table_sends_nothing (Demo.ext [] []) Demo.cursor0
                (Demo.world Cases.hiddenRules [Demo.touch]
                   (Some (Demo.bundleOf [Demo.touch] true false)))
                Demo.touch p w1 eq_refl Hacc) as H.
  vm_compute in Hacc. inversion Hacc; subst p w1; clear Hacc.
  rewrite (proj1 (H eq_refl)). reflexivity.
Defined.

Lemma RecordView_toJSON_get_witness :
  objGet (InfoView_toJSON Demo.teamA) "team" = Some (CStr "A").
Proof.
  apply (RecordView_toJSON_get (Demo.people "A") 0%nat "team"); [discriminate|].
  apply list_elem_of_further, list_elem_of_here.
Defined.


(** ** What the outgoing filter writes to *)

Lemma keepsOutside_refl n Own w : keepsOutside n Own w w.
Proof. by intros H. Qed.

Lemma keepsOutside_trans n Own a b c :
  keepsOutside n Own a b -> keepsOutside n Own b c -> keepsOutside n Own a c.
Proof.
  intros H1 H2 Hn. destruct (H1 Hn) as [Hb H1']. destruct (H2 Hb) as [Hc H2'].
  split; [done|]. intros l Hl HS. rewrite H2', H1'; done.
Qed.

Lemma keepsActions_outside n Own w w' : keepsActions n w w' -> keepsOutside n Own w w'.
Proof. intros H Hn. destruct (H Hn) as [H1 H2]. split; [done|]. intros l Hl _. by apply H2. Qed.

(** A result that is a reference the computation may write to. *)

Section F.
Context (ext : Externals) (n : nat) (Own : list ActionRef).

Lemma ko_weaken {A} (m : M A) : preserves (keepsActions n) m -> preserves (keepsOutside n Own) m.
Proof. apply preserves_weaken. intros w w'. apply keepsActions_outside. Qed.

Lemma ko_bind {A B} (m : M A) (k : A -> M B) :
  preserves (keepsOutside n Own) m -> (forall a, preserves (keepsOutside n Own) (k a)) -> preserves (keepsOutside n Own) (m ≫= k).
Proof. apply preserves_bind; [apply keepsOutside_refl|apply keepsOutside_trans]. Qed.

Lemma ko_bind_post {A B} (m : M A) (k : A -> M B) (P : A -> Prop) :
  preserves (keepsOutside n Own) m -> post n m P -> (forall a, P a -> preserves (keepsOutside n Own) (k a)) ->
  preserves (keepsOutside n Own) (m ≫= k).
Proof.
  intros Hm Hp Hk w Hn. unfold mbind, M_bind, bind.
  specialize (Hm w Hn). specialize (Hp w).
  destruct (m w) as [[a|e] w1]; simpl in *; [|done].
  destruct Hm as [Hn1 Hm]. destruct (Hk a (Hp a w1 Hn eq_refl) w1 Hn1) as [Hn2 Hk'].
  split; [done|]. intros l Hl HS. rewrite Hk', Hm; done.
Qed.

Lemma ko_ret {A} (a : A) : preserves (keepsOutside n Own) (ret a).
Proof. intros w. apply keepsOutside_refl. Qed.

Lemma ko_throw {A} e : preserves (keepsOutside n Own) (@throw A e).
Proof. intros w. apply keepsOutside_refl. Qed.

Lemma ko_forEach_in {A T} (xs : list A) (s : T) (body : T -> A -> M T) :
  (forall s x, x ∈ xs -> preserves (keepsOutside n Own) (body s x)) -> preserves (keepsOutside n Own) (forEach xs s body).
Proof.
  revert s. induction xs as [|x xs IH]; intros s Hb; simpl.
  - apply ko_ret.
  - apply ko_bind.
    + apply Hb. apply list_elem_of_here.
    + intros s'. apply IH. intros s0 y Hy. apply Hb. by apply list_elem_of_further.
Qed.

Lemma ko_write (r : ActionRef) v : writable n Own r -> preserves (keepsOutside n Own) (writeAction r v).
Proof.
  intros Hr w Hn. simpl. split; [done|]. intros l Hl HS.
  apply lookup_insert_ne. destruct Hr as [Hr|Hr]; [by intros ->|lia].
Qed.

Lemma ko_filterRowsAndCells cursor rb ra chk :
  writable n Own (action cursor) ->
  preserves (keepsOutside n Own) (_filterRowsAndCells ext cursor rb ra chk).
Proof.
  intros Hw. unfold _filterRowsAndCells.
  apply ko_bind; [apply ko_weaken, keeps_getRuler|]. intros ruler.
  apply ko_bind; [apply ko_weaken, keeps_readAction|]. intros v.
  destruct (isSchemaAction v); [apply ko_ret|].
  apply ko_bind; [apply ko_weaken, keeps_getUser|]. intros u.
  apply ko_bind; [apply ko_weaken, keeps_readRuler|]. intros rl.
  apply ko_bind; [apply ko_weaken, preserves_liftResult, keepsActions_refl|]. intros [tr v'].
  apply ko_bind; [by apply ko_write|]. intros _.
  destruct (0 <? length tr)%nat; [|apply ko_ret].
  destruct rb; [by apply ko_write|].
  destruct (_ && _); [apply ko_throw|apply ko_ret].
Qed.

Lemma post_allocAction a : post n (allocAction a) (fun r => (n <= r)%nat).
Proof. intros w x w' Hn. unfold allocAction. intros [= <- _]. done. Qed.

Lemma post_makeAdditions data rowIds :
  post n (_makeAdditions data rowIds) (fun r => forall l, r = Some l -> writable n Own l).
Proof.
  intros w x w' Hn. unfold _makeAdditions.
  destruct (length rowIds =? 0)%nat; [by intros [= <- _]|].
  destruct (removeRowsValue _ _) as [| |copy returned]; try (by intros [= <- _]).
  destruct copy; try (by intros [= <- _]). destruct returned; try (by intros [= <- _]).
  munfold. simpl. intros [= <- _] l [= <-]. by right.
Qed.

Lemma post_makeRemovals data rowIds :
  post n (_makeRemovals data rowIds) (fun r => forall l, r = Some l -> writable n Own l).
Proof.
  intros w x w' Hn. unfold _makeRemovals.
  destruct (length rowIds =? 0)%nat; [by intros [= <- _]|].
  munfold. simpl. intros [= <- _] l [= <-]. by right.
Qed.

Lemma post_removeRows (a : ActionRef) rowIds :
  a ∈ Own ->
  post n (_removeRows a rowIds) (fun r => forall l, r = Some l -> writable n Own l).
Proof.
  intros Ha w x w' Hn. unfold _removeRows, cloneDeep. munfold. simpl.
  destruct (actions w !! a) as [v|] eqn:Hv; simpl; [|discriminate].
  destruct (removeRowsValue v rowIds) as [| |copy returned].
  - intros [= <- _] l [= <-]. by left.
  - by intros [= <- _].
  - rewrite Hv. simpl. destruct returned; simpl; intros [= <- _]; [|done].
    intros l [= <-]. by right.
Qed.

Lemma keeps_makeAdditions data rowIds : preserves (keepsActions n) (_makeAdditions data rowIds).
Proof.
  unfold _makeAdditions.
  destruct (length rowIds =? 0)%nat; [apply preserves_ret, keepsActions_refl|].
  destruct (removeRowsValue _ _) as [| |copy returned];
    try apply preserves_ret, keepsActions_refl.
  destruct copy; try apply preserves_ret, keepsActions_refl.
  destruct returned; try apply preserves_ret, keepsActions_refl.
  apply preserves_bind; [apply keepsActions_refl|apply keepsActions_trans
                        |apply keeps_allocAction|].
  intros. apply preserves_ret, keepsActions_refl.
Qed.

Lemma keeps_makeRemovals data rowIds : preserves (keepsActions n) (_makeRemovals data rowIds).
Proof.
  unfold _makeRemovals.
  destruct (length rowIds =? 0)%nat; [apply preserves_ret, keepsActions_refl|].
  apply preserves_bind; [apply keepsActions_refl|apply keepsActions_trans
                        |apply keeps_allocAction|].
  intros. apply preserves_ret, keepsActions_refl.
Qed.

Lemma keeps_removeRows a rowIds : preserves (keepsActions n) (_removeRows a rowIds).
Proof.
  intros w. unfold _removeRows, cloneDeep. munfold. simpl.
  destruct (actions w !! a) as [v|] eqn:Hv; simpl; [|apply keepsActions_refl].
  destruct (removeRowsValue v rowIds) as [| |copy returned]; try apply keepsActions_refl.
  rewrite Hv. simpl. intros Hn. simpl. split; [destruct returned; simpl; lia|].
  intros l Hl. destruct returned; simpl; rewrite !lookup_insert_ne by lia; done.
Qed.

Lemma keeps_getForbiddenRows cursor data ids :
  preserves (keepsActions n) (_getForbiddenRows ext cursor data ids).
Proof.
  unfold _getForbiddenRows.
  apply preserves_bind; [apply keepsActions_refl|apply keepsActions_trans|apply keeps_getRuler|].
  intros. apply preserves_bind; [apply keepsActions_refl|apply keepsActions_trans
                                |apply keeps_getUser|].
  intros. apply preserves_bind; [apply keepsActions_refl|apply keepsActions_trans
                                |apply keeps_readRuler|].
  intros. apply preserves_ret, keepsActions_refl.
Qed.

Lemma keeps_getRowsBeforeAndAfter cursor :
  preserves (keepsActions n) (_getRowsBeforeAndAfter ext cursor).
Proof.
  unfold _getRowsBeforeAndAfter.
  apply preserves_bind; [apply keepsActions_refl|apply keepsActions_trans|apply keeps_getStep|].
  intros. apply preserves_bind; [apply keepsActions_refl|apply keepsActions_trans
                                |apply keeps_stepOrTypeError|].
  intros step. destruct (rowsBefore step), (rowsAfter step);
    first [apply preserves_ret, keepsActions_refl|apply preserves_throw, keepsActions_refl].
Qed.

Lemma ko_pruneRows cursor :
  action cursor ∈ Own -> preserves (keepsOutside n Own) (_pruneRows ext cursor).
Proof.
  intros Ha. unfold _pruneRows.
  apply ko_bind; [apply ko_weaken, keeps_readAction|]. intros v.
  destruct (negb (isDataAction v)); [apply ko_ret|].
  apply ko_bind; [apply ko_weaken, keeps_getRowsBeforeAndAfter|]. intros [before after].
  apply ko_bind; [apply ko_weaken, keeps_getForbiddenRows|]. intros fb.
  apply ko_bind; [apply ko_weaken, keeps_getForbiddenRows|]. intros fa.
  cbv zeta.
  eapply ko_bind_post; [apply ko_weaken, keeps_makeAdditions|apply post_makeAdditions|].
  intros additions Hadd.
  eapply ko_bind_post; [apply ko_weaken, keeps_removeRows|by apply post_removeRows|].
  intros pruned Hpr.
  eapply ko_bind_post; [apply ko_weaken, keeps_makeRemovals|apply post_makeRemovals|].
  intros removed Hrm.
  apply ko_bind; [|intros; apply ko_ret].
  apply ko_forEach_in. intros _ r Hr. apply ko_filterRowsAndCells. simpl.
  unfold filterIsObject in Hr. simpl in Hr.
  destruct additions as [x|], pruned as [y|], removed as [z|]; simpl in Hr;
    repeat (apply elem_of_cons in Hr as [->|Hr]; [eauto|]); by apply elem_of_nil in Hr.
Qed.

End F.

Section F.
Context (ext : Externals) (n : nat).

Lemma keeps_applyAndPush censor (l : ActionRef) :
  (n <= l)%nat -> preserves (keepsActions n) (applyAndPush censor l).
Proof.
  intros Hl. unfold applyAndPush.
  apply preserves_bind; [apply keepsActions_refl|apply keepsActions_trans|apply keeps_readAction|].
  intros v. apply preserves_bind; [apply keepsActions_refl|apply keepsActions_trans
                                  |apply preserves_liftResult, keepsActions_refl|].
  intros res. cbv zeta.
  apply preserves_bind; [apply keepsActions_refl|apply keepsActions_trans| |].
  - intros w. by apply keeps_write_fresh.
  - intros. apply preserves_ret, keepsActions_refl.
Qed.

Lemma keeps_bind_clone {B} act (k : ActionRef -> M B) :
  (forall l : ActionRef, (n <= l)%nat -> preserves (keepsActions n) (k l)) ->
  preserves (keepsActions n) (cloneDeep act ≫= k).
Proof.
  intros Hk w Hn. unfold cloneDeep. unfold mbind, M_bind, bind, readAction, allocAction.
  destruct (actions w !! act) as [v|]; simpl; [|by split].
  pose proof (keeps_allocAction n v w Hn) as [Hn1 Ha]. simpl in Hn1, Ha.
  destruct (Hk (nextAction w) Hn
              (setActions (<[nextAction w := v]> (actions w)) (S (nextAction w)) w) Hn1)
    as [Hn2 Hk2].
  split; [done|]. intros l Hl. rewrite Hk2 by done. by apply Ha.
Qed.

Ltac kb := apply preserves_bind; [apply keepsActions_refl|apply keepsActions_trans| |].
Ltac kr := first [apply preserves_ret, keepsActions_refl|apply preserves_throw, keepsActions_refl
                 |apply preserves_liftResult, keepsActions_refl].

Lemma keeps_filterOutgoingStructuralTables cursor act :
  preserves (keepsActions n) (_filterOutgoingStructuralTables ext cursor act).
Proof.
  unfold _filterOutgoingStructuralTables.
  kb; [apply keeps_getStepAccess|]. intros p.
  kb; [apply keeps_getStep|]. intros s.
  kb; [apply keeps_stepOrTypeError|]. intros step.
  destruct (metaAfter step) as [after|]; [|kr].
  apply keeps_bind_clone. intros act' Hact'.
  kb; [apply keeps_getRuler|]. intros ruler.
  kb; [apply keeps_hasAccessRulesPermission|]. intros canView.
  kb; [apply keeps_readRuler|]. intros rl.
  kb; [kr|]. intros censor.
  kb; [by apply keeps_applyAndPush|]. intros results.
  kb; [apply keeps_readAction|]. intros v'.
  destruct (String.eqb (getTableId v') "_grist_Views_section"); [|kr].
  destruct (metaBefore step) as [before|]; [|kr].
  kb; [apply keeps_hasAccessRulesPermission|]. intros canView'.
  kb; [apply keeps_readRuler|]. intros rl'.
  kb; [kr|]. intros censorBefore.
  kb.
  { apply preserves_forEach; [apply keepsActions_refl|apply keepsActions_trans|].
    intros acc v. destruct (negb _); [|kr].
    kb; [kr|]. intros table. kb; [destruct (objGet _ _); kr|]. intros names.
    cbv zeta. kb; [apply keeps_allocAction|]. intros. kr. }
  intros exposed. kb.
  { apply preserves_forEach; [apply keepsActions_refl|apply keepsActions_trans|].
    intros acc v. destruct (negb _); [|kr].
    kb; [apply keeps_allocAction|]. intros. kr. }
  intros. kr.
Qed.

Lemma keeps_secondPass cursor results :
  preserves (keepsActions n)
    (forEach results []
       (fun secondPass act =>
          av ← readAction act;
          if setHas STRUCTURAL_TABLES (getTableId av) && isDataAction av
          then pushed ← _filterOutgoingStructuralTables ext cursor act;
               ret (secondPass ++ pushed)%list
          else ret (secondPass ++ [act])%list)).
Proof.
  apply preserves_forEach; [apply keepsActions_refl|apply keepsActions_trans|].
  intros acc act. kb; [apply keeps_readAction|]. intros av.
  destruct (_ && _); [|kr].
  kb; [apply keeps_filterOutgoingStructuralTables|]. intros. kr.
Qed.

Context (Own : list ActionRef).

Lemma ko_filterOutgoingDocAction cursor :
  action cursor ∈ Own ->
  preserves (keepsOutside n Own) (_filterOutgoingDocAction ext cursor).
Proof.
  intros Ha. unfold _filterOutgoingDocAction.
  apply ko_bind; [apply ko_weaken, keeps_readAction|]. intros v. cbv zeta.
  apply ko_bind; [apply ko_weaken, keeps_getStepAccess|]. intros p.
  apply ko_bind; [|intros; apply ko_weaken, keeps_secondPass].
  destruct (getReadPermission _).
  - apply ko_ret.
  - apply ko_ret.
  - apply ko_bind; [by apply ko_pruneRows|]. intros acts.
    apply ko_weaken. apply preserves_forEach; [apply keepsActions_refl|apply keepsActions_trans|].
    intros acc act. kb; [apply keeps_pruneColumns|]. intros. kr.
  - apply ko_bind; [apply ko_weaken, keeps_pruneColumns|]. intros. apply ko_ret.
Qed.

End F.

Section T.
Context (ext : Externals).

(** X28.  When the viewer's read permission on the table of an action is
    settled at table level (anything but mixed), filtering that action
    for the viewer modifies no stored action, its own included: columns
    are pruned and metadata censored on copies. *)
Theorem filterOutgoingDocAction_unmixed cursor w v p w1 :
  actions w !! action cursor = Some v ->
  _getStepAccess ext cursor w = (Ok p, w1) ->
  getReadPermission (PermissionInfo_getTableAccess p (getTableId v)) <> mixed ->
  let w' := snd (_filterOutgoingDocAction ext cursor w) in
  (nextAction w <= nextAction w')%nat
  /\ forall l : ActionRef, (l < nextAction w)%nat -> actions w' !! l = actions w !! l.
Proof.
  intros Hv Hacc Hnm w'.
  pose proof (same_getStepAccess ext cursor w) as Hs. rewrite Hacc in Hs.
  destruct Hs as [Hsa Hsn]. simpl in Hsa, Hsn.
  assert (Hw' : w' = snd (_filterOutgoingDocAction ext cursor w)) by reflexivity.
  clearbody w'. unfold _filterOutgoingDocAction in Hw'.
  unfold mbind at 1, M_bind at 1, bind at 1, readAction in Hw'. rewrite Hv in Hw'.
  unfold mbind at 1, M_bind at 1, bind at 1 in Hw'. rewrite Hacc in Hw'. cbv zeta in Hw'.
  match type of Hw' with _ = snd (?m w1) =>
    assert (Hk : preserves (keepsActions (nextAction w1)) m) end.
  { apply preserves_bind; [apply keepsActions_refl|apply keepsActions_trans|
                          |intros; apply keeps_secondPass].
    destruct (getReadPermission _); [| |done|].
    - apply preserves_ret, keepsActions_refl.
    - apply preserves_ret, keepsActions_refl.
    - apply preserves_bind; [apply keepsActions_refl|apply keepsActions_trans
                            |apply keeps_pruneColumns|].
      intros. apply preserves_ret, keepsActions_refl. }
  destruct (Hk w1 (le_n _)) as [H1 H2]. rewrite <- Hw' in H1, H2.
  rewrite <- Hsa, <- Hsn. split; [exact H1|exact H2].
Qed.

(** X29.  Whatever it returns or throws, [filterOutgoingDocActions] never
    modifies a stored doc action other than those it was given to
    filter. *)
Theorem filterOutgoingDocActions_frame s docActions w :
  let w' := snd (filterOutgoingDocActions ext s docActions w) in
  (nextAction w <= nextAction w')%nat
  /\ forall l : ActionRef,
       (l < nextAction w)%nat -> l ∉ docActions -> actions w' !! l = actions w !! l.
Proof.
  assert (H : preserves (keepsOutside (nextAction w) docActions)
                (filterOutgoingDocActions ext s docActions)).
  { unfold filterOutgoingDocActions.
    apply ko_bind; [apply ko_weaken, keeps_getThis|]. intros g.
    destruct (match _activeBundle g with Some b => hasDeliberateRuleChange b | None => false end);
      [apply ko_throw|].
    apply ko_bind; [apply ko_weaken, keeps_haveRules|]. intros h.
    destruct (negb h); [apply ko_ret|].
    apply ko_bind.
    { apply ko_weaken. apply (preserves_weaken cacheFrame); [apply cacheFrame_keeps|].
      unfold _checkUserAttributes. frame. }
    intros _. apply ko_bind; [|intros; apply ko_ret].
    assert (Hall : forall entries : list (nat * ActionRef),
              (forall e, e ∈ entries -> snd e ∈ docActions) ->
              preserves (keepsOutside (nextAction w) docActions)
                (mapM (fun entry : nat * ActionRef =>
                         _filterOutgoingDocAction ext
                           {| cursorSession := s; action := snd entry;
                              actionIdx := Some (fst entry) |}) entries)).
    { induction entries as [|e entries IH]; intros He; simpl.
      - apply ko_ret.
      - apply ko_bind.
        + apply ko_filterOutgoingDocAction. simpl. apply He, list_elem_of_here.
        + intros y. apply ko_bind; [|intros; apply ko_ret].
          apply IH. intros e' He'. apply He. by apply list_elem_of_further. }
    apply Hall. intros [i a] Hin. apply elem_of_lookup_imap in Hin as (i' & a' & Heq & Hl).
    injection Heq as -> ->. simpl. by eapply list_elem_of_lookup_2. }
  intros w'. destruct (H w (le_n _)) as [H1 H2]. split; [exact H1|exact H2].
Qed.

End T.

Lemma filterOutgoingDocAction_unmixed_witness :
  let w := Demo.world Demo.rules [Demo.plain] (Some (Demo.bundleOf [Demo.plain] true false)) in
  actions (snd (_filterOutgoingDocAction (Demo.ext [] []) Demo.cursor0 w)) !! 0%nat
  = Some Demo.plain.
Proof.
  intros w.
  destruct (_getStepAccess (Demo.ext [] []) Demo.cursor0 w) as [[p|e] w1] eqn:Hacc;
    [|vm_compute in Hacc; discriminate Hacc].
  pose proof (filterOutgoingDocAction_unmixed (Demo.ext [] []) Demo.cursor0 w Demo.plain p w1
                eq_refl Hacc) as H.
  vm_compute in Hacc. inversion Hacc; subst p w1; clear Hacc.
  destruct (H ltac:(discriminate)) as [_ H2].
  exact (H2 0%nat (le_n 1)).
Defined.

(** ** Metadata sent to a client *)

Section G.
Context (ext : Externals).



End G.

Section H.
Context (ext : Externals).



End H.

